(** * PolicyWatch front end: alert delivery and the toast queue

    A shallow embedding of the alert code of [src/App.tsx], of
    [src/components/AlertsModal.tsx] and of the request helpers of
    [src/api.ts], followed by the properties of the notification queue, of
    the suppression records kept in [window.localStorage] and of the
    poll effect.

    Conventions of the embedding.
    - [Date.now()] is an integer number of milliseconds; one synchronous
      slice of a handler reads one instant [now : Z].
    - [window.localStorage] is a finite map from strings to strings.
    - Everything a handler does to the outside (storage writes, calls of
      the request helpers of [api.ts], the sound cue) is appended, in
      order, to a trace.
    - An [await] splits a handler: the part after it is a pending task that
      the event loop resumes with the response. *)

From Stdlib Require Import ZArith QArith Lia DecimalString DecimalPos DecimalZ.
From stdpp Require Import base option list strings gmap.

Close Scope Q_scope.
Local Open Scope Z_scope.

(** ** JavaScript values *)

Module Js.

(** A computation that may raise a [TypeError] (a property read on
    [undefined]). *)
Inductive result (A : Type) : Type :=
| Val (a : A)
| TypeError.
Arguments Val {A} a.
Arguments TypeError {A}.

Definition bind {A B} (r : result A) (k : A → result B) : result B :=
  match r with
  | Val a => k a
  | TypeError => TypeError
  end.

(** [Array.prototype.filter] with a callback that may throw. *)
Fixpoint filter {A} (p : A → result bool) (l : list A) : result (list A) :=
  match l with
  | [] => Val []
  | x :: l' =>
      bind (p x) (λ b,
      bind (filter p l') (λ r, Val (if b then x :: r else r)))
  end.

(** [Array.prototype.map] with a callback that may throw. *)
Fixpoint map {A B} (f : A → result B) (l : list A) : result (list B) :=
  match l with
  | [] => Val []
  | x :: l' => bind (f x) (λ y, bind (map f l') (λ r, Val (y :: r)))
  end.

(** A JavaScript number: the finite doubles are rationals. *)
Inductive number : Type :=
| NaN
| PosInfinity
| NegInfinity
| Finite (q : Q).

(** [Number.isFinite] *)
Definition isFinite (n : number) : bool :=
  match n with
  | Finite _ => true
  | _ => false
  end.

(** The comparison [a <= b] of two numbers. *)
Definition le (a b : number) : bool :=
  match a, b with
  | NaN, _ | _, NaN => false
  | NegInfinity, _ => true
  | _, PosInfinity => true
  | PosInfinity, _ => false
  | _, NegInfinity => false
  | Finite p, Finite q => Qle_bool p q
  end.

(** An integer as a number. *)
Definition ofZ (z : Z) : number := Finite (inject_Z z).

(** Truthiness of a string that may be missing: [undefined], [null] and
    the empty string are falsy. *)
Definition truthy (s : option string) : bool :=
  match s with
  | Some s => negb (String.eqb s "")
  | None => false
  end.

(** [String(n)] for an integer [n] (below 10^21 in absolute value, where
    JavaScript prints plain decimal digits). *)
Definition toString (z : Z) : string :=
  NilZero.string_of_int (Z.to_int z).

(** A [Number(s)] that reads optionally signed decimal integers, the
    empty string as [0], and everything else as [NaN]. It agrees with
    the host's [Number] on the strings that [String(n)] prints for an
    integer, which are the only ones the examples store; the host reads
    more (exponents, fractions, blanks, hexadecimal). The development is
    parametric in [Number]; this instance runs the examples. *)
Definition NumberDecimal (s : string) : number :=
  if String.eqb s "" then ofZ 0 else
  match NilZero.int_of_string s with
  | Some d => ofZ (Z.of_int d)
  | None => NaN
  end.

(** A settled promise. *)
Inductive settled (A : Type) : Type :=
| Resolved (a : A)
| Rejected (message : option string).
Arguments Resolved {A} a.
Arguments Rejected {A} message.

(** What an [await] throws, if it throws. *)
Definition rejection {A} (r : settled A) : option (option string) :=
  match r with
  | Resolved _ => None
  | Rejected m => Some m
  end.

End Js.

Notation "x ←' r ; k" := (Js.bind r (λ x, k))
(at level 20, r at level 100, k at level 200, only parsing).

(** ** Data carried by the API ([src/api.ts]) *)

(** [AlertNotification["alert"]]; [id] may be missing in a malformed
  response, [muted] is optional. *)
Module Alert.
Record t : Type := mk {
  id : option string;
  source_key : string;
  muted : option bool
}.
End Alert.

(** [AlertNotification["delivery"]] *)
Module Delivery.
Record t : Type := mk {
  id : option string;
  delivered_at : string;
  acknowledged_at : option string
}.
End Delivery.

(** [AlertNotification]: the poll handler reads it as [any], so the alert
  and the delivery may be absent; [item] stands for the matched policy
  item. *)
Record Notification : Type := mkNotification {
alert : option Alert.t;
delivery : option Delivery.t;
item : string
}.

(** [AlertDTO] *)
Record AlertDTO : Type := mkAlertDTO {
dto_id : string;
dto_source_key : string;
dto_statuses : list string;
dto_categories : list string;
dto_enabled : bool;
dto_muted : bool;
dto_created_at : string
}.

(** The body of [updateAlert]: [Omit<AlertDTO, "id" | "created_at">]. *)
Record AlertPayload : Type := mkAlertPayload {
p_source_key : string;
p_statuses : list string;
p_categories : list string;
p_enabled : bool;
p_muted : bool
}.

(** The payload every mute toggle sends: the row's own fields with
  [muted] replaced. *)
Definition withMuted (a : AlertDTO) (m : bool) : AlertPayload :=
{| p_source_key := dto_source_key a;
   p_statuses := dto_statuses a;
   p_categories := dto_categories a;
   p_enabled := dto_enabled a;
   p_muted := m |}.

(** [MuteChoice] without ["always"], and [MuteChoice]. *)
Inductive TimedChoice : Type := C1h | C8h | C1d | C1w | C1mo.
Inductive MuteChoice : Type := Timed (c : TimedChoice) | Always.

(** ** The outside world: requests, storage and the trace *)

(** A call of one of the request helpers of [api.ts]. *)
Inductive Request : Type :=
| ListAlerts                                        (* GET /me/alerts *)
| UpdateAlert (alertId : string) (p : AlertPayload) (* PUT /me/alerts/:id *)
| PollAlerts                                        (* GET /me/alerts/poll *)
| AckDelivery (deliveryId : string).                (* POST .../:id/ack *)

Inductive Effect : Type :=
| SetItem (key value : string)
| RemoveItem (key : string)
| Call (r : Request)
| PlayNotif.

Record World : Type := mkWorld {
localStorage : gmap string string;
trace : list Effect
}.

Definition getItem (key : string) (w : World) : option string :=
localStorage w !! key.

Definition setItem (key value : string) (w : World) : World :=
{| localStorage := <[key := value]> (localStorage w);
   trace := trace w ++ [SetItem key value] |}.

Definition removeItem (key : string) (w : World) : World :=
{| localStorage := delete key (localStorage w);
   trace := trace w ++ [RemoveItem key] |}.

Definition call (r : Request) (w : World) : World :=
{| localStorage := localStorage w; trace := trace w ++ [Call r] |}.

Definition playNotif (w : World) : World :=
{| localStorage := localStorage w; trace := trace w ++ [PlayNotif] |}.

(** The requests of a trace, in order. *)
Definition requests (t : list Effect) : list Request :=
omap (λ e, match e with Call r => Some r | _ => None end) t.

(** [!raw] for the result of [getItem]. *)
Definition absent (raw : option string) : bool := negb (Js.truthy raw).

(** ** [src/App.tsx] *)

Module App.
Section WithNumber.

(** The host's [Number(string)]. *)
Variable Number : string → Js.number.

Definition LS_UNTIL (alertId : string) : string :=
  "pw_alert_mute_until_" +:+ alertId.
Definition DISMISS_UNTIL (alertId : string) : string :=
  "pw_alert_dismiss_until_" +:+ alertId.

Definition getMuteUntil (now : Z) (alertId : string) (w : World)
  : option Js.number * World :=
  let raw := getItem (LS_UNTIL alertId) w in
  if absent raw then (None, w) else
  let n := Number (default "" raw) in
  if negb (Js.isFinite n) || Js.le n (Js.ofZ 0) then (None, w) else
  if Js.le n (Js.ofZ now) then (None, removeItem (LS_UNTIL alertId) w)
  else (Some n, w).

Definition setMuteUntil (alertId : string) (untilMs : Z) (w : World) : World :=
  setItem (LS_UNTIL alertId) (Js.toString untilMs) w.

Definition clearMuteUntil (alertId : string) (w : World) : World :=
  removeItem (LS_UNTIL alertId) w.

Definition choiceToUntil (now : Z) (choice : TimedChoice) : Z :=
  let base := now in
  let H := 60 * 60 * 1000 in
  match choice with
  | C1h => base + 1 * H
  | C8h => base + 8 * H
  | C1d => base + 24 * H
  | C1w => base + 7 * 24 * H
  | C1mo => base + 30 * 24 * H
  end.

Definition getTempDismissed (now : Z) (alertId : string) (w : World)
  : bool * World :=
  let raw := getItem (DISMISS_UNTIL alertId) w in
  if absent raw then (false, w) else
  let n := Number (default "" raw) in
  if negb (Js.isFinite n) || Js.le n (Js.ofZ 0) then (false, w) else
  if Js.le n (Js.ofZ now) then (false, removeItem (DISMISS_UNTIL alertId) w)
  else (true, w).

Definition setTempDismissed (now : Z) (alertId : string) (minutes : Z)
    (w : World) : World :=
  setItem (DISMISS_UNTIL alertId) (Js.toString (now + minutes * 60 * 1000)) w.

(** [isMuted]: the server flag short-cuts the storage read. *)
Definition isMuted (now : Z) (alertId : string) (serverMuted : bool)
    (w : World) : bool * World :=
  if serverMuted then (true, w)
  else let '(until, w') := getMuteUntil now alertId w in
       (bool_decide (until ≠ None), w').

(** *** The component's state

    [cancelled], [timers] and [pollCleanup] are the poll effect's
    closures: instance [i] of the effect owns the flag at index [i] and
    the interval registered under [i]; [pollCleanup] is the instance
    whose cleanup React still holds. [pending] are the handlers
    suspended at an [await]. *)

Inductive Task : Type :=
| RunAwaitPoll (inst : nat)            (* run: await pollAlerts() *)
| GotItAwaitAck (deliveryId : string)  (* onGotIt: await ackDelivery(..) *)
| MuteAwaitList (alertId : string)     (* onMuteAlert: await listAlerts() *)
| MuteAwaitUpdate (alertId : string)   (* onMuteAlert: await updateAlert(..) *)
| UnmuteAwaitList (alertId : string)   (* onUnmuteAlert: await listAlerts() *)
| UnmuteAwaitUpdate (alertId : string). (* onUnmuteAlert: await updateAlert(..) *)

Record State : Type := mkState {
  user : option string;
  toastQueue : list Notification;
  world : World;
  cancelled : list bool;
  timers : gset nat;
  pollCleanup : option nat;
  pending : list Task
}.

Definition setToastQueue (q : list Notification) (st : State) : State :=
  mkState (user st) q (world st) (cancelled st) (timers st)
          (pollCleanup st) (pending st).

Definition setWorld (w : World) (st : State) : State :=
  mkState (user st) (toastQueue st) w (cancelled st) (timers st)
          (pollCleanup st) (pending st).

Definition suspend (t : Task) (st : State) : State :=
  mkState (user st) (toastQueue st) (world st) (cancelled st) (timers st)
          (pollCleanup st) (pending st ++ [t]).

(** *** The queue updaters *)

(** [x.alert] and [x.delivery] of a queued entry; reading [.id] of a
    missing one throws. *)
Definition alertOf (x : Notification) : Js.result Alert.t :=
  match alert x with Some a => Js.Val a | None => Js.TypeError end.
Definition deliveryOf (x : Notification) : Js.result Delivery.t :=
  match delivery x with Some d => Js.Val d | None => Js.TypeError end.

(** [prev.filter((x) => x.alert.id !== alertId)] *)
Definition dropAlert (alertId : string) (prev : list Notification)
  : Js.result (list Notification) :=
  Js.filter (λ x, a ←' alertOf x;
                  Js.Val (bool_decide (Alert.id a ≠ Some alertId))) prev.

(** [prev.filter((x) => x.delivery.id !== deliveryId)] *)
Definition dropDelivery (deliveryId : string) (prev : list Notification)
  : Js.result (list Notification) :=
  Js.filter (λ x, d ←' deliveryOf x;
                  Js.Val (bool_decide (Delivery.id d ≠ Some deliveryId))) prev.

(** The updater of [run]: the new queue, and whether [playNotif] was
    called on the way. *)
Definition appendNew (filtered prev : list Notification)
  : Js.result (list Notification * bool) :=
  ids ←' Js.map (λ x, d ←' deliveryOf x; Js.Val (Delivery.id d)) prev;
  let have : gset (option string) := list_to_set ids in
  nextAdds ←' Js.filter (λ x, d ←' deliveryOf x;
                 Js.Val (bool_decide (Delivery.id d ∉ have))) filtered;
  match nextAdds with
  | [] => Js.Val (prev, false)
  | _ :: _ => Js.Val (prev ++ nextAdds, true)
  end.


(** *** The toast's actions *)

(** [onCloseTemp]: Close (x) = temporary dismiss only. *)
Definition onCloseTemp (now : Z) (alertId : string) (st : State)
  : Js.result State :=
  let w := setTempDismissed now alertId 5 (world st) in
  q ←' dropAlert alertId (toastQueue st);
  Js.Val (setToastQueue q (setWorld w st)).

(** [onGotIt] up to its [await]. *)
Definition onGotIt (deliveryId : string) (st : State) : State :=
  suspend (GotItAwaitAck deliveryId)
          (setWorld (call (AckDelivery deliveryId) (world st)) st).

(** The [finally] block of [onGotIt]: the state it leaves. [ok] tells
    whether [ackDelivery] resolved; there is no [catch], so after the
    block a rejection goes on to the caller and the promise of [onGotIt]
    rejects, which changes nothing in the state. *)
Definition onGotIt_finally (deliveryId : string) (ok : bool) (st : State)
  : Js.result State :=
  q ←' dropDelivery deliveryId (toastQueue st);
  Js.Val (setToastQueue q st).

(** [all.find((x) => x.id === alertId)] *)
Definition findAlert (alertId : string) (all : list AlertDTO) : option AlertDTO :=
  List.find (λ x, String.eqb (dto_id x) alertId) all.

(** [onMuteAlert] up to its first [await] (or to its end, for a timed
    choice). *)
Definition onMuteAlert (now : Z) (alertId : string) (choice : MuteChoice)
    (st : State) : Js.result State :=
  match choice with
  | Always =>
      Js.Val (suspend (MuteAwaitList alertId)
                      (setWorld (call ListAlerts (world st)) st))
  | Timed c =>
      let w := setMuteUntil alertId (choiceToUntil now c) (world st) in
      q ←' dropAlert alertId (toastQueue st);
      Js.Val (setToastQueue q (setWorld w st))
  end.

(** [onMuteAlert] after [listAlerts()]: the state it leaves. [None] is
    a rejected request: the handler has no [try], so it stops there and
    its promise rejects, with the state as it was. *)
Definition onMuteAlert_listed (alertId : string) (r : option (list AlertDTO))
    (st : State) : State :=
  match r with
  | None => st
  | Some all =>
      match findAlert alertId all with
      | None => st
      | Some a =>
          suspend (MuteAwaitUpdate alertId)
            (setWorld (call (UpdateAlert alertId (withMuted a true)) (world st)) st)
      end
  end.

(** [onMuteAlert] after [updateAlert(..)]: the state it leaves. When
    the request was rejected ([ok = false]) the handler stops there and
    its promise rejects, with the state as it was. *)
Definition onMuteAlert_updated (alertId : string) (ok : bool) (st : State)
  : Js.result State :=
  if ok then
    q ←' dropAlert alertId (toastQueue st);
    Js.Val (setToastQueue q st)
  else Js.Val st.

(** [onUnmuteAlert] up to its first [await]. *)
Definition onUnmuteAlert (alertId : string) (st : State) : State :=
  suspend (UnmuteAwaitList alertId)
          (setWorld (call ListAlerts (clearMuteUntil alertId (world st))) st).

(** [onUnmuteAlert] after [listAlerts()]; a rejection is caught. *)
Definition onUnmuteAlert_listed (alertId : string) (r : option (list AlertDTO))
    (st : State) : State :=
  match r with
  | None => st
  | Some all =>
      match findAlert alertId all with
      | None => st
      | Some a =>
          if negb (dto_muted a) then st
          else suspend (UnmuteAwaitUpdate alertId)
                 (setWorld (call (UpdateAlert alertId (withMuted a false)) (world st)) st)
      end
  end.

(** *** The poll effect *)

(** The callback of [notes.filter] in [run]. *)
Definition keep (now : Z) (n : Notification) (w : World) : bool * World :=
  let aid := alert n ≫= Alert.id in
  let did := delivery n ≫= Delivery.id in
  if negb (Js.truthy aid) || negb (Js.truthy did) then (false, w) else
  let alertId := default "" aid in
  let serverMuted := default false (alert n ≫= Alert.muted) in
  let '(m, w1) := isMuted now alertId serverMuted w in
  if m then (false, w1) else
  let '(d, w2) := getTempDismissed now alertId w1 in
  if d then (false, w2) else (true, w2).

(** [notes.filter(..)], threading the storage through the callbacks. *)
Fixpoint filterNotes (now : Z) (notes : list Notification) (w : World)
  : list Notification * World :=
  match notes with
  | [] => ([], w)
  | n :: rest =>
      let '(b, w1) := keep now n w in
      let '(r, w2) := filterNotes now rest w1 in
      (if b then n :: r else r, w2)
  end.

(** [run] up to [await pollAlerts()], for instance [inst] of the effect. *)
Definition run (inst : nat) (st : State) : State :=
  suspend (RunAwaitPoll inst) (setWorld (call PollAlerts (world st)) st).

(** [run] after [pollAlerts()]; [None] is a rejected request, caught and
    ignored. *)
Definition run_resume (inst : nat) (r : option (list Notification)) (now : Z)
    (st : State) : Js.result State :=
  match r with
  | None => Js.Val st
  | Some notes =>
      if bool_decide (cancelled st !! inst = Some true) then Js.Val st else
      let '(filtered, w) := filterNotes now notes (world st) in
      match filtered with
      | [] => Js.Val (setWorld w st)
      | _ :: _ =>
          upd ←' appendNew filtered (toastQueue st);
          let '(q, sound) := upd in
          Js.Val (setToastQueue q
                    (setWorld (if sound : bool then playNotif w else w) st))
      end
  end.

(** The cleanup the poll effect returned: [cancelled = true;
    clearInterval(t)]. *)
Definition pollEffect_cleanup (st : State) : State :=
  match pollCleanup st with
  | None => st
  | Some inst =>
      mkState (user st) (toastQueue st) (world st)
              (<[inst := true]> (cancelled st)) (timers st ∖ {[inst]})
              None (pending st)
  end.

(** The body of the poll effect: a fresh [cancelled = false], [run()] at
    once, then [setInterval(run, 5 * 60 * 1000)]. *)
Definition pollEffect (st : State) : State :=
  match user st with
  | None => st
  | Some _ =>
      let inst := length (cancelled st) in
      let st1 := mkState (user st) (toastQueue st) (world st)
                         (cancelled st ++ [false]) (timers st)
                         (pollCleanup st) (pending st) in
      let st2 := run inst st1 in
      mkState (user st2) (toastQueue st2) (world st2) (cancelled st2)
              ({[inst]} ∪ timers st2) (Some inst) (pending st2)
  end.

(** The part of the [user] effect that touches the queue: it is emptied
    when nobody is signed in. *)
Definition userEffect (st : State) : State :=
  match user st with
  | None => setToastQueue [] st
  | Some _ => st
  end.

(** A commit in which [user] changed: the cleanups run, then the effects
    in the order of their declaration. [null] to [null] is no change. *)
Definition setUser (u : option string) (st : State) : State :=
  match user st, u with
  | None, None => st
  | _, _ =>
      pollEffect (userEffect (pollEffect_cleanup
        (mkState u (toastQueue st) (world st) (cancelled st) (timers st)
                 (pollCleanup st) (pending st))))
  end.

(** *** The event loop *)

Inductive Event : Type :=
| AuthChanged (u : option string)
| IntervalFired (inst : nat)
| PollSettled (k : nat) (r : option (list Notification)) (now : Z)
| AckSettled (k : nat) (ok : bool)
| ListSettled (k : nat) (r : option (list AlertDTO))
| UpdateSettled (k : nat) (ok : bool)
| ClickClose (alertId : string) (now : Z)
| ClickGotIt (deliveryId : string)
| ClickMute (alertId : string) (choice : MuteChoice) (now : Z)
| ClickUnmute (alertId : string)
| StorageChanged (key : string) (value : option string).

(** Task [k] leaves the pending list when its request settles. *)
Definition resume (k : nat) (st : State) : State :=
  mkState (user st) (toastQueue st) (world st) (cancelled st) (timers st)
          (pollCleanup st) (delete k (pending st)).

(** A write to the storage from outside this component (the alerts modal,
    another tab). *)
Definition storageChanged (key : string) (value : option string) (st : State)
  : State :=
  setWorld {| localStorage := match value with
                              | Some v => <[key := v]> (localStorage (world st))
                              | None => delete key (localStorage (world st))
                              end;
              trace := trace (world st) |} st.

(** One turn of the event loop; an event that is not enabled (a timer
    that was cleared, a response for a task of another kind) changes
    nothing. *)
Definition step (e : Event) (st : State) : Js.result State :=
  match e with
  | AuthChanged u => Js.Val (setUser u st)
  | IntervalFired inst =>
      if bool_decide (inst ∈ timers st) then Js.Val (run inst st) else Js.Val st
  | PollSettled k r now =>
      match pending st !! k with
      | Some (RunAwaitPoll inst) => run_resume inst r now (resume k st)
      | _ => Js.Val st
      end
  | AckSettled k ok =>
      match pending st !! k with
      | Some (GotItAwaitAck d) => onGotIt_finally d ok (resume k st)
      | _ => Js.Val st
      end
  | ListSettled k r =>
      match pending st !! k with
      | Some (MuteAwaitList a) => Js.Val (onMuteAlert_listed a r (resume k st))
      | Some (UnmuteAwaitList a) => Js.Val (onUnmuteAlert_listed a r (resume k st))
      | _ => Js.Val st
      end
  | UpdateSettled k ok =>
      match pending st !! k with
      | Some (MuteAwaitUpdate a) => onMuteAlert_updated a ok (resume k st)
      | Some (UnmuteAwaitUpdate a) => Js.Val (resume k st)
      | _ => Js.Val st
      end
  | ClickClose a now => onCloseTemp now a st
  | ClickGotIt d => Js.Val (onGotIt d st)
  | ClickMute a c now => onMuteAlert now a c st
  | ClickUnmute a => Js.Val (onUnmuteAlert a st)
  | StorageChanged k v => Js.Val (storageChanged k v st)
  end.

Fixpoint exec (es : list Event) (st : State) : Js.result State :=
  match es with
  | [] => Js.Val st
  | e :: es' => st' ←' step e st; exec es' st'
  end.

(** The component as mounted: nobody signed in, nothing queued. *)
Definition init (storage : gmap string string) : State :=
  mkState None [] {| localStorage := storage; trace := [] |} [] ∅ None [].

End WithNumber.
End App.

(** ** [src/components/AlertsModal.tsx] *)

Module AlertsModal.
Section WithNumber.

Variable Number : string → Js.number.

Definition LS_UNTIL (alertId : string) : string :=
  "pw_alert_mute_until_" +:+ alertId.

Definition getMuteUntil (now : Z) (alertId : string) (w : World)
  : option Js.number * World :=
  let raw := getItem (LS_UNTIL alertId) w in
  if absent raw then (None, w) else
  let n := Number (default "" raw) in
  if negb (Js.isFinite n) || Js.le n (Js.ofZ 0) then (None, w) else
  if Js.le n (Js.ofZ now) then (None, removeItem (LS_UNTIL alertId) w)
  else (Some n, w).

Definition setMuteUntil (alertId : string) (untilMs : Z) (w : World) : World :=
  setItem (LS_UNTIL alertId) (Js.toString untilMs) w.

Definition clearMuteUntil (alertId : string) (w : World) : World :=
  removeItem (LS_UNTIL alertId) w.

Definition choiceToUntil (now : Z) (choice : TimedChoice) : Z :=
  let base := now in
  let H := 60 * 60 * 1000 in
  match choice with
  | C1h => base + 1 * H
  | C8h => base + 8 * H
  | C1d => base + 24 * H
  | C1w => base + 7 * 24 * H
  | C1mo => base + 30 * 24 * H
  end.

(** The modal's own state. *)
Record State : Type := mkState {
  alerts : list AlertDTO;
  err : option string;
  busy : bool;
  muteOpenFor : option AlertDTO
}.

(** [catch (e) { setErr(e?.message ?? fallback) } finally { setBusy(false) }] *)
Definition failed (fallback : string) (message : option string) (st : State)
  : State :=
  mkState (alerts st) (Some (default fallback message)) false (muteOpenFor st).

(** [unmute]; [updated] and [reloaded] are how [updateAlert(..)] and the
    [listAlerts()] of [reloadAlerts] settle. *)
Definition unmute (a : AlertDTO) (updated : Js.settled unit)
    (reloaded : Js.settled (list AlertDTO)) (st : State) (w : World)
  : State * World :=
  let st := mkState (alerts st) None true (muteOpenFor st) in
  let w := clearMuteUntil (dto_id a) w in
  let w := call (UpdateAlert (dto_id a) (withMuted a false)) w in
  match Js.rejection updated with
  | Some m => (failed "Failed to unmute alert." m st, w)
  | None =>
      let w := call ListAlerts w in
      match reloaded with
      | Js.Rejected m => (failed "Failed to unmute alert." m st, w)
      | Js.Resolved l => (mkState l (err st) false (muteOpenFor st), w)
      end
  end.

(** [applyMute], with the same two responses. *)
Definition applyMute (now : Z) (a : AlertDTO) (choice : MuteChoice)
    (updated : Js.settled unit) (reloaded : Js.settled (list AlertDTO))
    (st : State) (w : World) : State * World :=
  let st := mkState (alerts st) None true (muteOpenFor st) in
  let '(thrown, w) :=
    match choice with
    | Always =>
        let w := clearMuteUntil (dto_id a) w in
        let w := call (UpdateAlert (dto_id a) (withMuted a true)) w in
        (Js.rejection updated, w)
    | Timed c =>
        let until := choiceToUntil now c in
        let w := setMuteUntil (dto_id a) until w in
        if dto_muted a then
          (Js.rejection updated,
           call (UpdateAlert (dto_id a) (withMuted a false)) w)
        else (None, w)
    end in
  match thrown with
  | Some m => (failed "Failed to mute alert." m st, w)
  | None =>
      let w := call ListAlerts w in
      match reloaded with
      | Js.Rejected m => (failed "Failed to mute alert." m st, w)
      | Js.Resolved l => (mkState l (err st) false None, w)
      end
  end.

End WithNumber.
End AlertsModal.

(** ** Vocabulary of the specification *)

(** The alert identity and the delivery identity of a notification;
    [None] when the identity, or the object that carries it, is missing. *)
Definition alertId (x : Notification) : option string := alert x ≫= Alert.id.
Definition deliveryId (x : Notification) : option string :=
  delivery x ≫= Delivery.id.
Definition deliveryIds (q : list Notification) : list (option string) :=
  deliveryId <$> q.

Definition hasAlert (x : Notification) : Prop := is_Some (alert x).
Definition hasDelivery (x : Notification) : Prop := is_Some (delivery x).

(** A notification that carries both identities. *)
Definition wellFormed (x : Notification) : Prop :=
  Js.truthy (alertId x) ∧ Js.truthy (deliveryId x).

(** The server's permanent mute, as the poll response reports it. *)
Definition serverMuted (x : Notification) : Prop :=
  alert x ≫= Alert.muted = Some true.

(** The queue without the notifications of alert [a], and without the
    notification of delivery [d]. *)
Definition withoutAlert (a : string) (q : list Notification) : list Notification :=
  filter (λ x, alertId x ≠ Some a) q.
Definition withoutDelivery (d : string) (q : list Notification)
  : list Notification :=
  filter (λ x, deliveryId x ≠ Some d) q.

(** The durations the specification lists, in milliseconds. *)
Definition durationMs (c : TimedChoice) : Z :=
  match c with
  | C1h => 3600000
  | C8h => 8 * 3600000
  | C1d => 24 * 3600000
  | C1w => 7 * 24 * 3600000
  | C1mo => 30 * 24 * 3600000
  end.

(** The dismiss window of the close action, in milliseconds. *)
Definition DISMISS_MS : Z := 5 * 60 * 1000.

#[global] Instance Qlt_decision (x y : Q) : Decision (x < y)%Q.
Proof.
  destruct (Qlt_le_dec x y) as [H | H]; [left; exact H | right].
  apply Qle_not_lt, H.
Defined.

Section Suppression.

Variable Number : string → Js.number.

(** A stored expiry that still suppresses at [now]: present, finite,
    positive and later than [now]. *)
Definition active (now : Z) (raw : option string) : Prop :=
  match raw with
  | Some s =>
      s ≠ "" ∧
      match Number s with
      | Js.Finite q => (0 < q)%Q ∧ (inject_Z now < q)%Q
      | _ => False
      end
  | None => False
  end.

#[global] Instance active_decision now raw : Decision (active now raw).
Proof.
  unfold active. destruct raw as [s |]; [| apply _].
  destruct (Number s); apply _.
Defined.

(** What the specification says a read of the record under [key] does:
    it reports whether the alert is suppressed and leaves a storage. *)
Inductive recordRead (now : Z) (key : string) (w : World)
  : bool → World → Prop :=
| read_absent :
    getItem key w = None ∨ getItem key w = Some "" →
    recordRead now key w false w
| read_not_finite s :
    getItem key w = Some s → s ≠ "" → Js.isFinite (Number s) = false →
    recordRead now key w false w
| read_not_positive s q :
    getItem key w = Some s → s ≠ "" → Number s = Js.Finite q → (q <= 0)%Q →
    recordRead now key w false w
| read_expired s q :
    getItem key w = Some s → s ≠ "" → Number s = Js.Finite q →
    (0 < q)%Q → (q <= inject_Z now)%Q →
    recordRead now key w false (removeItem key w)
| read_active s q :
    getItem key w = Some s → s ≠ "" → Number s = Js.Finite q →
    (0 < q)%Q → (inject_Z now < q)%Q →
    recordRead now key w true w.

(** The read that [getMuteUntil] and [getTempDismissed] share, over any
    key. *)
Definition readUntil (now : Z) (key : string) (w : World)
  : option Js.number * World :=
  match getItem key w with
  | None => (None, w)
  | Some s =>
      if String.eqb s "" then (None, w) else
      match Number s with
      | Js.Finite q =>
          if Qle_bool q 0 then (None, w)
          else if Qle_bool q (inject_Z now) then (None, removeItem key w)
          else (Some (Js.Finite q), w)
      | _ => (None, w)
      end
  end.

(** An alert is suppressed when the server muted it for good, or a
    mute-until or dismiss-until record of it is still running. *)
Definition suppressed (now : Z) (storage : gmap string string)
    (x : Notification) : Prop :=
  serverMuted x ∨
  match alertId x with
  | Some a =>
      active now (storage !! App.LS_UNTIL a) ∨
      active now (storage !! App.DISMISS_UNTIL a)
  | None => False
  end.

#[global] Instance suppressed_decision now storage x :
  Decision (suppressed now storage x).
Proof.
  unfold suppressed, serverMuted. destruct (alertId x); apply _.
Defined.

(** The notifications of a poll response that the poll handler lets into
    the queue [prev]. *)
Definition admitted (now : Z) (storage : gmap string string)
    (prev : list Notification) (x : Notification) : Prop :=
  wellFormed x ∧ ¬ suppressed now storage x ∧ deliveryId x ∉ deliveryIds prev.

(** Two storages in which the same records are running. *)
Definition sameActive (now : Z) (w w' : World) : Prop :=
  ∀ key, active now (localStorage w' !! key) ↔ active now (localStorage w !! key).

(** A poll response in which no delivery identity occurs twice. *)
Definition distinctDeliveries (notes : list Notification) : Prop :=
  NoDup (deliveryIds (filter (λ n, Js.truthy (deliveryId n)) notes)).

Definition distinctPoll (e : App.Event) : Prop :=
  match e with
  | App.PollSettled _ (Some notes) _ => distinctDeliveries notes
  | _ => True
  end.

(** What every state of the component satisfies. *)
Record Invariant (st : App.State) : Prop := mkInvariant {
  inv_wellFormed : Forall wellFormed (App.toastQueue st);
  inv_live : ∀ i, App.cancelled st !! i = Some false → App.pollCleanup st = Some i;
  inv_timers : ∀ i, i ∈ App.timers st → App.pollCleanup st = Some i;
  inv_cleanup : ∀ i, App.pollCleanup st = Some i →
                     (i < length (App.cancelled st))%nat ∧ is_Some (App.user st);
  inv_tasks : ∀ i, App.RunAwaitPoll i ∈ App.pending st →
                   (i < length (App.cancelled st))%nat;
  inv_signedOut : App.user st = None → App.toastQueue st = []
}.

(** What one turn of the event loop does to the queue: it filters it, or
    a live poll appends the notifications it admits. *)
Inductive queueStep (e : App.Event) (st st' : App.State) : Prop :=
| queue_filtered (P : Notification → Prop) (dec : ∀ x, Decision (P x)) :
    App.toastQueue st' = filter P (App.toastQueue st) →
    queueStep e st st'
| queue_appended k inst notes now :
    e = App.PollSettled k (Some notes) now →
    App.pending st !! k = Some (App.RunAwaitPoll inst) →
    App.cancelled st !! inst = Some false →
    App.toastQueue st'
    = App.toastQueue st
      ++ filter (admitted now (localStorage (App.world st)) (App.toastQueue st))
           notes →
    queueStep e st st'.

End Suppression.

(** ** More of [src/App.tsx]: pages, tabs and preferences *)

Module Pager.

(** [Math.ceil(a / b)] for integers and [b > 0] (exact below 2^53). *)
Definition ceilDiv (a b : Z) : Z := - ((- a) / b).

(** [Math.max(1, pageSize > 0 ? Math.ceil(total / pageSize) : 1)] *)
Definition totalPages (total pageSize : Z) : Z :=
  Z.max 1 (if 0 <? pageSize then ceilDiv total pageSize else 1).

Definition CHUNK_SIZE : Z := 10.

(** The effect on [totalPages]: the chunk is brought back under
    [maxChunk]. *)
Definition maxChunk (totalPages : Z) : Z :=
  Z.max 0 ((totalPages - 1) / CHUNK_SIZE).
Definition clampChunk (totalPages c : Z) : Z := Z.min c (maxChunk totalPages).

(** The effect on [page]: the chunk follows the page. *)
Definition chunkOfPage (page : Z) : Z := (page - 1) / CHUNK_SIZE.

Definition chunkStart (pageChunk : Z) : Z := pageChunk * CHUNK_SIZE + 1.
Definition chunkEnd (totalPages pageChunk : Z) : Z :=
  Z.min totalPages (chunkStart pageChunk + CHUNK_SIZE - 1).

(** [Array.from({ length: .. }, (_, i) => chunkStart + i)] *)
Definition visiblePages (totalPages pageChunk : Z) : list Z :=
  (λ i, chunkStart pageChunk + i)
    <$> seqZ 0 (Z.max 0 (chunkEnd totalPages pageChunk - chunkStart pageChunk + 1)).

Definition canChunkPrev (pageChunk : Z) : bool := 0 <? pageChunk.
Definition canChunkNext (totalPages pageChunk : Z) : bool :=
  chunkEnd totalPages pageChunk <? totalPages.

Definition goToPage (totalPages p : Z) : Z := Z.min (Z.max 1 p) totalPages.
Definition handlePrevPage (prev : Z) : Z := if 1 <? prev then prev - 1 else prev.
Definition handleNextPage (totalPages prev : Z) : Z :=
  if prev <? totalPages then prev + 1 else prev.
Definition handlePrevChunk (c : Z) : Z := Z.max 0 (c - 1).
Definition handleNextChunk (c : Z) : Z := c + 1.

End Pager.

Module Preferences.

(** [allowedKeys]: the tabs the saved preferences allow; [None] is
    [undefined], which shows every tab. *)
Definition allowedKeys (user : option string)
    (preferredSources : option (list string)) : option (list string) :=
  match user with
  | None => None
  | Some _ =>
      match preferredSources with
      | None | Some [] => None
      | Some (k :: ks) => Some (k :: ks)
      end
  end.

(** What [handleSavePrefs] leaves as the active source once
    [savePreferences] has resolved. *)
Definition handleSavePrefs (sources : list string) (activeSource : string)
  : string :=
  match sources with
  | [] => activeSource
  | first :: _ =>
      if bool_decide (activeSource ∈ sources) then activeSource else first
  end.

End Preferences.

(** ** [src/components/SourceTabs.tsx] and [PreferencesModal.tsx] *)

Module SourceTabs.

Definition LABELS : list (string * string) :=
  [ ("white-house", "White House"); ("florida", "Florida");
    ("texas", "Texas"); ("new-york", "New York");
    ("pennsylvania", "Pennsylvania"); ("illinois", "Illinois");
    ("massachusetts", "Massachusetts"); ("washington", "Washington");
    ("california", "California"); ("utah", "Utah"); ("ohio", "Ohio");
    ("vermont", "Vermont"); ("arizona", "Arizona"); ("virginia", "Virginia");
    ("georgia", "Georgia"); ("hawaii", "Hawaii"); ("alaska", "Alaska");
    ("new-jersey", "New Jersey"); ("maryland", "Maryland");
    ("colorado", "Colorado"); ("minnesota", "Minnesota");
    ("oregon", "Oregon"); ("michigan", "Michigan");
    ("north-carolina", "North Carolina"); ("wisconsin", "Wisconsin");
    ("nevada", "Nevada"); ("tennessee", "Tennessee");
    ("south-carolina", "South Carolina"); ("iowa", "Iowa");
    ("missouri", "Missouri"); ("kansas", "Kansas");
    ("new-mexico", "New Mexico") ].

(** [allowedKeys?.length ? LABELS.filter(x => allowedKeys.includes(x.key))
    : LABELS] *)
Definition list (allowedKeys : option (list string)) : list (string * string) :=
  match allowedKeys with
  | None | Some [] => LABELS
  | Some (k :: ks) => filter (λ x, x.1 ∈ k :: ks) LABELS
  end.

End SourceTabs.

Module PreferencesModal.

(** [prev.includes(k) ? prev.filter((x) => x !== k) : [...prev, k]] *)
Definition toggle (k : string) (prev : list string) : list string :=
  if bool_decide (k ∈ prev) then filter (λ x, x ≠ k) prev else prev ++ [k].

End PreferencesModal.

(** ** More of [src/components/AlertsModal.tsx]: the alert builder *)

Module AlertBuilder.

(** [toggleStatus] *)
Definition toggleStatus (s : string) (prev : list string) : list string :=
  if bool_decide (s ∈ prev) then filter (λ x, x ≠ s) prev else prev ++ [s].

(** The request helpers the builder calls. *)
Inductive Call : Type :=
| CreateAlert (p : AlertPayload)
| DeleteAlert (alertId : string)
| ReloadAlerts.

Record State : Type := mkState {
  modal : AlertsModal.State;
  sourceKey : string;
  pickedStatuses : list string
}.

(** [{ ...base, statuses }] *)
Definition newAlert (sourceKey : string) (statuses : list string)
  : AlertPayload :=
  mkAlertPayload sourceKey statuses [] true false.

Definition working (m : AlertsModal.State) : AlertsModal.State :=
  AlertsModal.mkState (AlertsModal.alerts m) None true
                      (AlertsModal.muteOpenFor m).

(** [addAlert]; [created] is how the one [createAlert], or the
    [Promise.all] of several, settles, and [reloaded] how the
    [listAlerts()] of [reloadAlerts] does. The result carries the calls
    made, in order. *)
Definition addAlert (created : Js.settled unit)
    (reloaded : Js.settled (list AlertDTO)) (st : State) : State * list Call :=
  let m := working (modal st) in
  let creates :=
    match pickedStatuses st with
    | [] => [CreateAlert (newAlert (sourceKey st) [])]
    | _ :: _ =>
        (λ s, CreateAlert (newAlert (sourceKey st) [s])) <$> pickedStatuses st
    end in
  match Js.rejection created with
  | Some msg =>
      (mkState (AlertsModal.failed "Failed to create alert." msg m)
               (sourceKey st) (pickedStatuses st), creates)
  | None =>
      match reloaded with
      | Js.Rejected msg =>
          (mkState (AlertsModal.failed "Failed to create alert." msg m)
                   (sourceKey st) (pickedStatuses st),
           creates ++ [ReloadAlerts])
      | Js.Resolved l =>
          (mkState (AlertsModal.mkState l None false (AlertsModal.muteOpenFor m))
                   (sourceKey st) [],
           creates ++ [ReloadAlerts])
      end
  end.

(** [remove] *)
Definition remove (id : string) (deleted : Js.settled unit)
    (reloaded : Js.settled (list AlertDTO)) (st : State) : State * list Call :=
  let m := working (modal st) in
  match Js.rejection deleted with
  | Some msg =>
      (mkState (AlertsModal.failed "Failed to delete alert." msg m)
               (sourceKey st) (pickedStatuses st), [DeleteAlert id])
  | None =>
      match reloaded with
      | Js.Rejected msg =>
          (mkState (AlertsModal.failed "Failed to delete alert." msg m)
                   (sourceKey st) (pickedStatuses st),
           [DeleteAlert id; ReloadAlerts])
      | Js.Resolved l =>
          (mkState (AlertsModal.mkState l None false (AlertsModal.muteOpenFor m))
                   (sourceKey st) (pickedStatuses st),
           [DeleteAlert id; ReloadAlerts])
      end
  end.

End AlertBuilder.

(** ** [src/components/WhatsNewCarousel.tsx]: the slide index *)

Module Carousel.

(** The interval's updater, [(i + 1) % safeEntries.length]. *)
Definition advance (len i : Z) : Z := Z.rem (i + 1) len.

(** The effect that brings a stale index back to the first slide. *)
Definition resetIndex (len i : Z) : Z := if len <=? i then 0 else i.

End Carousel.

(** ** More vocabulary *)

(** The number of times the sound cue plays in a trace. *)
Definition sounds (t : list Effect) : nat :=
  length (omap (λ e, match e with PlayNotif => Some () | _ => None end) t).

(** While somebody is signed in exactly one instance of the poll effect
    is live and exactly its interval is armed; otherwise none is. *)
Definition onePoller (st : App.State) : Prop :=
  match App.user st with
  | None =>
      App.timers st = ∅ ∧ App.pollCleanup st = None
      ∧ ∀ j, App.cancelled st !! j ≠ Some false
  | Some _ =>
      ∃ i, App.timers st = {[i]} ∧ App.pollCleanup st = Some i
           ∧ ∀ j, App.cancelled st !! j = Some false ↔ j = i
  end.

(** A stored expiry that has run out at [now]: present, finite, positive
    and not later than [now]. These are the records a read deletes. *)
Definition expired (Number : string → Js.number) (now : Z)
    (raw : option string) : Prop :=
  match raw with
  | Some s =>
      s ≠ "" ∧
      match Number s with
      | Js.Finite q => (0 < q)%Q ∧ (q <= inject_Z now)%Q
      | _ => False
      end
  | None => False
  end.

(** The keys of the mute-until and dismiss-until records of the alerts
    that a poll response names. *)
Definition recordKeyOf (notes : list Notification) (k : string) : Prop :=
  ∃ x a, x ∈ notes ∧ alertId x = Some a
         ∧ (k = App.LS_UNTIL a ∨ k = App.DISMISS_UNTIL a).

(** A storage that differs from another only by the lazy deletion of
    records that had run out, under keys that satisfy [P]: the keys [ks]
    were removed, each once and each logged in the trace, and nothing
    else changed. *)
Definition cleanedBy (Number : string → Js.number) (now : Z)
    (P : string → Prop) (ks : list string) (w w' : World) : Prop :=
  trace w' = trace w ++ (RemoveItem <$> ks)
  ∧ (∀ k, localStorage w' !! k
          = if bool_decide (k ∈ ks) then None else localStorage w !! k)
  ∧ NoDup ks
  ∧ Forall (λ k, P k ∧ expired Number now (localStorage w !! k)) ks.

Definition cleaned (Number : string → Js.number) (now : Z)
    (P : string → Prop) (w w' : World) : Prop :=
  ∃ ks, cleanedBy Number now P ks w w'.

(** ** Sample data for the worked instances *)

Module Sample.

Definition note (a d : string) : Notification :=
  mkNotification (Some (Alert.mk (Some a) "texas" None))
                 (Some (Delivery.mk (Some d) "2025-01-01T00:00:00Z" None))
                 "item".

Definition row (id : string) (m : bool) : AlertDTO :=
  mkAlertDTO id "texas" ["Bill"] [] true m "2025-01-01T00:00:00Z".

Definition emptyWorld : World := mkWorld ∅ [].

(** A signed-in component with queue [q] and its poll effect running. *)
Definition signedIn (q : list Notification) : App.State :=
  App.mkState (Some "u1") q emptyWorld [false] {[0%nat]} (Some 0%nat) [].

Definition modal : AlertsModal.State := AlertsModal.mkState [] None false None.

(** A storage in which alert M is muted and alert D dismissed until
    instant 5000, and in which the mute of alert X ran out at 500. *)
Definition storage : gmap string string :=
  <["pw_alert_mute_until_M" := "5000"]>
    (<["pw_alert_dismiss_until_D" := "5000"]>
       (<["pw_alert_mute_until_X" := "500"]> ∅)).

(** A signed-in component that already shows delivery d1. *)
Definition polling : App.State :=
  App.mkState (Some "u1") [note "A" "d1"] (mkWorld storage []) [false]
              {[0%nat]} (Some 0%nat) [App.RunAwaitPoll 0].

(** A poll response: a delivery already queued, a fresh one, one without
    its alert, one each of the muted M, the dismissed D and a
    server-muted alert, and one of X. *)
Definition response : list Notification :=
  [ note "A" "d1"; note "B" "d2";
    mkNotification None (Some (Delivery.mk (Some "d9") "" None)) "item";
    note "M" "d3"; note "D" "d4";
    mkNotification (Some (Alert.mk (Some "S") "texas" (Some true)))
                   (Some (Delivery.mk (Some "d5") "" None)) "item";
    note "X" "d6" ].

(** The component after a first sign-in, and after a sign-out followed by
    a second sign-in: the poll of the first session is still pending. *)
Definition firstSession : App.State := App.setUser (Some "u1") (App.init ∅).
Definition secondSession : App.State :=
  App.setUser (Some "u2") (App.setUser None firstSession).

(** Two alerts with one pending notification each. *)
Definition twoQueued : App.State := signedIn [note "A" "d1"; note "B" "d2"].

(** One alert with one pending notification. *)
Definition oneQueued : App.State := signedIn [note "A" "d1"].

End Sample.

(** * Properties *)

(** ** Reads of the suppression records *)

Section Reads.

Variable Number : string → Js.number.

Lemma getMuteUntil_readUntil now a w :
  App.getMuteUntil Number now a w = readUntil Number now (App.LS_UNTIL a) w.
Proof.
  unfold App.getMuteUntil, readUntil, absent.
  destruct (getItem (App.LS_UNTIL a) w) as [s |]; simpl; [| done].
  destruct (String.eqb s ""); simpl; [done |].
  by destruct (Number s) as [| | | q].
Qed.

Lemma modal_getMuteUntil_readUntil now a w :
  AlertsModal.getMuteUntil Number now a w
  = readUntil Number now (AlertsModal.LS_UNTIL a) w.
Proof. apply getMuteUntil_readUntil. Qed.

Lemma getTempDismissed_readUntil now a w :
  App.getTempDismissed Number now a w
  = (bool_decide ((readUntil Number now (App.DISMISS_UNTIL a) w).1 ≠ None),
     (readUntil Number now (App.DISMISS_UNTIL a) w).2).
Proof.
  unfold App.getTempDismissed, readUntil, absent.
  destruct (getItem (App.DISMISS_UNTIL a) w) as [s |]; simpl; [| done].
  destruct (String.eqb s ""); simpl; [done |].
  destruct (Number s) as [| | | q]; simpl; try done.
  unfold Js.ofZ. change (inject_Z 0) with 0%Q.
  destruct (Qle_bool q 0); simpl; [done |].
  by destruct (Qle_bool q (inject_Z now)).
Qed.

Lemma Qle_bool_false p q : Qle_bool p q = false ↔ (q < p)%Q.
Proof.
  split.
  - intros E. apply Qnot_le_lt. intros H. apply Qle_bool_iff in H. congruence.
  - intros H. destruct (Qle_bool p q) eqn:E; [| done].
    apply Qle_bool_iff in E. by apply Qlt_not_le in H.
Qed.

(** The shared read does what the specification says of a record read. *)
Lemma readUntil_recordRead now key w :
  recordRead Number now key w
    (bool_decide ((readUntil Number now key w).1 ≠ None))
    (readUntil Number now key w).2.
Proof.
  unfold readUntil.
  destruct (getItem key w) as [s |] eqn:Eraw; simpl; [| by constructor; left].
  destruct (String.eqb s "") eqn:Es; simpl.
  { apply String.eqb_eq in Es. subst s. constructor. by right. }
  apply String.eqb_neq in Es.
  destruct (Number s) as [| | | q] eqn:En; simpl;
    try (eapply read_not_finite; eauto; by rewrite En).
  destruct (Qle_bool q 0) eqn:E0; simpl.
  { eapply read_not_positive; eauto. by apply Qle_bool_iff. }
  apply Qle_bool_false in E0.
  destruct (Qle_bool q (inject_Z now)) eqn:E1; simpl.
  - eapply read_expired; eauto. by apply Qle_bool_iff.
  - eapply read_active; eauto. by apply Qle_bool_false.
Qed.

(** The read reports a running record, and only lazy deletion of a record
    that no longer runs can change the storage. *)
Lemma readUntil_active now key w :
  (readUntil Number now key w).1 ≠ None ↔ active Number now (localStorage w !! key).
Proof.
  unfold readUntil, active, getItem.
  destruct (localStorage w !! key) as [s |]; simpl; [| tauto].
  destruct (String.eqb s "") eqn:Es; simpl.
  { apply String.eqb_eq in Es. tauto. }
  apply String.eqb_neq in Es.
  destruct (Number s) as [| | | q]; simpl; try tauto.
  destruct (Qle_bool q 0) eqn:E0; simpl.
  { apply Qle_bool_iff in E0. split; [done |]. intros (_ & H & _).
    by apply Qlt_not_le in H. }
  apply Qle_bool_false in E0.
  destruct (Qle_bool q (inject_Z now)) eqn:E1; simpl.
  - apply Qle_bool_iff in E1. split; [done |]. intros (_ & _ & H).
    by apply Qlt_not_le in H.
  - apply Qle_bool_false in E1. split; [done |]. discriminate.
Qed.

Lemma readUntil_sameActive now key w :
  sameActive Number now w (readUntil Number now key w).2.
Proof.
  intros k. unfold readUntil, getItem.
  destruct (localStorage w !! key) as [s |] eqn:Eraw; simpl; [| done].
  destruct (String.eqb s "") eqn:Es; simpl; [done |].
  destruct (Number s) as [| | | q] eqn:En; simpl; try done.
  destruct (Qle_bool q 0) eqn:E0; simpl; [done |].
  destruct (Qle_bool q (inject_Z now)) eqn:E1; simpl; [| done].
  destruct (decide (k = key)) as [-> | Hne].
  - rewrite lookup_delete_eq, Eraw. simpl. rewrite En.
    apply Qle_bool_iff in E1. split; [done |]. intros (_ & _ & H).
    by apply Qlt_not_le in H.
  - by rewrite lookup_delete_ne.
Qed.

End Reads.

(** C6. Every read of a mute-until or dismiss-until record does what the
    specification says: an absent, non-finite or non-positive value
    reports "not suppressed" and leaves the storage alone; a positive
    expiry at or before [now] reports "not suppressed" and deletes the
    entry; a later expiry reports "suppressed". This holds of the mute
    check of the toast ([isMuted] without the server flag), of
    [getTempDismissed], and of the modal's [getMuteUntil]; and a deleted
    entry is gone. *)
Theorem C6_record_reads (Number : string → Js.number) (now : Z) (a : string)
    (w : World) :
  recordRead Number now (App.LS_UNTIL a) w
    (App.isMuted Number now a false w).1 (App.isMuted Number now a false w).2
  ∧ recordRead Number now (App.DISMISS_UNTIL a) w
      (App.getTempDismissed Number now a w).1
      (App.getTempDismissed Number now a w).2
  ∧ recordRead Number now (AlertsModal.LS_UNTIL a) w
      (bool_decide ((AlertsModal.getMuteUntil Number now a w).1 ≠ None))
      (AlertsModal.getMuteUntil Number now a w).2
  ∧ (∀ key, getItem key (removeItem key w) = None).
Proof.
  repeat split.
  - unfold App.isMuted. rewrite getMuteUntil_readUntil.
    pose proof (readUntil_recordRead Number now (App.LS_UNTIL a) w) as H.
    by destruct (readUntil Number now (App.LS_UNTIL a) w).
  - rewrite getTempDismissed_readUntil. apply readUntil_recordRead.
  - rewrite modal_getMuteUntil_readUntil. apply readUntil_recordRead.
  - intros key. unfold getItem, removeItem. simpl. apply lookup_delete_eq.
Qed.

(** ** The queue updaters *)

Section Updaters.

Lemma js_filter_val {A} (p : A → Js.result bool) (P : A → Prop)
    `{!∀ x, Decision (P x)} (l : list A) :
  Forall (λ x, p x = Js.Val (bool_decide (P x))) l →
  Js.filter p l = Js.Val (filter P l).
Proof.
  induction 1 as [| x l Hx _ IH]; simpl; [done |].
  rewrite Hx, IH. simpl. rewrite filter_cons.
  by destruct (decide (P x)) as [HP | HP];
    [rewrite bool_decide_eq_true_2 | rewrite bool_decide_eq_false_2].
Qed.

Lemma js_map_val {A B} (f : A → Js.result B) (g : A → B) (l : list A) :
  Forall (λ x, f x = Js.Val (g x)) l → Js.map f l = Js.Val (g <$> l).
Proof.
  induction 1 as [| x l Hx _ IH]; simpl; [done |]. by rewrite Hx, IH.
Qed.

Lemma dropAlert_val a q :
  Forall hasAlert q → App.dropAlert a q = Js.Val (withoutAlert a q).
Proof.
  intros Hq. apply js_filter_val. eapply Forall_impl; [exact Hq |].
  intros x [al Hal]. unfold App.alertOf, alertId. by rewrite Hal.
Qed.

Lemma dropDelivery_val d q :
  Forall hasDelivery q → App.dropDelivery d q = Js.Val (withoutDelivery d q).
Proof.
  intros Hq. apply js_filter_val. eapply Forall_impl; [exact Hq |].
  intros x [dl Hdl]. unfold App.deliveryOf, deliveryId. by rewrite Hdl.
Qed.

Lemma appendNew_val filtered prev :
  Forall hasDelivery prev → Forall hasDelivery filtered →
  App.appendNew filtered prev
  = let adds := filter (λ x, deliveryId x ∉ deliveryIds prev) filtered in
    Js.Val (prev ++ adds, bool_decide (adds ≠ [])).
Proof.
  intros Hprev Hfil. unfold App.appendNew.
  rewrite (js_map_val _ deliveryId).
  2:{ eapply Forall_impl; [exact Hprev |]. intros x [dl Hdl].
      unfold App.deliveryOf, deliveryId. by rewrite Hdl. }
  simpl.
  rewrite (js_filter_val _ (λ x, deliveryId x ∉ deliveryIds prev)).
  2:{ eapply Forall_impl; [exact Hfil |]. intros x [dl Hdl].
      unfold App.deliveryOf, deliveryId. rewrite Hdl. simpl. f_equal.
      apply bool_decide_ext. unfold deliveryIds.
      by rewrite elem_of_list_to_set. }
  simpl. destruct (filter _ filtered) as [| y adds]; simpl.
  - by rewrite app_nil_r.
  - done.
Qed.

Lemma wellFormed_parts x : wellFormed x → hasAlert x ∧ hasDelivery x.
Proof.
  unfold wellFormed, hasAlert, hasDelivery, alertId, deliveryId.
  destruct (alert x), (delivery x); simpl; intros [H1 H2]; try done; eauto.
Qed.

Lemma wellFormed_hasAlert q : Forall wellFormed q → Forall hasAlert q.
Proof.
  intros Hq. eapply Forall_impl; [exact Hq |].
  intros x H. by apply wellFormed_parts.
Qed.

Lemma wellFormed_hasDelivery q : Forall wellFormed q → Forall hasDelivery q.
Proof.
  intros Hq. eapply Forall_impl; [exact Hq |].
  intros x H. by apply wellFormed_parts.
Qed.

Lemma withoutAlert_wellFormed a q :
  Forall wellFormed q → Forall wellFormed (withoutAlert a q).
Proof.
  intros H. apply Forall_forall. intros x Hx.
  apply list_elem_of_filter in Hx as [_ Hx].
  rewrite Forall_forall in H. by apply H.
Qed.

Lemma withoutDelivery_wellFormed d q :
  Forall wellFormed q → Forall wellFormed (withoutDelivery d q).
Proof.
  intros H. apply Forall_forall. intros x Hx.
  apply list_elem_of_filter in Hx as [_ Hx].
  rewrite Forall_forall in H. by apply H.
Qed.

(** Filtering a queue keeps its delivery identities distinct. *)
Lemma filter_deliveryIds_NoDup (P : Notification → Prop)
    `{!∀ x, Decision (P x)} q :
  NoDup (deliveryIds q) → NoDup (deliveryIds (filter P q)).
Proof.
  unfold deliveryIds. induction q as [| x q IH]; simpl; [done |].
  rewrite NoDup_cons. intros [Hx Hq]. rewrite filter_cons.
  destruct (decide (P x)); [| by apply IH].
  rewrite fmap_cons. apply NoDup_cons. split; [| by apply IH].
  intros Hin. apply Hx. apply list_elem_of_fmap in Hin as (y & -> & Hy).
  apply list_elem_of_filter in Hy as [_ Hy].
  apply list_elem_of_fmap. eauto.
Qed.

End Updaters.

(** ** The actions of the toast *)

Section Actions.

Lemma withoutDelivery_id d q :
  Some d ∉ deliveryIds q → withoutDelivery d q = q.
Proof.
  unfold withoutDelivery, deliveryIds.
  induction q as [| y q IH]; [done |].
  rewrite fmap_cons, not_elem_of_cons. intros [Hy Hq].
  rewrite filter_cons, decide_True by congruence. f_equal. by apply IH.
Qed.

Lemma withoutDelivery_split d q :
  NoDup (deliveryIds q) → Some d ∈ deliveryIds q →
  ∃ l1 x l2, q = l1 ++ x :: l2 ∧ deliveryId x = Some d
             ∧ withoutDelivery d q = l1 ++ l2.
Proof.
  unfold withoutDelivery, deliveryIds.
  induction q as [| y q IH]; simpl; intros Hnd Hin.
  { by apply elem_of_nil in Hin. }
  apply NoDup_cons in Hnd as [Hy Hnd].
  rewrite filter_cons. destruct (decide (deliveryId y ≠ Some d)) as [Hne | He].
  - apply elem_of_cons in Hin as [Hin | Hin]; [congruence |].
    destruct (IH Hnd Hin) as (l1 & x & l2 & -> & Hx & Hf).
    exists (y :: l1), x, l2. simpl. by rewrite Hf.
  - assert (deliveryId y = Some d) as Hyd
      by (destruct (decide (deliveryId y = Some d)); tauto).
    exists [], y, q. repeat split; [done |]. simpl.
    apply withoutDelivery_id. by rewrite <- Hyd.
Qed.

(** C7. The close action writes the dismiss-until record of the alert,
    [now] plus five minutes, removes every queued notification of that
    alert and nothing else, and calls no request helper: the only effect
    it adds to the trace is the storage write, so no delivery is
    acknowledged and no task is left pending. *)
Theorem C7_close_dismisses_alert (now : Z) (a : string) (st : App.State) :
  Forall hasAlert (App.toastQueue st) →
  ∃ st', App.onCloseTemp now a st = Js.Val st'
    ∧ App.toastQueue st' = withoutAlert a (App.toastQueue st)
    ∧ (∀ x, x ∈ App.toastQueue st' ↔ x ∈ App.toastQueue st ∧ alertId x ≠ Some a)
    ∧ localStorage (App.world st')
      = <[App.DISMISS_UNTIL a := Js.toString (now + DISMISS_MS)]>
          (localStorage (App.world st))
    ∧ trace (App.world st')
      = trace (App.world st)
        ++ [SetItem (App.DISMISS_UNTIL a) (Js.toString (now + DISMISS_MS))]
    ∧ requests (trace (App.world st')) = requests (trace (App.world st))
    ∧ App.pending st' = App.pending st.
Proof.
  intros Hq. unfold App.onCloseTemp. rewrite (dropAlert_val a _ Hq). simpl.
  eexists. split; [reflexivity |]. simpl. split_and!; try done.
  - intros x. unfold withoutAlert. rewrite list_elem_of_filter. tauto.
  - unfold requests. rewrite omap_app. simpl. by rewrite app_nil_r.
Qed.

(** C4. Acknowledging delivery [d] calls [ackDelivery(d)] and, whether
    that call resolves or rejects, removes from the queue the
    notification whose delivery identity is [d] (exactly one entry when
    the identities in the queue are distinct), leaves every other entry
    in place and writes nothing to the storage. [st] is the state at the
    click and [st1] the state when the call settles. *)
Theorem C4_acknowledge_removes_delivery (d : string) (ok : bool)
    (st st1 : App.State) :
  Forall hasDelivery (App.toastQueue st1) →
  (let st0 := App.onGotIt d st in
   trace (App.world st0) = trace (App.world st) ++ [Call (AckDelivery d)]
   ∧ localStorage (App.world st0) = localStorage (App.world st)
   ∧ App.toastQueue st0 = App.toastQueue st
   ∧ App.pending st0 = App.pending st ++ [App.GotItAwaitAck d])
  ∧ ∃ st2, App.onGotIt_finally d ok st1 = Js.Val st2
    ∧ App.toastQueue st2 = withoutDelivery d (App.toastQueue st1)
    ∧ (∀ x, x ∈ App.toastQueue st2
            ↔ x ∈ App.toastQueue st1 ∧ deliveryId x ≠ Some d)
    ∧ App.world st2 = App.world st1
    ∧ (NoDup (deliveryIds (App.toastQueue st1)) →
       Some d ∈ deliveryIds (App.toastQueue st1) →
       ∃ l1 x l2, App.toastQueue st1 = l1 ++ x :: l2
                  ∧ deliveryId x = Some d
                  ∧ App.toastQueue st2 = l1 ++ l2).
Proof.
  intros Hq. split; [done |].
  unfold App.onGotIt_finally. rewrite (dropDelivery_val d _ Hq). simpl.
  eexists. split; [reflexivity |]. simpl. split_and!; try done.
  - intros x. unfold withoutDelivery. rewrite list_elem_of_filter. tauto.
  - apply withoutDelivery_split.
Qed.

(** C7, on a queue holding one notification of alert A and one of B. *)
Lemma C7_close_dismisses_alert_witness :
  Forall hasAlert (App.toastQueue Sample.twoQueued)
  ∧ ∃ st', App.onCloseTemp 1000 "A" Sample.twoQueued = Js.Val st'
      ∧ App.toastQueue st' = [Sample.note "B" "d2"]
      ∧ getItem "pw_alert_dismiss_until_A" (App.world st') = Some "301000".
Proof.
  assert (Forall hasAlert (App.toastQueue Sample.twoQueued)) as H
    by (repeat constructor; by eexists).
  split; [exact H |].
  destruct (C7_close_dismisses_alert 1000 "A" Sample.twoQueued H)
    as (st' & E & Hq & _ & Hs & _).
  exists st'. split; [exact E |]. split; [by rewrite Hq |].
  unfold getItem. by rewrite Hs.
Defined.

(** C4, with a rejected acknowledgement. *)
Lemma C4_acknowledge_removes_delivery_witness :
  Forall hasDelivery (App.toastQueue Sample.twoQueued)
  ∧ ∃ st2, App.onGotIt_finally "d1" false Sample.twoQueued = Js.Val st2
      ∧ App.toastQueue st2 = [Sample.note "B" "d2"]
      ∧ App.world st2 = App.world Sample.twoQueued.
Proof.
  assert (Forall hasDelivery (App.toastQueue Sample.twoQueued)) as H
    by (repeat constructor; by eexists).
  split; [exact H |].
  destruct (C4_acknowledge_removes_delivery "d1" false Sample.twoQueued
              Sample.twoQueued H) as (_ & st2 & E & Hq & _ & Hw & _).
  exists st2. split; [exact E |]. split; [by rewrite Hq | exact Hw].
Defined.





End Actions.

(** ** The poll handler *)

Section Poll.

Variable Number : string → Js.number.

Lemma sameActive_refl now w : sameActive Number now w w.
Proof. by intros k. Qed.

Lemma sameActive_trans now w1 w2 w3 :
  sameActive Number now w1 w2 → sameActive Number now w2 w3 →
  sameActive Number now w1 w3.
Proof. intros H12 H23 k. etransitivity; [apply H23 | apply H12]. Qed.

Lemma suppressed_sameActive now w w' x :
  sameActive Number now w w' →
  suppressed Number now (localStorage w') x
  ↔ suppressed Number now (localStorage w) x.
Proof.
  intros H. unfold suppressed. destruct (alertId x) as [a |]; [| done].
  pose proof (H (App.LS_UNTIL a)). pose proof (H (App.DISMISS_UNTIL a)). tauto.
Qed.

Lemma truthy_Some o : Js.truthy o → ∃ s, o = Some s.
Proof. destruct o; [eauto | done]. Qed.

(** The callback keeps the well-formed notifications that are not
    suppressed, and only cleans expired records out of the storage. *)
Lemma keep_spec now n w :
  ((App.keep Number now n w).1 = true
   ↔ wellFormed n ∧ ¬ suppressed Number now (localStorage w) n)
  ∧ sameActive Number now w (App.keep Number now n w).2.
Proof.
  unfold App.keep.
  fold (alertId n). fold (deliveryId n).
  destruct (Js.truthy (alertId n)) eqn:Ea; simpl.
  2:{ split; [| apply sameActive_refl].
      unfold wellFormed. rewrite Ea. simpl. split; [done | tauto]. }
  destruct (Js.truthy (deliveryId n)) eqn:Ed; simpl.
  2:{ split; [| apply sameActive_refl].
      unfold wellFormed. rewrite Ed. simpl. split; [done | tauto]. }
  assert (wellFormed n) as Hwf by (unfold wellFormed; by rewrite Ea, Ed).
  destruct (truthy_Some (alertId n)) as [a Ha]; [by rewrite Ea |].
  rewrite Ha. simpl.
  unfold App.isMuted, suppressed, serverMuted. rewrite Ha.
  destruct (alert n ≫= Alert.muted) as [[|] |] eqn:Em; simpl.
  { split; [| apply sameActive_refl]. split; [done |]. intros [_ H]. tauto. }
  all: rewrite getMuteUntil_readUntil.
  all: pose proof (readUntil_active Number now (App.LS_UNTIL a) w) as Hm.
  all: pose proof (readUntil_sameActive Number now (App.LS_UNTIL a) w) as Hs.
  all: destruct (readUntil Number now (App.LS_UNTIL a) w) as [until w1].
  all: simpl in Hm, Hs.
  all: destruct (decide (until ≠ None)) as [Hu | Hu];
    [ rewrite (bool_decide_eq_true_2 _ Hu); simpl;
      split; [| exact Hs]; split; [done | tauto] |].
  all: rewrite (bool_decide_eq_false_2 _ Hu); simpl.
  all: rewrite getTempDismissed_readUntil.
  all: pose proof (readUntil_active Number now (App.DISMISS_UNTIL a) w1) as Hd.
  all: pose proof (readUntil_sameActive Number now (App.DISMISS_UNTIL a) w1) as Hs1.
  all: destruct (readUntil Number now (App.DISMISS_UNTIL a) w1) as [dis w2].
  all: simpl in Hd, Hs1; rewrite (Hs (App.DISMISS_UNTIL a)) in Hd.
  all: destruct (decide (dis ≠ None)) as [Hdis | Hdis];
    [ rewrite (bool_decide_eq_true_2 _ Hdis)
    | rewrite (bool_decide_eq_false_2 _ Hdis) ]; simpl.
  all: (split; [| by eapply sameActive_trans]).
  all: split; [try done | try tauto].
  all: intros _; split; [done |]; intros [? | [? | ?]]; try done; tauto.
Qed.

Lemma filterNotes_spec now notes w :
  (App.filterNotes Number now notes w).1
  = filter (λ n, wellFormed n ∧ ¬ suppressed Number now (localStorage w) n) notes
  ∧ sameActive Number now w (App.filterNotes Number now notes w).2.
Proof.
  revert w. induction notes as [| n notes IH]; intros w; simpl.
  { split; [done | apply sameActive_refl]. }
  destruct (keep_spec now n w) as [Hk Hs].
  destruct (App.keep Number now n w) as [b w1]. simpl in Hk, Hs.
  destruct (IH w1) as [Hf Hs1].
  destruct (App.filterNotes Number now notes w1) as [r w2]. simpl in Hf, Hs1.
  simpl. split; [| by eapply sameActive_trans].
  assert (r = filter (λ n, wellFormed n
                           ∧ ¬ suppressed Number now (localStorage w) n) notes)
    as ->.
  { rewrite Hf. apply list_filter_iff. intros x.
    by rewrite (suppressed_sameActive now w w1 x Hs). }
  rewrite filter_cons.
  destruct (decide (wellFormed n
                    ∧ ¬ suppressed Number now (localStorage w) n)) as [H | H].
  - apply Hk in H. by rewrite H.
  - destruct b; [| done]. by destruct H; apply Hk.
Qed.

Lemma admitted_filter now storage prev (notes : list Notification) :
  filter (admitted Number now storage prev) notes
  = filter (λ x, deliveryId x ∉ deliveryIds prev)
      (filter (λ n, wellFormed n ∧ ¬ suppressed Number now storage n) notes).
Proof.
  rewrite list_filter_filter. apply list_filter_iff.
  intros x. unfold admitted. tauto.
Qed.

Lemma filter_survivors_hasDelivery now storage (notes : list Notification) :
  Forall hasDelivery
    (filter (λ n, wellFormed n ∧ ¬ suppressed Number now storage n) notes).
Proof.
  apply Forall_forall. intros x Hx.
  apply list_elem_of_filter in Hx as [[Hwf _] _]. by apply wellFormed_parts.
Qed.

(** What a settled poll does to a state whose effect instance is live. *)
Lemma run_resume_spec inst notes now st :
  App.cancelled st !! inst ≠ Some true →
  Forall hasDelivery (App.toastQueue st) →
  ∃ st', App.run_resume Number inst (Some notes) now st = Js.Val st'
    ∧ App.toastQueue st'
      = App.toastQueue st
        ++ filter (admitted Number now (localStorage (App.world st))
                     (App.toastQueue st)) notes
    ∧ sameActive Number now (App.world st) (App.world st')
    ∧ App.user st' = App.user st
    ∧ App.cancelled st' = App.cancelled st
    ∧ App.timers st' = App.timers st
    ∧ App.pollCleanup st' = App.pollCleanup st
    ∧ App.pending st' = App.pending st.
Proof.
  intros Hlive Hq. unfold App.run_resume.
  rewrite bool_decide_eq_false_2 by done.
  destruct (filterNotes_spec now notes (App.world st)) as [Hf Hs].
  destruct (App.filterNotes Number now notes (App.world st)) as [filtered w].
  simpl in Hf, Hs. rewrite admitted_filter, <- Hf.
  destruct filtered as [| y filtered'] eqn:Efil.
  { eexists. split; [reflexivity |]. simpl. rewrite filter_nil, app_nil_r.
    by split_and!. }
  rewrite <- Efil in *. clear Efil.
  rewrite appendNew_val; [| done |].
  2:{ rewrite Hf. apply filter_survivors_hasDelivery. }
  simpl. eexists. split; [reflexivity |]. simpl. split_and!; try done.
  by destruct (bool_decide _).
Qed.

(** C2. A settled poll, handled while the effect is live, leaves the
    queue it found as a prefix and appends, in the order received,
    exactly the notifications of the response that carry both
    identities, whose alert is neither muted by the server nor under a
    running mute-until or dismiss-until record, and whose delivery
    identity is not yet in the queue. *)
Theorem C2_poll_filters_and_appends (inst : nat) (notes : list Notification)
    (now : Z) (st : App.State) :
  App.cancelled st !! inst ≠ Some true →
  Forall hasDelivery (App.toastQueue st) →
  ∃ st' adds, App.run_resume Number inst (Some notes) now st = Js.Val st'
    ∧ App.toastQueue st' = App.toastQueue st ++ adds
    ∧ adds = filter (admitted Number now (localStorage (App.world st))
                       (App.toastQueue st)) notes
    ∧ adds `sublist_of` notes
    ∧ (∀ n, n ∈ notes → ¬ wellFormed n → n ∉ adds)
    ∧ (∀ n, n ∈ notes →
            suppressed Number now (localStorage (App.world st)) n → n ∉ adds)
    ∧ (∀ n, n ∈ notes → deliveryId n ∈ deliveryIds (App.toastQueue st) →
            n ∉ adds)
    ∧ (∀ n, n ∈ notes → wellFormed n →
            ¬ suppressed Number now (localStorage (App.world st)) n →
            deliveryId n ∉ deliveryIds (App.toastQueue st) → n ∈ adds).
Proof.
  intros Hlive Hq.
  destruct (run_resume_spec inst notes now st Hlive Hq) as (st' & E & Hst' & _).
  exists st', (filter (admitted Number now (localStorage (App.world st))
                         (App.toastQueue st)) notes).
  split_and!; try done.
  - apply sublist_filter.
  - intros n _ Hn Hin. apply list_elem_of_filter in Hin as [(H & _ & _) _]. tauto.
  - intros n _ Hn Hin. apply list_elem_of_filter in Hin as [(_ & H & _) _]. tauto.
  - intros n _ Hn Hin. apply list_elem_of_filter in Hin as [(_ & _ & H) _]. tauto.
  - intros n Hin H1 H2 H3. apply list_elem_of_filter. by split.
Qed.

End Poll.

(** C2, on a response that exercises every reason to drop. *)
Lemma C2_poll_filters_and_appends_witness :
  (App.cancelled Sample.polling !! 0%nat ≠ Some true
   ∧ Forall hasDelivery (App.toastQueue Sample.polling))
  ∧ ∃ st' adds,
      App.run_resume Js.NumberDecimal 0 (Some Sample.response) 1000
        Sample.polling = Js.Val st'
      ∧ App.toastQueue st' = App.toastQueue Sample.polling ++ adds
      ∧ adds = [Sample.note "B" "d2"; Sample.note "X" "d6"].
Proof.
  assert (App.cancelled Sample.polling !! 0%nat ≠ Some true) as H1 by done.
  assert (Forall hasDelivery (App.toastQueue Sample.polling)) as H2
    by (repeat constructor; by eexists).
  split; [by split |].
  destruct (C2_poll_filters_and_appends Js.NumberDecimal 0 Sample.response
              1000 Sample.polling H1 H2) as (st' & adds & E & Hq & Ha & _).
  exists st', adds. split; [exact E |]. split; [exact Hq |].
  rewrite Ha. by vm_compute.
Defined.

(** ** The event loop *)

Section Loop.

Variable Number : string → Js.number.

(** A turn that leaves the effect's closures alone keeps the invariant
    when the queue stays well formed and no poll task appears. *)
Lemma Invariant_update st st' :
  Invariant st →
  App.user st' = App.user st →
  App.cancelled st' = App.cancelled st →
  App.timers st' = App.timers st →
  App.pollCleanup st' = App.pollCleanup st →
  Forall wellFormed (App.toastQueue st') →
  (App.user st = None → App.toastQueue st' = []) →
  (∀ i, App.RunAwaitPoll i ∈ App.pending st' →
        App.RunAwaitPoll i ∈ App.pending st ∨ App.pollCleanup st = Some i) →
  Invariant st'.
Proof.
  intros [Hwf Hlive Htim Hcl Htask Hout] Eu Ec Et Ep Hq Hq0 Hp.
  constructor; rewrite ?Eu, ?Ec, ?Et, ?Ep; try done.
  intros i Hi. destruct (Hp i Hi) as [Hold | Hnew]; [by apply Htask |].
  by apply Hcl in Hnew as [Hnew _].
Qed.

Lemma filter_wellFormed (P : Notification → Prop) `{!∀ x, Decision (P x)} q :
  Forall wellFormed q → Forall wellFormed (filter P q).
Proof.
  intros Hq. apply Forall_forall. intros x Hx.
  apply list_elem_of_filter in Hx as [_ Hx].
  rewrite Forall_forall in Hq. by apply Hq.
Qed.

(** After the cleanup no instance is live and no timer is armed. *)
Lemma pollEffect_cleanup_spec st :
  (∀ i, App.cancelled st !! i = Some false → App.pollCleanup st = Some i) →
  (∀ i, i ∈ App.timers st → App.pollCleanup st = Some i) →
  (∀ i, App.pollCleanup st = Some i → (i < length (App.cancelled st))%nat) →
  let st1 := App.pollEffect_cleanup st in
  App.pollCleanup st1 = None
  ∧ App.timers st1 = ∅
  ∧ length (App.cancelled st1) = length (App.cancelled st)
  ∧ (∀ i, (i < length (App.cancelled st))%nat →
          App.cancelled st1 !! i = Some true)
  ∧ App.user st1 = App.user st
  ∧ App.toastQueue st1 = App.toastQueue st
  ∧ App.world st1 = App.world st
  ∧ App.pending st1 = App.pending st.
Proof.
  intros Hlive Htim Hcl. unfold App.pollEffect_cleanup.
  destruct (App.pollCleanup st) as [i |] eqn:Ei; simpl.
  - split_and!; try done.
    + apply set_eq. intros j. split; [| set_solver].
      intros Hj. apply elem_of_difference in Hj as [Hj Hne].
      apply Htim in Hj. set_solver.
    + by rewrite length_insert.
    + intros j Hj. destruct (decide (j = i)) as [-> | Hne].
      * by apply list_lookup_insert_eq.
      * rewrite list_lookup_insert_ne by done.
        destruct (lookup_lt_is_Some_2 _ _ Hj) as [[|] Hb]; [done |].
        apply Hlive in Hb. congruence.
  - split_and!; try done.
    + apply set_eq. intros j. split; [| set_solver].
      intros Hj. apply Htim in Hj. done.
    + intros j Hj.
      destruct (lookup_lt_is_Some_2 _ _ Hj) as [[|] Hb]; [done |].
      apply Hlive in Hb. done.
Qed.

Lemma signIn_Invariant u q w cs ps :
  Forall wellFormed q →
  (∀ i, (i < length cs)%nat → cs !! i = Some true) →
  (∀ i, App.RunAwaitPoll i ∈ ps → (i < length cs)%nat) →
  Invariant (App.mkState (Some u) q w (cs ++ [false]) ({[length cs]} ∪ ∅)
               (Some (length cs)) (ps ++ [App.RunAwaitPoll (length cs)])).
Proof.
  intros Hq Hcs Hps. constructor; simpl.
  - done.
  - intros i Hi. destruct (decide (i < length cs)%nat) as [Hlt | Hge].
    + rewrite lookup_app_l, (Hcs i Hlt) in Hi by done. congruence.
    + rewrite lookup_app_r in Hi by lia.
      destruct (i - length cs)%nat as [| n] eqn:En; [| done].
      f_equal. lia.
  - intros i Hi. f_equal. apply elem_of_union in Hi as [Hi | Hi].
    + by apply elem_of_singleton in Hi.
    + by apply elem_of_empty in Hi.
  - intros i [= <-]. rewrite length_app. simpl. split; [lia | eauto].
  - intros i Hi. rewrite length_app. simpl.
    apply elem_of_app in Hi as [Hi | Hi]; [apply Hps in Hi; lia |].
    apply list_elem_of_singleton in Hi as [= ->]. lia.
  - done.
Qed.

Lemma setUser_spec u st :
  Invariant st →
  Invariant (App.setUser u st)
  ∧ (App.toastQueue (App.setUser u st) = App.toastQueue st
     ∨ App.toastQueue (App.setUser u st) = [])
  ∧ (∀ i, (i < length (App.cancelled st))%nat →
          App.cancelled (App.setUser u st) !! i = Some true
          ∨ App.cancelled (App.setUser u st) !! i = App.cancelled st !! i )
  ∧ (u = None →
     App.toastQueue (App.setUser u st) = []
     ∧ App.timers (App.setUser u st) = ∅
     ∧ App.pollCleanup (App.setUser u st) = None
     ∧ length (App.cancelled (App.setUser u st)) = length (App.cancelled st)
     ∧ ∀ i, (i < length (App.cancelled st))%nat →
            App.cancelled (App.setUser u st) !! i = Some true).
Proof.
  intros Hinv. pose proof Hinv as [Hwf Hlive Htim Hcl Htask Hout].
  unfold App.setUser.
  destruct (App.user st) as [v |] eqn:Ev, u as [u |].
  4:{ split_and!; auto. intros _.
      assert (App.pollCleanup st = None) as Hnone.
      { destruct (App.pollCleanup st) as [i |] eqn:Ei; [| done].
        destruct (Hcl i eq_refl) as [_ [? ?]]. congruence. }
      split_and!; auto.
      - apply set_eq. intros j. split; [| set_solver]. intros Hj.
        apply Htim in Hj. congruence.
      - intros j Hj.
        destruct (lookup_lt_is_Some_2 _ _ Hj) as [[|] Hb]; [done |].
        apply Hlive in Hb. congruence. }
  all: match goal with
       | |- context [App.pollEffect_cleanup ?s] =>
           destruct (pollEffect_cleanup_spec s)
             as (Hc1 & Hc2 & Hc3 & Hc4 & Hc5 & Hc6 & Hc7 & Hc8);
             [ done | done | intros i Hi; by apply Hcl in Hi as [? _] |];
           destruct (App.pollEffect_cleanup s)
             as [us qs ws cs ts ps ks] eqn:Es
       end; simpl in *; subst.
  all: cbn [App.userEffect App.pollEffect App.user App.toastQueue App.world
            App.cancelled App.timers App.pollCleanup App.pending App.run
            App.suspend App.setWorld App.setToastQueue].
  - (* another user object replaces the signed-in one *)
    split_and!; [| by left | | done].
    + apply signIn_Invariant; [done | by rewrite Hc3 |].
      intros i Hi. rewrite Hc3. by apply Htask.
    + intros i Hi. left. rewrite lookup_app_l by lia. by apply Hc4.
  - (* sign-out *)
    split_and!; [| by right | |].
    + constructor; simpl.
      * done.
      * intros i Hi.
        assert (cs !! i = Some true) as Ht
          by (apply Hc4; rewrite <- Hc3; by eapply lookup_lt_Some).
        congruence.
      * intros i Hi. set_solver.
      * done.
      * intros i Hi. rewrite Hc3. by apply Htask.
      * done.
    + intros i Hi. left. by apply Hc4.
    + intros _. by split_and!.
  - (* sign-in *)
    split_and!; [| by left | | done].
    + apply signIn_Invariant; [done | by rewrite Hc3 |].
      intros i Hi. rewrite Hc3. by apply Htask.
    + intros i Hi. left. rewrite lookup_app_l by lia. by apply Hc4.
Qed.

Lemma filter_all {A} (l : list A) : filter (λ _, True) l = l.
Proof.
  induction l as [| x l IH]; [done |].
  rewrite filter_cons, decide_True by done. by rewrite IH.
Qed.

Lemma filter_none {A} (l : list A) : filter (λ _, False) l = [].
Proof.
  induction l as [| x l IH]; [done |].
  rewrite filter_cons, decide_False by tauto. done.
Qed.

Lemma queueStep_same e st st' :
  App.toastQueue st' = App.toastQueue st → queueStep Number e st st'.
Proof.
  intros E. apply (queue_filtered Number e st st' (λ _, True) _).
  by rewrite filter_all.
Qed.

Lemma queueStep_empty e st st' :
  App.toastQueue st' = [] → queueStep Number e st st'.
Proof.
  intros E. apply (queue_filtered Number e st st' (λ _, False) _).
  by rewrite filter_none.
Qed.

Lemma admitted_wellFormed now storage prev (notes : list Notification) :
  Forall wellFormed (filter (admitted Number now storage prev) notes).
Proof.
  apply Forall_forall. intros x Hx.
  by apply list_elem_of_filter in Hx as [[Hwf _] _].
Qed.

Ltac quiet_turn :=
  eexists; split; [reflexivity |]; split_and!;
  [ eapply Invariant_update; [eassumption | simpl; try done ..]
  | apply queueStep_same; done
  | intros; by right ].

(** Every turn of the event loop runs to its end and keeps the
    invariant; it filters the queue or appends what a live poll admits;
    and a flag that is set stays set. *)
Lemma step_spec e st :
  Invariant st →
  ∃ st', App.step Number e st = Js.Val st'
    ∧ Invariant st'
    ∧ queueStep Number e st st'
    ∧ (∀ i, (i < length (App.cancelled st))%nat →
            App.cancelled st' !! i = Some true
            ∨ App.cancelled st' !! i = App.cancelled st !! i).
Proof.
  intros Hinv. pose proof Hinv as [Hwf Hlive Htim Hcl Htask Hout].
  destruct e as [u | inst | k r now | k ok | k r | k ok | a now | d
                | a c now | a | key v]; simpl.
  - (* AuthChanged *)
    destruct (setUser_spec u st Hinv) as (Hi & Hq & Hc & _).
    eexists. split; [reflexivity |]. split_and!; [done | | done].
    destruct Hq as [Hq | Hq];
      [by apply queueStep_same | by apply queueStep_empty].
  - (* IntervalFired *)
    case_bool_decide as Hin; [| quiet_turn; by left].
    quiet_turn.
    intros i Hi. apply elem_of_app in Hi as [Hi | Hi]; [by left |].
    apply list_elem_of_singleton in Hi as [= ->]. right. by apply Htim.
  - (* PollSettled *)
    destruct (App.pending st !! k) as [[inst | | | | |] |] eqn:Ek;
      try (quiet_turn; by left).
    assert (App.RunAwaitPoll inst ∈ App.pending st) as Hin
      by (by eapply list_elem_of_lookup_2).
    destruct r as [notes |]; [| unfold App.run_resume].
    2:{ quiet_turn. intros i Hi. left. by eapply list_elem_of_delete_inv. }
    destruct (decide (App.cancelled st !! inst = Some true)) as [Hc | Hc].
    { unfold App.run_resume. simpl. rewrite bool_decide_eq_true_2 by done.
      quiet_turn. intros i Hi. left. by eapply list_elem_of_delete_inv. }
    assert (App.cancelled st !! inst = Some false) as Hfalse.
    { destruct (lookup_lt_is_Some_2 _ _ (Htask _ Hin)) as [[|] Hb]; done. }
    destruct (run_resume_spec Number inst notes now (App.resume k st))
      as (st' & E & Hq & Hs & Eu & Ec & Et & Ep & Epend);
      [done | by apply wellFormed_hasDelivery |].
    simpl in Hq, Eu, Ec, Et, Ep, Epend.
    exists st'. split; [exact E |]. split_and!.
    + eapply Invariant_update; [exact Hinv | done .. | | |].
      * rewrite Hq. apply Forall_app. split; [done |].
        apply admitted_wellFormed.
      * intros Hnone. apply Hlive, Hcl in Hfalse as [_ [? ?]]. congruence.
      * intros i Hi. left. rewrite Epend in Hi.
        by eapply list_elem_of_delete_inv.
    + by eapply queue_appended.
    + intros i Hi. right. by rewrite Ec.
  - (* AckSettled *)
    destruct (App.pending st !! k) as [[| d | | | |] |] eqn:Ek;
      try (quiet_turn; by left).
    unfold App.onGotIt_finally. simpl.
    rewrite dropDelivery_val by (by apply wellFormed_hasDelivery). simpl.
    eexists. split; [reflexivity |]. split_and!.
    + eapply Invariant_update; [exact Hinv | done .. | | |]; simpl.
      * by apply withoutDelivery_wellFormed.
      * intros Hn. by rewrite (Hout Hn).
      * intros i Hi. left. by eapply list_elem_of_delete_inv.
    + by eapply (queue_filtered _ _ _ _ (λ x, deliveryId x ≠ Some d) _).
    + intros; by right.
  - (* ListSettled *)
    destruct (App.pending st !! k) as [[| | a | | a |] |] eqn:Ek;
      try (quiet_turn; by left).
    + unfold App.onMuteAlert_listed.
      destruct r as [all |]; [destruct (App.findAlert a all) |];
        quiet_turn; intros i Hi; left.
      * apply elem_of_app in Hi as [Hi | Hi];
          [by eapply list_elem_of_delete_inv |].
        by apply list_elem_of_singleton in Hi.
      * by eapply list_elem_of_delete_inv.
      * by eapply list_elem_of_delete_inv.
    + unfold App.onUnmuteAlert_listed.
      destruct r as [all |];
        [destruct (App.findAlert a all) as [row |];
         [destruct (negb (dto_muted row)) |] |];
        quiet_turn; intros i Hi; left.
      * by eapply list_elem_of_delete_inv.
      * apply elem_of_app in Hi as [Hi | Hi];
          [by eapply list_elem_of_delete_inv |].
        by apply list_elem_of_singleton in Hi.
      * by eapply list_elem_of_delete_inv.
      * by eapply list_elem_of_delete_inv.
  - (* UpdateSettled *)
    destruct (App.pending st !! k) as [[| | | a | | a] |] eqn:Ek;
      try (quiet_turn; by left).
    2:{ quiet_turn. intros i Hi. left. by eapply list_elem_of_delete_inv. }
    unfold App.onMuteAlert_updated. destruct ok.
    2:{ quiet_turn. intros i Hi. left. by eapply list_elem_of_delete_inv. }
    simpl. rewrite dropAlert_val by (by apply wellFormed_hasAlert). simpl.
    eexists. split; [reflexivity |]. split_and!.
    + eapply Invariant_update; [exact Hinv | done .. | | |]; simpl.
      * by apply withoutAlert_wellFormed.
      * intros Hn. by rewrite (Hout Hn).
      * intros i Hi. left. by eapply list_elem_of_delete_inv.
    + by eapply (queue_filtered _ _ _ _ (λ x, alertId x ≠ Some a) _).
    + intros; by right.
  - (* ClickClose *)
    unfold App.onCloseTemp.
    rewrite dropAlert_val by (by apply wellFormed_hasAlert). simpl.
    eexists. split; [reflexivity |]. split_and!.
    + eapply Invariant_update; [exact Hinv | done .. | | |]; simpl.
      * by apply withoutAlert_wellFormed.
      * intros Hn. by rewrite (Hout Hn).
      * intros i Hi. by left.
    + by eapply (queue_filtered _ _ _ _ (λ x, alertId x ≠ Some a) _).
    + intros; by right.
  - (* ClickGotIt *)
    quiet_turn. intros i Hi. left.
    apply elem_of_app in Hi as [Hi | Hi]; [done |].
    by apply list_elem_of_singleton in Hi.
  - (* ClickMute *)
    unfold App.onMuteAlert. destruct c as [c |].
    2:{ quiet_turn. intros i Hi. left.
        apply elem_of_app in Hi as [Hi | Hi]; [done |].
        by apply list_elem_of_singleton in Hi. }
    rewrite dropAlert_val by (by apply wellFormed_hasAlert). simpl.
    eexists. split; [reflexivity |]. split_and!.
    + eapply Invariant_update; [exact Hinv | done .. | | |]; simpl.
      * by apply withoutAlert_wellFormed.
      * intros Hn. by rewrite (Hout Hn).
      * intros i Hi. by left.
    + by eapply (queue_filtered _ _ _ _ (λ x, alertId x ≠ Some a) _).
    + intros; by right.
  - (* ClickUnmute *)
    quiet_turn. intros i Hi. left.
    apply elem_of_app in Hi as [Hi | Hi]; [done |].
    by apply list_elem_of_singleton in Hi.
  - (* StorageChanged *)
    quiet_turn. by left.
Qed.

Lemma init_Invariant storage : Invariant (App.init storage).
Proof.
  constructor; simpl; try done.
  intros i Hi. by apply elem_of_nil in Hi.
Qed.

Lemma admitted_filter_truthy now storage prev (notes : list Notification) :
  filter (admitted Number now storage prev) notes
  = filter (admitted Number now storage prev)
      (filter (λ n, Js.truthy (deliveryId n)) notes).
Proof.
  rewrite list_filter_filter. apply list_filter_iff.
  intros x. unfold admitted, wellFormed. tauto.
Qed.

(** A turn keeps the delivery identities of the queue distinct, provided
    a poll response does not repeat one. *)
Lemma queueStep_NoDup e st st' :
  distinctPoll e → queueStep Number e st st' →
  NoDup (deliveryIds (App.toastQueue st)) →
  NoDup (deliveryIds (App.toastQueue st')).
Proof.
  intros Hd [P dec Hq | k inst notes now -> _ _ Hq] Hnd; rewrite Hq.
  { by apply filter_deliveryIds_NoDup. }
  simpl in Hd. unfold distinctDeliveries in Hd.
  unfold deliveryIds. rewrite fmap_app. apply NoDup_app. split_and!.
  - done.
  - intros id Hprev Hadd. apply list_elem_of_fmap in Hadd as (x & -> & Hx).
    apply list_elem_of_filter in Hx as [(_ & _ & Hx) _]. by apply Hx.
  - rewrite admitted_filter_truthy. by apply filter_deliveryIds_NoDup.
Qed.

(** A turn never appends a delivery identity that the queue holds. *)
Lemma queueStep_adds e st st' :
  queueStep Number e st st' →
  ∃ kept adds, App.toastQueue st' = kept ++ adds
    ∧ kept `sublist_of` App.toastQueue st
    ∧ ∀ x, x ∈ adds → deliveryId x ∉ deliveryIds (App.toastQueue st).
Proof.
  intros [P dec Hq | k inst notes now -> _ _ Hq].
  - exists (filter P (App.toastQueue st)), []. rewrite app_nil_r.
    split_and!; [done | apply sublist_filter |].
    intros x Hx. by apply elem_of_nil in Hx.
  - eexists _, _. split_and!; [exact Hq | done |].
    intros x Hx. by apply list_elem_of_filter in Hx as [(_ & _ & Hx) _].
Qed.

Lemma step_flag_stays e st st' i :
  Invariant st → App.step Number e st = Js.Val st' →
  App.cancelled st !! i = Some true → App.cancelled st' !! i = Some true.
Proof.
  intros Hinv E Hi.
  destruct (step_spec e st Hinv) as (st'' & E' & _ & _ & Hflags).
  rewrite E in E'. injection E' as <-.
  destruct (Hflags i) as [H | H]; [by eapply lookup_lt_Some | done |].
  by rewrite H.
Qed.

(** Every run of the event loop from a state that satisfies the
    invariant reaches a state that satisfies it. *)
Lemma exec_spec es st :
  Invariant st →
  ∃ st', App.exec Number es st = Js.Val st'
    ∧ Invariant st'
    ∧ (∀ i, App.cancelled st !! i = Some true →
            App.cancelled st' !! i = Some true)
    ∧ (Forall distinctPoll es →
       NoDup (deliveryIds (App.toastQueue st)) →
       NoDup (deliveryIds (App.toastQueue st'))).
Proof.
  revert st. induction es as [| e es IH]; intros st Hinv; simpl.
  { exists st. by split_and!. }
  destruct (step_spec e st Hinv) as (st1 & E & Hinv1 & Hq & _).
  rewrite E. simpl.
  destruct (IH st1 Hinv1) as (st' & E' & Hinv' & Hflags & Hnd).
  exists st'. split_and!; [done | done | |].
  - intros i Hi. apply Hflags. by apply (step_flag_stays e st st1 i).
  - intros Hes Hst. apply Forall_cons in Hes as [He Hes].
    apply Hnd; [done |]. by eapply queueStep_NoDup.
Qed.

End Loop.

(** ** Delivery identities in the queue *)

(** C1, as the claim states it, fails: a single poll response that
    carries the same delivery twice puts it into the queue twice. *)
Lemma C1_counterexample :
  ∃ st, App.exec Js.NumberDecimal
          [App.AuthChanged (Some "u1");
           App.PollSettled 0 (Some [Sample.note "A" "d1"; Sample.note "A" "d1"])
             1000]
          (App.init ∅) = Js.Val st
    ∧ App.toastQueue st = [Sample.note "A" "d1"; Sample.note "A" "d1"]
    ∧ ¬ NoDup (deliveryIds (App.toastQueue st)).
Proof.
  eexists. split; [reflexivity |]. split; [reflexivity |].
  simpl. intros H. apply NoDup_cons in H as [H _]. apply H. by left.
Qed.

(** C1, amended. Every run of the event loop from the mounted component
    ends in a state, and provided no poll response of the run carries a
    delivery identity twice, the queue of that state holds each delivery
    identity at most once. And after every run, with repeats in its
    responses or not, whatever the next event is, its turn appends no
    notification whose delivery identity the queue already holds: the
    new queue is a sublist of the old one followed by notifications with
    identities the old queue did not have, so that a queue without
    repeats stays without them unless the response itself repeats one. *)
Theorem C1_delivery_ids_unique (Number : string → Js.number)
    (storage : gmap string string) (es : list App.Event) :
  ∃ st, App.exec Number es (App.init storage) = Js.Val st
    ∧ (Forall distinctPoll es → NoDup (deliveryIds (App.toastQueue st)))
    ∧ ∀ e, ∃ st' kept adds,
        App.step Number e st = Js.Val st'
        ∧ App.toastQueue st' = kept ++ adds
        ∧ kept `sublist_of` App.toastQueue st
        ∧ (∀ x, x ∈ adds → deliveryId x ∉ deliveryIds (App.toastQueue st))
        ∧ (distinctPoll e → NoDup (deliveryIds (App.toastQueue st)) →
           NoDup (deliveryIds (App.toastQueue st'))).
Proof.
  destruct (exec_spec Number es (App.init storage) (init_Invariant storage))
    as (st & E & Hinv & _ & Hnd).
  exists st. split_and!; [done | |].
  { intros Hes. apply Hnd; [done |]. simpl. constructor. }
  intros e. destruct (step_spec Number e st Hinv) as (st' & E' & _ & Hq & _).
  destruct (queueStep_adds Number e st st' Hq) as (kept & adds & Hk & Hsub & Ha).
  exists st', kept, adds. split_and!; try done.
  intros He Hst. by eapply queueStep_NoDup.
Qed.

(** C1, on two polls that overlap in delivery d1; and, after a response
    that carried d1 twice, on a further poll that brings d1 again. *)
Lemma C1_delivery_ids_unique_witness :
  Forall distinctPoll
    [App.AuthChanged (Some "u1");
     App.PollSettled 0 (Some [Sample.note "A" "d1"]) 1000;
     App.IntervalFired 0;
     App.PollSettled 0 (Some [Sample.note "A" "d1"; Sample.note "B" "d2"]) 2000]
  ∧ (∃ st, App.exec Js.NumberDecimal
             [App.AuthChanged (Some "u1");
              App.PollSettled 0 (Some [Sample.note "A" "d1"]) 1000;
              App.IntervalFired 0;
              App.PollSettled 0
                (Some [Sample.note "A" "d1"; Sample.note "B" "d2"]) 2000]
             (App.init ∅) = Js.Val st
       ∧ NoDup (deliveryIds (App.toastQueue st))
       ∧ App.toastQueue st = [Sample.note "A" "d1"; Sample.note "B" "d2"])
  ∧ ∃ st st',
      App.exec Js.NumberDecimal
        [App.AuthChanged (Some "u1");
         App.PollSettled 0 (Some [Sample.note "A" "d1"; Sample.note "A" "d1"])
           1000;
         App.IntervalFired 0] (App.init ∅) = Js.Val st
      ∧ App.step Js.NumberDecimal
          (App.PollSettled 0 (Some [Sample.note "A" "d1"]) 2000) st
        = Js.Val st'
      ∧ App.toastQueue st' = App.toastQueue st.
Proof.
  assert (Forall distinctPoll
    [App.AuthChanged (Some "u1");
     App.PollSettled 0 (Some [Sample.note "A" "d1"]) 1000;
     App.IntervalFired 0;
     App.PollSettled 0 (Some [Sample.note "A" "d1"; Sample.note "B" "d2"]) 2000])
    as H.
  { rewrite !Forall_cons. split_and!; simpl; try done;
      unfold distinctDeliveries; compute_done. }
  split; [exact H |]. split.
  - destruct (C1_delivery_ids_unique Js.NumberDecimal ∅
                [App.AuthChanged (Some "u1");
                 App.PollSettled 0 (Some [Sample.note "A" "d1"]) 1000;
                 App.IntervalFired 0;
                 App.PollSettled 0
                   (Some [Sample.note "A" "d1"; Sample.note "B" "d2"]) 2000])
      as (st & E & Hnd & _).
    exists st. split_and!; [exact E | exact (Hnd H) |].
    vm_compute in E. by injection E as <-.
  - destruct (C1_delivery_ids_unique Js.NumberDecimal ∅
                [App.AuthChanged (Some "u1");
                 App.PollSettled 0
                   (Some [Sample.note "A" "d1"; Sample.note "A" "d1"]) 1000;
                 App.IntervalFired 0])
      as (st & E & _ & Hstep).
    destruct (Hstep (App.PollSettled 0 (Some [Sample.note "A" "d1"]) 2000))
      as (st' & kept & adds & E' & _).
    exists st, st'. split_and!; [exact E | exact E' |].
    vm_compute in E. injection E as <-.
    vm_compute in E'. by injection E' as <-.
Defined.

(** ** Sign-out and stale polls *)

(** C5. Take any run of the event loop up to a sign-out, and any run
    after it. At the sign-out the queue is emptied, the poll interval is
    cleared, the effect loses its cleanup and every instance of the poll
    effect, hence every poll task started so far, has its [cancelled]
    flag set. From then on, whatever happens (a later sign-in included),
    a poll task of one of those instances that settles finds its flag set
    and returns: the turn only drops the task, and the queue, the storage
    and the trace stay as they were. While nobody is signed in, the queue
    is empty and no interval is armed, so a timer event starts no poll. *)
Theorem C5_stale_poll_is_dropped (Number : string → Js.number)
    (storage : gmap string string) (es0 es1 : list App.Event)
    (st0 st2 : App.State) :
  App.exec Number es0 (App.init storage) = Js.Val st0 →
  App.exec Number es1 (App.setUser None st0) = Js.Val st2 →
  (App.toastQueue (App.setUser None st0) = []
   ∧ App.timers (App.setUser None st0) = ∅
   ∧ App.pollCleanup (App.setUser None st0) = None
   ∧ (∀ i, App.RunAwaitPoll i ∈ App.pending (App.setUser None st0) →
           (i < length (App.cancelled st0))%nat)
   ∧ (∀ i, (i < length (App.cancelled st0))%nat →
           App.cancelled (App.setUser None st0) !! i = Some true))
  ∧ (∀ k i r now,
       App.pending st2 !! k = Some (App.RunAwaitPoll i) →
       (i < length (App.cancelled st0))%nat →
       App.cancelled st2 !! i = Some true
       ∧ App.step Number (App.PollSettled k r now) st2
         = Js.Val (App.resume k st2)
       ∧ App.toastQueue (App.resume k st2) = App.toastQueue st2
       ∧ App.world (App.resume k st2) = App.world st2)
  ∧ (App.user st2 = None →
     App.toastQueue st2 = [] ∧ App.timers st2 = ∅
     ∧ ∀ i, App.step Number (App.IntervalFired i) st2 = Js.Val st2).
Proof.
  intros E0 E1. set (st1 := App.setUser None st0) in *.
  destruct (exec_spec Number es0 _ (init_Invariant storage))
    as (st0' & E0' & Hinv0 & _).
  rewrite E0 in E0'. injection E0' as <-.
  destruct (setUser_spec None st0 Hinv0) as (Hinv1 & _ & _ & Hout).
  destruct (Hout eq_refl) as (Hq1 & Ht1 & Hp1 & Hlen & Hflags1).
  destruct (exec_spec Number es1 st1 Hinv1) as (st2' & E1' & Hinv2 & Hstay & _).
  rewrite E1 in E1'. injection E1' as <-.
  split_and!; try done.
  - intros i Hi. rewrite <- Hlen. by apply (inv_tasks st1).
  - intros k i r now Hk Hi.
    assert (App.cancelled st2 !! i = Some true) as Hc
      by (by apply Hstay, Hflags1).
    split_and!; try done.
    simpl. rewrite Hk. unfold App.run_resume.
    destruct r as [notes |]; [| done].
    simpl. by rewrite bool_decide_eq_true_2.
  - intros Hu.
    assert (App.timers st2 = ∅) as Ht.
    { apply set_eq. intros j. split; [| set_solver]. intros Hj.
      apply (inv_timers st2 Hinv2), (inv_cleanup st2 Hinv2) in Hj
        as [_ [? ?]]. congruence. }
    split_and!; [by apply (inv_signedOut st2) | done |].
    intros i. simpl. rewrite Ht. by rewrite bool_decide_eq_false_2.
Qed.

(** C5, on a poll of a first session that settles during a second one. *)
Lemma C5_stale_poll_is_dropped_witness :
  (App.exec Js.NumberDecimal [App.AuthChanged (Some "u1")] (App.init ∅)
   = Js.Val Sample.firstSession
   ∧ App.exec Js.NumberDecimal [App.AuthChanged (Some "u2")]
       (App.setUser None Sample.firstSession)
     = Js.Val Sample.secondSession)
  ∧ App.pending Sample.secondSession !! 0%nat = Some (App.RunAwaitPoll 0)
  ∧ App.step Js.NumberDecimal
      (App.PollSettled 0 (Some [Sample.note "A" "d1"]) 1000)
      Sample.secondSession
    = Js.Val (App.resume 0 Sample.secondSession)
  ∧ App.toastQueue (App.resume 0 Sample.secondSession) = [].
Proof.
  assert (App.exec Js.NumberDecimal [App.AuthChanged (Some "u1")] (App.init ∅)
          = Js.Val Sample.firstSession) as E0 by reflexivity.
  assert (App.exec Js.NumberDecimal [App.AuthChanged (Some "u2")]
            (App.setUser None Sample.firstSession)
          = Js.Val Sample.secondSession) as E1 by reflexivity.
  assert (App.pending Sample.secondSession !! 0%nat
          = Some (App.RunAwaitPoll 0)) as Hk by reflexivity.
  split; [by split |]. split; [exact Hk |].
  destruct (C5_stale_poll_is_dropped Js.NumberDecimal ∅ _ _ _ _ E0 E1)
    as (_ & Hstale & _).
  destruct (Hstale 0%nat 0%nat (Some [Sample.note "A" "d1"]) 1000 Hk)
    as (_ & Hstep & Hq & _); [simpl; lia |].
  split; [exact Hstep |]. by rewrite Hq.
Defined.

(** ** Timed mutes and the stored records *)

Section Records.

Lemma toString_parses z :
  NilZero.int_of_string (Js.toString z) = Some (Z.to_int z).
Proof.
  unfold Js.toString. apply NilZero.isi.
  - destruct z as [| p | p]; simpl; try done.
    intros [= H]. by apply DecimalPos.Unsigned.to_uint_nonnil in H.
  - destruct z as [| p | p]; simpl; try done.
    intros [= H]. by apply DecimalPos.Unsigned.to_uint_nonnil in H.
Qed.

Lemma toString_nonempty z : Js.toString z ≠ "".
Proof.
  intros H. pose proof (toString_parses z) as Hp. by rewrite H in Hp.
Qed.

(** The decimal string of an integer reads back as that integer. *)
Lemma NumberDecimal_toString z : Js.NumberDecimal (Js.toString z) = Js.ofZ z.
Proof.
  unfold Js.NumberDecimal.
  destruct (String.eqb_spec (Js.toString z) "") as [H | _].
  { by apply toString_nonempty in H. }
  by rewrite toString_parses, DecimalZ.of_to.
Qed.

Lemma choiceToUntil_duration now c :
  App.choiceToUntil now c = now + durationMs c.
Proof. by destruct c. Qed.

Lemma modal_choiceToUntil_duration now c :
  AlertsModal.choiceToUntil now c = now + durationMs c.
Proof. by destruct c. Qed.

Lemma durationMs_pos c : 0 < durationMs c.
Proof. by destruct c. Qed.

(** A record written at [now] for a later instant [until] is read as
    running at [now]. *)
Lemma readUntil_written now key until w :
  0 <= now → now < until →
  readUntil Js.NumberDecimal now key (setItem key (Js.toString until) w)
  = (Some (Js.ofZ until), setItem key (Js.toString until) w).
Proof.
  intros Hnow Hlt. unfold readUntil, getItem. simpl.
  rewrite lookup_insert_eq.
  destruct (String.eqb_spec (Js.toString until) "") as [H | _].
  { by apply toString_nonempty in H. }
  rewrite NumberDecimal_toString. unfold Js.ofZ.
  assert (Qle_bool (inject_Z until) 0 = false) as ->.
  { apply Qle_bool_false. change 0%Q with (inject_Z 0).
    rewrite <- Zlt_Qlt. lia. }
  assert (Qle_bool (inject_Z until) (inject_Z now) = false) as ->.
  { apply Qle_bool_false. by rewrite <- Zlt_Qlt. }
  done.
Qed.

End Records.

(** C8. Both copies of [choiceToUntil] return [now] plus the duration of
    the choice, and there are five choices, of 3 600 000 ms (one hour),
    8 hours, 24 hours, 7 x 24 hours and 30 x 24 hours. A timed mute
    writes, under the alert's mute-until key, the decimal string of that
    instant, in the toast's handler and in the modal's alike; read back
    at [now], the record gives that very instant. *)
Theorem C8_timed_mute_expiry (now : Z) (c : TimedChoice) (a : string)
    (st : App.State) (w : World) :
  App.choiceToUntil now c = now + durationMs c
  ∧ AlertsModal.choiceToUntil now c = now + durationMs c
  ∧ c ∈ [C1h; C8h; C1d; C1w; C1mo]
  ∧ durationMs <$> [C1h; C8h; C1d; C1w; C1mo]
    = [3600000; 28800000; 86400000; 604800000; 2592000000]
  ∧ getItem (App.LS_UNTIL a) (App.setMuteUntil a (App.choiceToUntil now c) w)
    = Some (Js.toString (now + durationMs c))
  ∧ getItem (AlertsModal.LS_UNTIL a)
      (AlertsModal.setMuteUntil a (AlertsModal.choiceToUntil now c) w)
    = Some (Js.toString (now + durationMs c))
  ∧ (Forall hasAlert (App.toastQueue st) →
     ∃ st', App.onMuteAlert now a (Timed c) st = Js.Val st'
       ∧ getItem (App.LS_UNTIL a) (App.world st')
         = Some (Js.toString (now + durationMs c)))
  ∧ (0 <= now →
     (App.getMuteUntil Js.NumberDecimal now a
        (App.setMuteUntil a (App.choiceToUntil now c) w)).1
     = Some (Js.ofZ (now + durationMs c))
     ∧ (AlertsModal.getMuteUntil Js.NumberDecimal now a
          (AlertsModal.setMuteUntil a (AlertsModal.choiceToUntil now c) w)).1
       = Some (Js.ofZ (now + durationMs c))).
Proof.
  pose proof (durationMs_pos c) as Hpos.
  split_and!.
  - apply choiceToUntil_duration.
  - apply modal_choiceToUntil_duration.
  - destruct c; set_solver.
  - done.
  - rewrite choiceToUntil_duration. unfold getItem. simpl.
    apply lookup_insert_eq.
  - rewrite modal_choiceToUntil_duration. unfold getItem. simpl.
    apply lookup_insert_eq.
  - intros Hq. unfold App.onMuteAlert. rewrite (dropAlert_val a _ Hq). simpl.
    eexists. split; [reflexivity |]. simpl.
    rewrite choiceToUntil_duration. unfold getItem. simpl.
    apply lookup_insert_eq.
  - intros Hnow. split.
    + rewrite getMuteUntil_readUntil, choiceToUntil_duration.
      unfold App.setMuteUntil.
      rewrite readUntil_written; [done | done | lia].
    + rewrite modal_getMuteUntil_readUntil, modal_choiceToUntil_duration.
      unfold AlertsModal.setMuteUntil.
      rewrite readUntil_written; [done | done | lia].
Qed.

(** C8, for an eight-hour mute chosen at instant 1 700 000 000 000. *)
Lemma C8_timed_mute_expiry_witness :
  (0 <= 1700000000000 ∧ Forall hasAlert (App.toastQueue Sample.twoQueued))
  ∧ App.choiceToUntil 1700000000000 C8h = 1700028800000
  ∧ (∃ st', App.onMuteAlert 1700000000000 "A" (Timed C8h) Sample.twoQueued
            = Js.Val st'
       ∧ getItem "pw_alert_mute_until_A" (App.world st') = Some "1700028800000")
  ∧ (App.getMuteUntil Js.NumberDecimal 1700000000000 "A"
       (App.setMuteUntil "A" (App.choiceToUntil 1700000000000 C8h)
          Sample.emptyWorld)).1
    = Some (Js.ofZ 1700028800000).
Proof.
  assert (0 <= 1700000000000) as H0 by lia.
  assert (Forall hasAlert (App.toastQueue Sample.twoQueued)) as H
    by (repeat constructor; by eexists).
  split; [by split |].
  destruct (C8_timed_mute_expiry 1700000000000 C8h "A" Sample.twoQueued
              Sample.emptyWorld) as (E & _ & _ & _ & _ & _ & Hh & Hr).
  destruct (Hh H) as (st' & E' & Hw). destruct (Hr H0) as [Hread _].
  split; [exact E |]. split; [| exact Hread].
  exists st'. split; [exact E' | exact Hw].
Defined.

(** C9, as the claim states it, fails: after a timed mute and a close on
    alert a1 nothing is stored under [mute_until_a1] or under
    [dismiss_until_a1]. *)
Lemma C9_counterexample :
  getItem "mute_until_a1"
    (App.setMuteUntil "a1" 1700003600000 Sample.emptyWorld) = None
  ∧ getItem "dismiss_until_a1"
      (App.setTempDismissed 1700000000000 "a1" 5 Sample.emptyWorld) = None
  ∧ getItem "pw_alert_mute_until_a1"
      (App.setMuteUntil "a1" 1700003600000 Sample.emptyWorld)
    = Some "1700003600000"
  ∧ getItem "pw_alert_dismiss_until_a1"
      (App.setTempDismissed 1700000000000 "a1" 5 Sample.emptyWorld)
    = Some "1700000300000".
Proof. by vm_compute. Qed.

(** C9, amended. The mute-until record of an alert is stored under the
    key [pw_alert_mute_until_<alertId>], by the toast and by the modal,
    and the dismiss-until record under [pw_alert_dismiss_until_<alertId>];
    a write changes that one entry, and the value is the decimal string of
    the expiry in epoch milliseconds: it is not empty and reads back as
    the expiry. *)
Theorem C9_record_keys (a : string) (until now minutes : Z) (w : World) :
  App.LS_UNTIL a = "pw_alert_mute_until_" +:+ a
  ∧ AlertsModal.LS_UNTIL a = "pw_alert_mute_until_" +:+ a
  ∧ App.DISMISS_UNTIL a = "pw_alert_dismiss_until_" +:+ a
  ∧ localStorage (App.setMuteUntil a until w)
    = <["pw_alert_mute_until_" +:+ a := Js.toString until]> (localStorage w)
  ∧ localStorage (AlertsModal.setMuteUntil a until w)
    = <["pw_alert_mute_until_" +:+ a := Js.toString until]> (localStorage w)
  ∧ localStorage (App.setTempDismissed now a minutes w)
    = <["pw_alert_dismiss_until_" +:+ a
        := Js.toString (now + minutes * 60 * 1000)]> (localStorage w)
  ∧ Js.toString until ≠ ""
  ∧ Js.NumberDecimal (Js.toString until) = Js.ofZ until.
Proof.
  split_and!; try done.
  - apply toString_nonempty.
  - apply NumberDecimal_toString.
Qed.

(** ** The modal's timed mute *)

(** C10. In the modal, a timed mute of an alert whose row says [muted]
    writes the mute-until record and then calls [updateAlert] with the
    row's fields and [muted] false, and nothing comes between the two;
    only the reload of the list may follow, when the update resolves. For
    a row that does not say [muted], the write is followed by the reload
    alone: no [updateAlert] is called. *)
Theorem C10_timed_mute_clears_server_flag (now : Z) (a : AlertDTO)
    (c : TimedChoice) (updated : Js.settled unit)
    (reloaded : Js.settled (list AlertDTO)) (st : AlertsModal.State)
    (w : World) :
  (dto_muted a = true →
   trace (AlertsModal.applyMute now a (Timed c) updated reloaded st w).2
   = trace w
     ++ [SetItem (AlertsModal.LS_UNTIL (dto_id a))
           (Js.toString (now + durationMs c));
         Call (UpdateAlert (dto_id a) (withMuted a false))]
     ++ match updated with
        | Js.Resolved _ => [Call ListAlerts]
        | Js.Rejected _ => []
        end
   ∧ p_muted (withMuted a false) = false)
  ∧ (dto_muted a = false →
     trace (AlertsModal.applyMute now a (Timed c) updated reloaded st w).2
     = trace w
       ++ [SetItem (AlertsModal.LS_UNTIL (dto_id a))
             (Js.toString (now + durationMs c));
           Call ListAlerts]
     ∧ ∀ id p,
         Call (UpdateAlert id p)
         ∈ trace (AlertsModal.applyMute now a (Timed c) updated reloaded st w).2
         → Call (UpdateAlert id p) ∈ trace w)
  ∧ localStorage (AlertsModal.applyMute now a (Timed c) updated reloaded st w).2
    = <[AlertsModal.LS_UNTIL (dto_id a) := Js.toString (now + durationMs c)]>
        (localStorage w).
Proof.
  unfold AlertsModal.applyMute. rewrite modal_choiceToUntil_duration.
  split_and!.
  - intros ->. split; [| done].
    destruct updated as [[] | m]; simpl.
    + destruct reloaded; simpl; by rewrite <- !app_assoc.
    + by rewrite <- !app_assoc.
  - intros ->. simpl.
    assert (∀ X Y (r : Js.settled (list AlertDTO)) (f : list AlertDTO → X)
              (g : option string → X) (v : Y),
              (match r with
               | Js.Resolved l => (f l, v)
               | Js.Rejected m => (g m, v)
               end).2 = v) as Hsnd by (by intros ? ? []).
    rewrite Hsnd. simpl. rewrite <- !app_assoc. simpl. split; [done |].
    intros id p. rewrite !elem_of_app, !elem_of_cons, elem_of_nil.
    intros [H | [H | [H | H]]]; done.
  - destruct (dto_muted a); simpl.
    + by destruct updated as [[] | m]; simpl; [destruct reloaded |].
    + by destruct reloaded.
Qed.

(** C10, on a row that the server holds as muted. *)
Lemma C10_timed_mute_clears_server_flag_witness :
  dto_muted (Sample.row "A" true) = true
  ∧ requests
      (trace (AlertsModal.applyMute 1000 (Sample.row "A" true) (Timed C1h)
                (Js.Resolved ()) (Js.Resolved [Sample.row "A" false])
                Sample.modal Sample.emptyWorld).2)
    = [UpdateAlert "A" (withMuted (Sample.row "A" true) false); ListAlerts].
Proof.
  assert (dto_muted (Sample.row "A" true) = true) as H by reflexivity.
  split; [exact H |].
  destruct (C10_timed_mute_clears_server_flag 1000 (Sample.row "A" true) C1h
              (Js.Resolved ()) (Js.Resolved [Sample.row "A" false])
              Sample.modal Sample.emptyWorld) as ((Ht & _) & _); [exact H |].
  rewrite Ht. reflexivity.
Defined.

(** * More properties *)

(** ** What a poll does to the storage and to the trace *)

Section PollEffects.

Variable Number : string → Js.number.

Lemma expired_not_active now raw :
  expired Number now raw → ¬ active Number now raw.
Proof.
  unfold expired, active. destruct raw as [s |]; [| done].
  destruct (Number s) as [| | | q]; try tauto.
  intros (_ & _ & Hle) (_ & _ & Hlt). by apply (Qlt_not_le _ _ Hlt).
Qed.


Lemma cleaned_refl now P w : cleaned Number now P w w.
Proof.
  exists []. split_and!; [by rewrite app_nil_r | | constructor | done].
  intros k. case_bool_decide as H; [by apply elem_of_nil in H | done].
Qed.

Lemma cleaned_mono now (P Q : string → Prop) w w' :
  (∀ k, P k → Q k) → cleaned Number now P w w' → cleaned Number now Q w w'.
Proof.
  intros HPQ (ks & Ht & Hs & Hnd & Hi). exists ks. split_and!; try done.
  eapply Forall_impl; [exact Hi |]. intros k [? ?]. split; [by apply HPQ | done].
Qed.

Lemma cleaned_trans now P w1 w2 w3 :
  cleaned Number now P w1 w2 → cleaned Number now P w2 w3 →
  cleaned Number now P w1 w3.
Proof.
  intros (ks1 & Ht1 & Hs1 & Hn1 & Hi1) (ks2 & Ht2 & Hs2 & Hn2 & Hi2).
  assert (∀ k, k ∈ ks2 →
            (k ∉ ks1) ∧ localStorage w2 !! k = localStorage w1 !! k) as Hfresh.
  { intros k Hk. rewrite Forall_forall in Hi2. destruct (Hi2 k Hk) as [_ He].
    rewrite Hs1 in He |- *. case_bool_decide as Hin; [by simpl in He | done]. }
  exists (ks1 ++ ks2). split_and!.
  - by rewrite Ht2, Ht1, fmap_app, app_assoc.
  - intros k. rewrite Hs2, Hs1.
    destruct (decide (k ∈ ks1)) as [H1 | H1], (decide (k ∈ ks2)) as [H2 | H2];
      repeat case_bool_decide; try done;
      exfalso; rewrite elem_of_app in *; tauto.
  - apply NoDup_app. split_and!; [done | | done].
    intros k H1 H2. by destruct (Hfresh k H2).
  - apply Forall_app. split; [done |].
    rewrite Forall_forall in Hi2 |- *. intros k Hk.
    destruct (Hi2 k Hk) as [HP He]. split; [done |].
    by destruct (Hfresh k Hk) as [_ <-].
Qed.

(** Cleaning only removes: an entry is gone or as it was. *)
Lemma cleaned_lookup now P w w' k :
  cleaned Number now P w w' →
  localStorage w' !! k = None ∨ localStorage w' !! k = localStorage w !! k.
Proof.
  intros (ks & _ & Hs & _). rewrite Hs. case_bool_decide; [by left | by right].
Qed.

Lemma cleaned_expired now P w w' k :
  cleaned Number now P w w' →
  expired Number now (localStorage w' !! k) →
  expired Number now (localStorage w !! k).
Proof.
  intros Hc He. destruct (cleaned_lookup now P w w' k Hc) as [H | H];
    rewrite H in He; [by simpl in He | done].
Qed.

(** The read deletes the record under its key when it has run out, and
    nothing else. *)
Lemma readUntil_cleaned now key w :
  cleaned Number now (λ k, k = key) w (readUntil Number now key w).2
  ∧ ¬ expired Number now (localStorage (readUntil Number now key w).2 !! key).
Proof.
  unfold readUntil, getItem.
  destruct (localStorage w !! key) as [s |] eqn:Eraw; simpl.
  2:{ split; [apply cleaned_refl | rewrite Eraw; simpl; tauto]. }
  destruct (String.eqb_spec s "") as [-> | Hs]; simpl.
  { split; [apply cleaned_refl |]. rewrite Eraw. simpl. tauto. }
  destruct (Number s) as [| | | q] eqn:En; simpl;
    try (split; [apply cleaned_refl | rewrite Eraw; simpl; rewrite En; tauto]).
  destruct (Qle_bool q 0) eqn:E0; simpl.
  { split; [apply cleaned_refl |]. rewrite Eraw. simpl. rewrite En.
    apply Qle_bool_iff in E0. intros (_ & Hpos & _).
    by apply (Qlt_not_le _ _ Hpos). }
  apply Qle_bool_false in E0.
  destruct (Qle_bool q (inject_Z now)) eqn:E1; simpl.
  - apply Qle_bool_iff in E1.
    split; [| rewrite lookup_delete_eq; simpl; tauto].
    exists [key]. split_and!.
    + done.
    + intros k. simpl. destruct (decide (k = key)) as [-> | Hne].
      * rewrite bool_decide_eq_true_2 by apply list_elem_of_singleton, eq_refl.
        apply lookup_delete_eq.
      * rewrite bool_decide_eq_false_2 by (by rewrite list_elem_of_singleton).
        by apply lookup_delete_ne.
    + apply NoDup_singleton.
    + constructor; [| done]. split; [done |]. rewrite Eraw. simpl.
      by rewrite En.
  - apply Qle_bool_false in E1. split; [apply cleaned_refl |].
    rewrite Eraw. simpl. rewrite En. intros (_ & _ & Hle).
    by apply (Qlt_not_le _ _ E1).
Qed.

Lemma recordKeyOf_here n notes k :
  recordKeyOf [n] k → recordKeyOf (n :: notes) k.
Proof.
  intros (x & a & Hx & Ha & Hk). apply list_elem_of_singleton in Hx as ->.
  exists n, a. split_and!; [by left | done | done].
Qed.

Lemma recordKeyOf_further n notes k :
  recordKeyOf notes k → recordKeyOf (n :: notes) k.
Proof.
  intros (x & a & Hx & Ha & Hk). exists x, a. split_and!; [by right | done | done].
Qed.

(** The callback of the poll filter deletes only records of the
    notification's alert that have run out; and it does delete them: the
    mute-until record whenever the notification carries both identities
    and is not muted by the server, the dismiss-until record when, in
    addition, no mute-until record runs. *)
Lemma keep_cleaned now n w :
  cleaned Number now (recordKeyOf [n]) w (App.keep Number now n w).2
  ∧ ∀ a, wellFormed n → alertId n = Some a → ¬ serverMuted n →
      ¬ expired Number now
          (localStorage (App.keep Number now n w).2 !! App.LS_UNTIL a)
      ∧ (¬ active Number now (localStorage w !! App.LS_UNTIL a) →
         ¬ expired Number now
             (localStorage (App.keep Number now n w).2 !! App.DISMISS_UNTIL a)).
Proof.
  unfold App.keep. fold (alertId n). fold (deliveryId n).
  destruct (Js.truthy (alertId n)) eqn:Ea; simpl.
  2:{ split; [apply cleaned_refl |]. intros a [Hwf _]. by rewrite Ea in Hwf. }
  destruct (Js.truthy (deliveryId n)) eqn:Ed; simpl.
  2:{ split; [apply cleaned_refl |]. intros a [_ Hwf]. by rewrite Ed in Hwf. }
  destruct (truthy_Some (alertId n)) as [a0 Ha0]; [by rewrite Ea |].
  rewrite Ha0. simpl.
  assert (∀ k, k = App.LS_UNTIL a0 ∨ k = App.DISMISS_UNTIL a0 →
               recordKeyOf [n] k) as Hkey.
  { intros k Hk. exists n, a0. split_and!; [by left | done | done]. }
  unfold App.isMuted, serverMuted.
  destruct (alert n ≫= Alert.muted) as [[|] |] eqn:Em; simpl.
  { split; [apply cleaned_refl |]. by intros a _ _ H. }
  all: rewrite getMuteUntil_readUntil.
  all: pose proof (readUntil_active Number now (App.LS_UNTIL a0) w) as Hact.
  all: destruct (readUntil_cleaned now (App.LS_UNTIL a0) w) as [Hc1 He1].
  all: destruct (readUntil Number now (App.LS_UNTIL a0) w) as [until w1].
  all: simpl in Hact, Hc1, He1.
  all: apply (cleaned_mono now _ (recordKeyOf [n])) in Hc1;
    [| intros k ->; apply Hkey; by left].
  all: destruct (decide (until ≠ None)) as [Hu | Hu];
    [ rewrite (bool_decide_eq_true_2 _ Hu); simpl;
      split; [exact Hc1 |]; intros a _ [= <-] _;
      split; [exact He1 | intros Hn; exfalso; by apply Hn, Hact] |].
  all: rewrite (bool_decide_eq_false_2 _ Hu); simpl.
  all: rewrite getTempDismissed_readUntil.
  all: destruct (readUntil_cleaned now (App.DISMISS_UNTIL a0) w1) as [Hc2 He2].
  all: destruct (readUntil Number now (App.DISMISS_UNTIL a0) w1) as [dis w2].
  all: simpl in Hc2, He2.
  all: assert (¬ expired Number now (localStorage w2 !! App.LS_UNTIL a0)) as He1'
    by (intros H; by apply He1, (cleaned_expired now _ w1 w2 _ Hc2)).
  all: apply (cleaned_mono now _ (recordKeyOf [n])) in Hc2;
    [| intros k ->; apply Hkey; by right].
  all: case_bool_decide; simpl.
  all: (split; [by eapply cleaned_trans |]).
  all: by intros a _ [= <-] _.
Qed.

Lemma filterNotes_cleaned now notes w :
  cleaned Number now (recordKeyOf notes) w (App.filterNotes Number now notes w).2
  ∧ ∀ x a, x ∈ notes → wellFormed x → alertId x = Some a → ¬ serverMuted x →
      ¬ expired Number now
          (localStorage (App.filterNotes Number now notes w).2 !! App.LS_UNTIL a)
      ∧ (¬ active Number now (localStorage w !! App.LS_UNTIL a) →
         ¬ expired Number now
             (localStorage (App.filterNotes Number now notes w).2
                !! App.DISMISS_UNTIL a)).
Proof.
  revert w. induction notes as [| n notes IH]; intros w; simpl.
  { split; [apply cleaned_refl |]. intros x a Hx. by apply elem_of_nil in Hx. }
  destruct (keep_cleaned now n w) as [Hc1 Hd1].
  destruct (keep_spec Number now n w) as [_ Hs1].
  destruct (App.keep Number now n w) as [b w1]. simpl in Hc1, Hd1, Hs1.
  destruct (IH w1) as [Hc2 Hd2].
  destruct (App.filterNotes Number now notes w1) as [r w2]. simpl in *.
  split.
  { eapply cleaned_trans.
    - eapply cleaned_mono; [| exact Hc1]. apply recordKeyOf_here.
    - eapply cleaned_mono; [| exact Hc2]. apply recordKeyOf_further. }
  intros x a Hx Hwf Ha Hsm. apply elem_of_cons in Hx as [-> | Hx].
  - destruct (Hd1 a Hwf Ha Hsm) as [Hm Hd]. split.
    + intros H. by apply Hm, (cleaned_expired now _ w1 w2 _ Hc2).
    + intros Hn H. by apply (Hd Hn), (cleaned_expired now _ w1 w2 _ Hc2).
  - destruct (Hd2 x a Hx Hwf Ha Hsm) as [Hm Hd]. split; [done |].
    intros Hn. apply Hd. by rewrite (Hs1 (App.LS_UNTIL a)).
Qed.

(** Everything a settled poll of a live instance does. *)
Lemma run_resume_effects inst (notes : list Notification) now st :
  App.cancelled st !! inst ≠ Some true →
  Forall hasDelivery (App.toastQueue st) →
  ∃ st' ks adds,
    App.run_resume Number inst (Some notes) now st = Js.Val st'
    ∧ adds = filter (admitted Number now (localStorage (App.world st))
                       (App.toastQueue st)) notes
    ∧ App.toastQueue st' = App.toastQueue st ++ adds
    ∧ trace (App.world st')
      = trace (App.world st) ++ (RemoveItem <$> ks)
        ++ match adds with [] => [] | _ :: _ => [PlayNotif] end
    ∧ (∀ k, localStorage (App.world st') !! k
            = if bool_decide (k ∈ ks) then None
              else localStorage (App.world st) !! k)
    ∧ NoDup ks
    ∧ Forall (λ k, recordKeyOf notes k
                   ∧ expired Number now (localStorage (App.world st) !! k)) ks
    ∧ (∀ x a, x ∈ notes → wellFormed x → alertId x = Some a →
         ¬ serverMuted x →
         ¬ expired Number now
             (localStorage (App.world st') !! App.LS_UNTIL a)
         ∧ (¬ active Number now
                (localStorage (App.world st) !! App.LS_UNTIL a) →
            ¬ expired Number now
                (localStorage (App.world st') !! App.DISMISS_UNTIL a))).
Proof.
  intros Hlive Hq. unfold App.run_resume.
  rewrite bool_decide_eq_false_2 by done.
  destruct (filterNotes_spec Number now notes (App.world st)) as [Hf _].
  destruct (filterNotes_cleaned now notes (App.world st))
    as [(ks & Ht & Hs & Hnd & Hi) Hdel].
  destruct (App.filterNotes Number now notes (App.world st)) as [filtered w].
  simpl in Hf, Ht, Hs, Hi, Hdel. rewrite admitted_filter, <- Hf.
  destruct filtered as [| y filtered'] eqn:Efil.
  { eexists _, ks, _. split; [reflexivity |]. split; [reflexivity |].
    simpl. rewrite filter_nil, !app_nil_r. by split_and!. }
  rewrite <- Efil in *. clear Efil.
  rewrite appendNew_val; [| done |].
  2:{ rewrite Hf. apply filter_survivors_hasDelivery. }
  simpl. eexists _, ks, _. split; [reflexivity |]. split; [reflexivity |].
  simpl. split_and!; try done.
  - destruct (filter _ filtered) as [| z adds]; simpl.
    + by rewrite Ht, !app_nil_r.
    + by rewrite Ht, <- app_assoc.
  - by destruct (bool_decide _).
  - by destruct (bool_decide _).
Qed.


End PollEffects.

Lemma sounds_app t1 t2 : sounds (t1 ++ t2) = (sounds t1 + sounds t2)%nat.
Proof. unfold sounds. by rewrite omap_app, length_app. Qed.

Lemma sounds_removals ks : sounds (RemoveItem <$> ks) = 0%nat.
Proof. unfold sounds. by induction ks. Qed.

Lemma requests_removals ks : requests (RemoveItem <$> ks) = [].
Proof. unfold requests. by induction ks. Qed.

(** X1. A settled poll of a live instance plays the sound cue once when
    it appends at least one notification, whatever their number, and not
    at all when it appends none. *)
Theorem X1_poll_sound_once (Number : string → Js.number) (inst : nat)
    (notes : list Notification) (now : Z) (st : App.State) :
  App.cancelled st !! inst ≠ Some true →
  Forall hasDelivery (App.toastQueue st) →
  ∃ st' adds,
    App.run_resume Number inst (Some notes) now st = Js.Val st'
    ∧ App.toastQueue st' = App.toastQueue st ++ adds
    ∧ sounds (trace (App.world st'))
      = (sounds (trace (App.world st))
         + match adds with [] => 0 | _ :: _ => 1 end)%nat.
Proof.
  intros Hlive Hq.
  destruct (run_resume_effects Number inst notes now st Hlive Hq)
    as (st' & ks & adds & E & _ & Hqueue & Ht & _).
  exists st', adds. split_and!; [done | done |].
  rewrite Ht, !sounds_app, sounds_removals. by destruct adds.
Qed.

(** X1, on a response that brings two new notifications. *)
Lemma X1_poll_sound_once_witness :
  (App.cancelled Sample.polling !! 0%nat ≠ Some true
   ∧ Forall hasDelivery (App.toastQueue Sample.polling))
  ∧ ∃ st', App.run_resume Js.NumberDecimal 0 (Some Sample.response) 1000
             Sample.polling = Js.Val st'
      ∧ length (App.toastQueue st') = 3%nat
      ∧ sounds (trace (App.world st')) = 1%nat.
Proof.
  assert (App.cancelled Sample.polling !! 0%nat ≠ Some true) as H1 by done.
  assert (Forall hasDelivery (App.toastQueue Sample.polling)) as H2
    by (repeat constructor; by eexists).
  split; [by split |].
  destruct (X1_poll_sound_once Js.NumberDecimal 0 Sample.response 1000
              Sample.polling H1 H2) as (st' & adds & E & Hq & Hs).
  exists st'. split; [exact E |].
  vm_compute in E. injection E as <-. by vm_compute.
Defined.

(** X2. A settled poll of a live instance calls no request helper and
    writes nothing to the storage. Its whole effect on the outside is the
    deletion of some records, each logged once in the trace, followed by
    the sound cue when it queued something. Every deleted record is a
    mute-until or dismiss-until record of an alert named in the response
    and had run out; no other entry of the storage changes, so a running
    record is read afterwards as before. And for a notification that
    carries both identities and is not muted by the server, no mute-until
    record that has run out is left, nor, when no mute-until record
    runs, a dismiss-until record that has. *)
Theorem X2_poll_only_cleans_storage (Number : string → Js.number) (inst : nat)
    (notes : list Notification) (now : Z) (st : App.State) :
  App.cancelled st !! inst ≠ Some true →
  Forall hasDelivery (App.toastQueue st) →
  ∃ st' ks adds,
    App.run_resume Number inst (Some notes) now st = Js.Val st'
    ∧ App.toastQueue st' = App.toastQueue st ++ adds
    ∧ trace (App.world st')
      = trace (App.world st) ++ (RemoveItem <$> ks)
        ++ match adds with [] => [] | _ :: _ => [PlayNotif] end
    ∧ requests (trace (App.world st')) = requests (trace (App.world st))
    ∧ NoDup ks
    ∧ (∀ k, localStorage (App.world st') !! k
            = if bool_decide (k ∈ ks) then None
              else localStorage (App.world st) !! k)
    ∧ (∀ k, k ∈ ks →
         (∃ x a, x ∈ notes ∧ alertId x = Some a
                 ∧ (k = App.LS_UNTIL a ∨ k = App.DISMISS_UNTIL a))
         ∧ expired Number now (localStorage (App.world st) !! k))
    ∧ (∀ k, active Number now (localStorage (App.world st) !! k) →
            localStorage (App.world st') !! k = localStorage (App.world st) !! k)
    ∧ (∀ x a, x ∈ notes → wellFormed x → alertId x = Some a →
         ¬ serverMuted x →
         ¬ expired Number now
             (localStorage (App.world st') !! App.LS_UNTIL a)
         ∧ (¬ active Number now
                (localStorage (App.world st) !! App.LS_UNTIL a) →
            ¬ expired Number now
                (localStorage (App.world st') !! App.DISMISS_UNTIL a))).
Proof.
  intros Hlive Hq.
  destruct (run_resume_effects Number inst notes now st Hlive Hq)
    as (st' & ks & adds & E & _ & Hqueue & Ht & Hs & Hnd & Hi & Hdel).
  rewrite Forall_forall in Hi.
  exists st', ks, adds. split_and!; try done.
  - unfold requests in *. rewrite Ht, !omap_app.
    fold (requests (RemoveItem <$> ks)). rewrite requests_removals.
    destruct adds; simpl; by rewrite !app_nil_r.
  - intros k Hact. rewrite Hs. case_bool_decide as Hk; [| done].
    destruct (Hi k Hk) as [_ He]. by destruct (expired_not_active Number now _ He).
Qed.

(** X2, on a storage in which the mute of alert X has run out. *)
Lemma X2_poll_only_cleans_storage_witness :
  (App.cancelled Sample.polling !! 0%nat ≠ Some true
   ∧ Forall hasDelivery (App.toastQueue Sample.polling))
  ∧ ∃ st', App.run_resume Js.NumberDecimal 0 (Some Sample.response) 1000
             Sample.polling = Js.Val st'
      ∧ requests (trace (App.world st')) = []
      ∧ trace (App.world st')
        = [RemoveItem "pw_alert_mute_until_X"; PlayNotif]
      ∧ getItem "pw_alert_mute_until_X" (App.world st') = None
      ∧ getItem "pw_alert_mute_until_M" (App.world st') = Some "5000".
Proof.
  assert (App.cancelled Sample.polling !! 0%nat ≠ Some true) as H1 by done.
  assert (Forall hasDelivery (App.toastQueue Sample.polling)) as H2
    by (repeat constructor; by eexists).
  split; [by split |].
  destruct (X2_poll_only_cleans_storage Js.NumberDecimal 0 Sample.response
              1000 Sample.polling H1 H2) as (st' & ks & adds & E & _ & _ & Hr & _).
  exists st'. split; [exact E |]. split; [by rewrite Hr |].
  vm_compute in E. injection E as <-. by vm_compute.
Defined.



(** ** Suppression windows *)

Section Windows.

Lemma LS_UNTIL_inj a b : App.LS_UNTIL a = App.LS_UNTIL b → a = b.
Proof. unfold App.LS_UNTIL. apply (inj (String.append _)). Qed.

Lemma DISMISS_UNTIL_inj a b : App.DISMISS_UNTIL a = App.DISMISS_UNTIL b → a = b.
Proof. unfold App.DISMISS_UNTIL. apply (inj (String.append _)). Qed.

Lemma LS_UNTIL_DISMISS_UNTIL a b : App.LS_UNTIL a ≠ App.DISMISS_UNTIL b.
Proof. unfold App.LS_UNTIL, App.DISMISS_UNTIL. simpl. by intros [=]. Qed.

(** A written expiry that the host reads back runs exactly until its
    instant, and has run out from then on. *)
Lemma active_toString Number now u :
  Number (Js.toString u) = Js.ofZ u →
  active Number now (Some (Js.toString u)) ↔ 0 < u ∧ now < u.
Proof.
  intros HN. unfold active. rewrite HN. unfold Js.ofZ.
  change 0%Q with (inject_Z 0). rewrite <- !Zlt_Qlt.
  pose proof (toString_nonempty u). tauto.
Qed.

Lemma expired_toString Number now u :
  Number (Js.toString u) = Js.ofZ u →
  expired Number now (Some (Js.toString u)) ↔ 0 < u ∧ u <= now.
Proof.
  intros HN. unfold expired. rewrite HN. unfold Js.ofZ.
  change 0%Q with (inject_Z 0). rewrite <- Zlt_Qlt, <- Zle_Qle.
  pose proof (toString_nonempty u). tauto.
Qed.

(** A live poll queues a notification of its response that carries both
    identities, is not suppressed and is not queued yet; and it leaves no
    record of the notification's alert that has run out. *)
Lemma poll_readmits Number inst (notes : list Notification) now st x :
  App.cancelled st !! inst ≠ Some true →
  Forall hasDelivery (App.toastQueue st) →
  x ∈ notes → wellFormed x →
  ¬ suppressed Number now (localStorage (App.world st)) x →
  deliveryId x ∉ deliveryIds (App.toastQueue st) →
  ∃ st2, App.run_resume Number inst (Some notes) now st = Js.Val st2
    ∧ x ∈ App.toastQueue st2
    ∧ ∀ a k, alertId x = Some a →
        k = App.LS_UNTIL a ∨ k = App.DISMISS_UNTIL a →
        expired Number now (localStorage (App.world st) !! k) →
        getItem k (App.world st2) = None.
Proof.
  intros Hlive Hq Hx Hwf Hns Hnew.
  destruct (run_resume_effects Number inst notes now st Hlive Hq)
    as (st2 & ks & adds & E & Ha & Hq2 & _ & Hs & _ & _ & Hdel).
  exists st2. split_and!; [done | |].
  - rewrite Hq2, Ha. apply elem_of_app. right.
    apply list_elem_of_filter. by split.
  - intros a k Hxa Hk He. unfold getItem.
    assert (¬ serverMuted x) as Hsm by (intros H; apply Hns; by left).
    assert (¬ active Number now
                (localStorage (App.world st) !! App.LS_UNTIL a)) as Hna.
    { intros H. apply Hns. right. rewrite Hxa. by left. }
    destruct (Hdel x a Hx Hwf Hxa Hsm) as [Hm Hd]. specialize (Hd Hna).
    assert (¬ expired Number now (localStorage (App.world st2) !! k)) as Hne
      by (by destruct Hk as [-> | ->]).
    rewrite Hs in Hne |- *. by case_bool_decide.
Qed.

(** What a settled poll can leave in the queue. *)
Lemma poll_queue_cases Number inst (notes : list Notification) now st st2 :
  Forall hasDelivery (App.toastQueue st) →
  App.run_resume Number inst (Some notes) now st = Js.Val st2 →
  ∀ y, y ∈ App.toastQueue st2 →
       y ∈ App.toastQueue st
       ∨ (y ∈ notes
          ∧ admitted Number now (localStorage (App.world st))
              (App.toastQueue st) y).
Proof.
  intros Hq E y Hy.
  destruct (decide (App.cancelled st !! inst = Some true)) as [Hc | Hlive].
  { unfold App.run_resume in E. rewrite bool_decide_eq_true_2 in E by done.
    injection E as <-. by left. }
  destruct (run_resume_spec Number inst notes now st Hlive Hq)
    as (st' & E' & Hq' & _).
  rewrite E in E'. injection E' as <-. rewrite Hq' in Hy.
  apply elem_of_app in Hy as [Hy | Hy]; [by left | right].
  apply list_elem_of_filter in Hy. tauto.
Qed.

Lemma suppressed_other Number now (ls ls' : gmap string string) a x :
  alertId x ≠ Some a →
  (∀ b, b ≠ a → ls' !! App.LS_UNTIL b = ls !! App.LS_UNTIL b
                ∧ ls' !! App.DISMISS_UNTIL b = ls !! App.DISMISS_UNTIL b) →
  suppressed Number now ls' x ↔ suppressed Number now ls x.
Proof.
  intros Hx Hls. unfold suppressed. destruct (alertId x) as [b |]; [| done].
  destruct (Hls b) as [-> ->]; [congruence | done].
Qed.

Lemma suppressed_insert_mute Number now (ls : gmap string string) a u x :
  Number (Js.toString u) = Js.ofZ u →
  alertId x = Some a →
  suppressed Number now (<[App.LS_UNTIL a := Js.toString u]> ls) x
  ↔ serverMuted x ∨ (0 < u ∧ now < u)
    ∨ active Number now (ls !! App.DISMISS_UNTIL a).
Proof.
  intros HN Hx. unfold suppressed. rewrite Hx, lookup_insert_eq.
  rewrite lookup_insert_ne by apply LS_UNTIL_DISMISS_UNTIL.
  by rewrite (active_toString Number now u HN).
Qed.

Lemma suppressed_insert_dismiss Number now (ls : gmap string string) a u x :
  Number (Js.toString u) = Js.ofZ u →
  alertId x = Some a →
  suppressed Number now (<[App.DISMISS_UNTIL a := Js.toString u]> ls) x
  ↔ serverMuted x ∨ active Number now (ls !! App.LS_UNTIL a)
    ∨ (0 < u ∧ now < u).
Proof.
  intros HN Hx. unfold suppressed. rewrite Hx, lookup_insert_eq.
  rewrite lookup_insert_ne
    by (intros H; by apply (LS_UNTIL_DISMISS_UNTIL a a)).
  by rewrite (active_toString Number now u HN).
Qed.

Lemma insert_mute_other (ls : gmap string string) a v b :
  b ≠ a →
  <[App.LS_UNTIL a := v]> ls !! App.LS_UNTIL b = ls !! App.LS_UNTIL b
  ∧ <[App.LS_UNTIL a := v]> ls !! App.DISMISS_UNTIL b
    = ls !! App.DISMISS_UNTIL b.
Proof.
  intros Hb. split; apply lookup_insert_ne.
  - intros H. by apply LS_UNTIL_inj in H.
  - apply LS_UNTIL_DISMISS_UNTIL.
Qed.

Lemma insert_dismiss_other (ls : gmap string string) a v b :
  b ≠ a →
  <[App.DISMISS_UNTIL a := v]> ls !! App.LS_UNTIL b = ls !! App.LS_UNTIL b
  ∧ <[App.DISMISS_UNTIL a := v]> ls !! App.DISMISS_UNTIL b
    = ls !! App.DISMISS_UNTIL b.
Proof.
  intros Hb. split; apply lookup_insert_ne.
  - intros H. by apply (LS_UNTIL_DISMISS_UNTIL b a).
  - intros H. by apply DISMISS_UNTIL_inj in H.
Qed.

Lemma delete_mute_other (ls : gmap string string) a b :
  b ≠ a →
  delete (App.LS_UNTIL a) ls !! App.LS_UNTIL b = ls !! App.LS_UNTIL b
  ∧ delete (App.LS_UNTIL a) ls !! App.DISMISS_UNTIL b
    = ls !! App.DISMISS_UNTIL b.
Proof.
  intros Hb. split; apply lookup_delete_ne.
  - intros H. by apply LS_UNTIL_inj in H.
  - apply LS_UNTIL_DISMISS_UNTIL.
Qed.

Lemma withoutAlert_no_alert a q y : y ∈ withoutAlert a q → alertId y ≠ Some a.
Proof. intros H. by apply list_elem_of_filter in H as [H _]. Qed.

End Windows.

(** X4. A timed mute chosen in the toast at instant [t0] removes the
    queued notifications of the alert and calls no request helper. With
    a host whose [Number] reads the written expiry back, a notification
    of that alert counts from then on as suppressed exactly while the
    server flag is set, or the instant is before [t0] plus the duration,
    or a dismiss record of the alert is running; the suppression of
    every other alert is what it was. So no poll that settles before the
    expiry leaves a notification of the alert in the queue; and a live
    poll that settles at the expiry or later queues a notification of the
    alert that its response carries, unless the server flag, a running
    dismiss or the queue itself holds it back, and deletes the mute-until
    record. *)
Theorem X4_timed_mute_window (Number : string → Js.number) (t0 : Z)
    (c : TimedChoice) (a : string) (st : App.State) :
  0 <= t0 →
  Number (Js.toString (t0 + durationMs c)) = Js.ofZ (t0 + durationMs c) →
  Forall wellFormed (App.toastQueue st) →
  ∃ st', App.onMuteAlert t0 a (Timed c) st = Js.Val st'
    ∧ App.toastQueue st' = withoutAlert a (App.toastQueue st)
    ∧ requests (trace (App.world st')) = requests (trace (App.world st))
    ∧ App.pending st' = App.pending st
    ∧ (∀ now x, alertId x = Some a →
         suppressed Number now (localStorage (App.world st')) x
         ↔ serverMuted x ∨ now < t0 + durationMs c
           ∨ active Number now
               (localStorage (App.world st) !! App.DISMISS_UNTIL a))
    ∧ (∀ now x, alertId x ≠ Some a →
         suppressed Number now (localStorage (App.world st')) x
         ↔ suppressed Number now (localStorage (App.world st)) x)
    ∧ (∀ inst notes now st2,
         now < t0 + durationMs c →
         App.run_resume Number inst (Some notes) now st' = Js.Val st2 →
         ∀ y, y ∈ App.toastQueue st2 → alertId y ≠ Some a)
    ∧ (∀ inst (notes : list Notification) now x,
         App.cancelled st !! inst ≠ Some true →
         t0 + durationMs c <= now →
         x ∈ notes → wellFormed x → alertId x = Some a →
         ¬ serverMuted x →
         ¬ active Number now
             (localStorage (App.world st) !! App.DISMISS_UNTIL a) →
         deliveryId x ∉ deliveryIds (withoutAlert a (App.toastQueue st)) →
         ∃ st2, App.run_resume Number inst (Some notes) now st' = Js.Val st2
           ∧ x ∈ App.toastQueue st2
           ∧ getItem (App.LS_UNTIL a) (App.world st2) = None).
Proof.
  intros Ht0 HN Hwf. pose proof (durationMs_pos c) as Hpos.
  unfold App.onMuteAlert.
  rewrite (dropAlert_val a _ (wellFormed_hasAlert _ Hwf)). simpl.
  eexists. split; [reflexivity |]. simpl. rewrite choiceToUntil_duration.
  assert (∀ now x, alertId x = Some a →
    suppressed Number now
      (<[App.LS_UNTIL a := Js.toString (t0 + durationMs c)]>
         (localStorage (App.world st))) x
    ↔ serverMuted x ∨ now < t0 + durationMs c
      ∨ active Number now
          (localStorage (App.world st) !! App.DISMISS_UNTIL a)) as Hwin.
  { intros now x Hx. rewrite (suppressed_insert_mute _ _ _ _ _ _ HN Hx).
    split; (intros [H | [H | H]]; [by left | right; left; lia | by right; right]). }
  split_and!; try done.
  - unfold requests. rewrite omap_app. simpl. by rewrite app_nil_r.
  - intros now x Hx. apply (suppressed_other _ _ _ _ a x Hx).
    intros b Hb. by apply insert_mute_other.
  - intros inst notes now st2 Hnow E y Hy.
    eapply poll_queue_cases in Hy; [| | exact E]; simpl.
    2:{ by apply wellFormed_hasDelivery, withoutAlert_wellFormed. }
    simpl in Hy. destruct Hy as [Hy | [_ (_ & Hns & _)]].
    + by eapply withoutAlert_no_alert.
    + intros Hya. apply Hns. apply (Hwin now y Hya). right. by left.
  - intros inst notes now x Hlive Hnow Hxn Hxwf Hxa Hsm Hnd Hnew.
    destruct (poll_readmits Number inst notes now
                (App.setToastQueue (withoutAlert a (App.toastQueue st))
                   (App.setWorld
                      (App.setMuteUntil a (t0 + durationMs c) (App.world st))
                      st)) x)
      as (st2 & E & Hin & Hgone); try done.
    { by apply wellFormed_hasDelivery, withoutAlert_wellFormed. }
    { simpl. intros Hs. apply (Hwin now x Hxa) in Hs as [H | [H | H]];
        [done | lia | done]. }
    exists st2. split_and!; [done | done |].
    apply (Hgone a _ Hxa); [by left |]. simpl. rewrite lookup_insert_eq.
    apply (expired_toString Number now _ HN). lia.
Qed.

(** X4, for a one-hour mute chosen at instant 1000, a poll half an hour
    later and a poll at the expiry. *)
Lemma X4_timed_mute_window_witness :
  (0 <= 1000
   ∧ Js.NumberDecimal (Js.toString (1000 + durationMs C1h))
     = Js.ofZ (1000 + durationMs C1h)
   ∧ Forall wellFormed (App.toastQueue Sample.twoQueued))
  ∧ ∃ st' st2 st3,
      App.onMuteAlert 1000 "A" (Timed C1h) Sample.twoQueued = Js.Val st'
      ∧ App.run_resume Js.NumberDecimal 0
          (Some [Sample.note "A" "d7"; Sample.note "C" "d8"]) 1801000 st'
        = Js.Val st2
      ∧ App.toastQueue st2 = [Sample.note "B" "d2"; Sample.note "C" "d8"]
      ∧ App.run_resume Js.NumberDecimal 0
          (Some [Sample.note "A" "d7"; Sample.note "C" "d8"]) 3601000 st2
        = Js.Val st3
      ∧ App.toastQueue st3
        = [Sample.note "B" "d2"; Sample.note "C" "d8"; Sample.note "A" "d7"]
      ∧ getItem "pw_alert_mute_until_A" (App.world st3) = None.
Proof.
  assert (0 <= 1000) as H0 by lia.
  assert (Js.NumberDecimal (Js.toString (1000 + durationMs C1h))
          = Js.ofZ (1000 + durationMs C1h)) as HN
    by apply NumberDecimal_toString.
  assert (Forall wellFormed (App.toastQueue Sample.twoQueued)) as H
    by (repeat constructor).
  split; [by split_and! |].
  destruct (X4_timed_mute_window Js.NumberDecimal 1000 C1h "A"
              Sample.twoQueued H0 HN H) as (st' & E & _).
  exists st'. vm_compute in E. injection E as <-.
  eexists _, _. split; [reflexivity |]. split; [reflexivity |].
  split; [reflexivity |]. split; [reflexivity |]. split; reflexivity.
Defined.

Lemma closed_delivery_fresh a q x :
  NoDup (deliveryIds q) → x ∈ q → alertId x = Some a →
  deliveryId x ∉ deliveryIds (withoutAlert a q).
Proof.
  unfold deliveryIds, withoutAlert. intros Hnd Hx Ha.
  induction q as [| y q IH]; [by apply elem_of_nil in Hx |].
  rewrite fmap_cons in Hnd. apply NoDup_cons in Hnd as [Hy Hnd].
  assert (∀ z, z ∈ deliveryId <$> filter (λ x, alertId x ≠ Some a) q →
               z ∈ deliveryId <$> q) as Hsub.
  { intros z Hz. apply list_elem_of_fmap in Hz as (w & -> & Hw).
    apply list_elem_of_filter in Hw as [_ Hw]. apply list_elem_of_fmap. eauto. }
  apply elem_of_cons in Hx as [<- | Hx].
  - rewrite filter_cons, decide_False by (intros H; by apply H).
    intros Hin. by apply Hy, Hsub.
  - rewrite filter_cons. destruct (decide (alertId y ≠ Some a)).
    + rewrite fmap_cons. apply not_elem_of_cons. split; [| by apply IH].
      intros Heq. apply Hy. rewrite <- Heq. apply list_elem_of_fmap. eauto.
    + by apply IH.
Qed.

(** X5. Closing a toast at instant [t0] suppresses the alert for five
    minutes and no other alert, with a host whose [Number] reads the
    written expiry back: no poll that settles before [t0] plus 300 000 ms
    leaves a notification of the alert in the queue, and a live poll that
    settles at or after it puts a closed notification back when the
    response still carries it, provided the alert is not muted in the
    meantime, and deletes the dismiss-until record. *)
Theorem X5_close_window (Number : string → Js.number) (t0 : Z) (a : string)
    (st : App.State) :
  0 <= t0 →
  Number (Js.toString (t0 + DISMISS_MS)) = Js.ofZ (t0 + DISMISS_MS) →
  Forall wellFormed (App.toastQueue st) →
  NoDup (deliveryIds (App.toastQueue st)) →
  ∃ st', App.onCloseTemp t0 a st = Js.Val st'
    ∧ (∀ now x, alertId x = Some a →
         suppressed Number now (localStorage (App.world st')) x
         ↔ serverMuted x
           ∨ active Number now
               (localStorage (App.world st) !! App.LS_UNTIL a)
           ∨ now < t0 + DISMISS_MS)
    ∧ (∀ now x, alertId x ≠ Some a →
         suppressed Number now (localStorage (App.world st')) x
         ↔ suppressed Number now (localStorage (App.world st)) x)
    ∧ (∀ inst notes now st2,
         now < t0 + DISMISS_MS →
         App.run_resume Number inst (Some notes) now st' = Js.Val st2 →
         ∀ y, y ∈ App.toastQueue st2 → alertId y ≠ Some a)
    ∧ (∀ inst (notes : list Notification) now x,
         App.cancelled st !! inst ≠ Some true →
         t0 + DISMISS_MS <= now →
         x ∈ App.toastQueue st → x ∈ notes → alertId x = Some a →
         ¬ serverMuted x →
         ¬ active Number now
             (localStorage (App.world st) !! App.LS_UNTIL a) →
         ∃ st2, App.run_resume Number inst (Some notes) now st'
                = Js.Val st2
           ∧ x ∈ App.toastQueue st2
           ∧ getItem (App.DISMISS_UNTIL a) (App.world st2) = None).
Proof.
  intros Ht0 HN Hwf Hnd. unfold App.onCloseTemp.
  rewrite (dropAlert_val a _ (wellFormed_hasAlert _ Hwf)). simpl.
  eexists. split; [reflexivity |]. simpl.
  change (t0 + 5 * 60 * 1000) with (t0 + DISMISS_MS).
  assert (∀ now x, alertId x = Some a →
    suppressed Number now
      (<[App.DISMISS_UNTIL a := Js.toString (t0 + DISMISS_MS)]>
         (localStorage (App.world st))) x
    ↔ serverMuted x
      ∨ active Number now
          (localStorage (App.world st) !! App.LS_UNTIL a)
      ∨ now < t0 + DISMISS_MS) as Hwin.
  { intros now x Hx. rewrite (suppressed_insert_dismiss _ _ _ _ _ _ HN Hx).
    unfold DISMISS_MS.
    split; (intros [H | [H | H]]; [by left | by right; left | right; right; lia]). }
  split_and!; try done.
  - intros now x Hx. apply (suppressed_other _ _ _ _ a x Hx).
    intros b Hb. by apply insert_dismiss_other.
  - intros inst notes now st2 Hnow E y Hy.
    eapply poll_queue_cases in Hy; [| | exact E]; simpl.
    2:{ by apply wellFormed_hasDelivery, withoutAlert_wellFormed. }
    simpl in Hy. destruct Hy as [Hy | [_ (_ & Hns & _)]].
    + by eapply withoutAlert_no_alert.
    + intros Hya. apply Hns. apply (Hwin now y Hya). right. by right.
  - intros inst notes now x Hlive Hnow Hxq Hxn Hxa Hns Hnm.
    destruct (poll_readmits Number inst notes now
                (App.setToastQueue (withoutAlert a (App.toastQueue st))
                   (App.setWorld (App.setTempDismissed t0 a 5 (App.world st))
                      st)) x)
      as (st2 & E & Hin & Hgone); try done.
    { by apply wellFormed_hasDelivery, withoutAlert_wellFormed. }
    { rewrite Forall_forall in Hwf. by apply Hwf. }
    { simpl. change (t0 + 5 * 60 * 1000) with (t0 + DISMISS_MS).
      intros Hs. apply (Hwin now x Hxa) in Hs as [H | [H | H]];
        [done | done | lia]. }
    { simpl. by apply closed_delivery_fresh. }
    exists st2. split_and!; [done | done |].
    apply (Hgone a _ Hxa); [by right |]. simpl.
    change (t0 + 5 * 60 * 1000) with (t0 + DISMISS_MS).
    rewrite lookup_insert_eq.
    apply (expired_toString Number now _ HN). unfold DISMISS_MS in *. lia.
Qed.

(** X5, for a toast closed at instant 1000 and polls one and six minutes
    later. *)
Lemma X5_close_window_witness :
  (0 <= 1000
   ∧ Js.NumberDecimal (Js.toString (1000 + DISMISS_MS))
     = Js.ofZ (1000 + DISMISS_MS)
   ∧ Forall wellFormed (App.toastQueue Sample.twoQueued)
   ∧ NoDup (deliveryIds (App.toastQueue Sample.twoQueued)))
  ∧ ∃ st' st2 st3,
      App.onCloseTemp 1000 "A" Sample.twoQueued = Js.Val st'
      ∧ getItem "pw_alert_dismiss_until_A" (App.world st') = Some "301000"
      ∧ App.run_resume Js.NumberDecimal 0 (Some [Sample.note "A" "d1"]) 61000 st'
        = Js.Val st2
      ∧ App.toastQueue st2 = [Sample.note "B" "d2"]
      ∧ App.run_resume Js.NumberDecimal 0 (Some [Sample.note "A" "d1"]) 361000
          st2 = Js.Val st3
      ∧ App.toastQueue st3 = [Sample.note "B" "d2"; Sample.note "A" "d1"]
      ∧ getItem "pw_alert_dismiss_until_A" (App.world st3) = None.
Proof.
  assert (0 <= 1000) as H0 by lia.
  assert (Js.NumberDecimal (Js.toString (1000 + DISMISS_MS))
          = Js.ofZ (1000 + DISMISS_MS)) as HN
    by apply NumberDecimal_toString.
  assert (Forall wellFormed (App.toastQueue Sample.twoQueued)) as H
    by (repeat constructor).
  assert (NoDup (deliveryIds (App.toastQueue Sample.twoQueued))) as Hnd
    by compute_done.
  split; [by split_and! |].
  destruct (X5_close_window Js.NumberDecimal 1000 "A" Sample.twoQueued
              H0 HN H Hnd) as (st' & E & _).
  exists st'. vm_compute in E. injection E as <-.
  eexists _, _. split; [reflexivity |]. split; [reflexivity |].
  split; [reflexivity |]. split; [reflexivity |].
  split; [reflexivity |]. split; reflexivity.
Defined.

(** X6. Unmuting from the toast deletes the alert's mute-until record and
    lists the alerts; it leaves the queue, the dismiss-until records and
    the records of other alerts alone, so that afterwards only the server
    flag or a running dismiss suppresses the alert. The server is asked
    to clear its flag only when the listed row says [muted]; a row that
    does not, a missing row and a rejected listing end the handler with
    nothing changed. *)
Theorem X6_unmute_clears_local_mute (Number : string → Js.number)
    (a : string) (all : list AlertDTO) (st st1 : App.State) :
  getItem (App.LS_UNTIL a) (App.world (App.onUnmuteAlert a st)) = None
  ∧ App.toastQueue (App.onUnmuteAlert a st) = App.toastQueue st
  ∧ trace (App.world (App.onUnmuteAlert a st))
    = trace (App.world st) ++ [RemoveItem (App.LS_UNTIL a); Call ListAlerts]
  ∧ (∀ b, getItem (App.DISMISS_UNTIL b) (App.world (App.onUnmuteAlert a st))
          = getItem (App.DISMISS_UNTIL b) (App.world st))
  ∧ (∀ now x, alertId x = Some a →
       suppressed Number now
         (localStorage (App.world (App.onUnmuteAlert a st))) x
       ↔ serverMuted x
         ∨ active Number now
             (localStorage (App.world st) !! App.DISMISS_UNTIL a))
  ∧ (∀ now x, alertId x ≠ Some a →
       suppressed Number now
         (localStorage (App.world (App.onUnmuteAlert a st))) x
       ↔ suppressed Number now (localStorage (App.world st)) x)
  ∧ (∀ row, App.findAlert a all = Some row → dto_muted row = true →
       trace (App.world (App.onUnmuteAlert_listed a (Some all) st1))
       = trace (App.world st1) ++ [Call (UpdateAlert a (withMuted row false))]
       ∧ App.toastQueue (App.onUnmuteAlert_listed a (Some all) st1)
         = App.toastQueue st1)
  ∧ (∀ row, App.findAlert a all = Some row → dto_muted row = false →
       App.onUnmuteAlert_listed a (Some all) st1 = st1)
  ∧ (App.findAlert a all = None →
     App.onUnmuteAlert_listed a (Some all) st1 = st1)
  ∧ App.onUnmuteAlert_listed a None st1 = st1.
Proof.
  split_and!; try done.
  - unfold getItem. simpl. apply lookup_delete_eq.
  - simpl. by rewrite <- app_assoc.
  - intros b. unfold getItem. simpl. apply lookup_delete_ne.
    apply LS_UNTIL_DISMISS_UNTIL.
  - intros now x Hx. unfold suppressed. rewrite Hx. simpl.
    rewrite lookup_delete_eq.
    rewrite lookup_delete_ne by apply LS_UNTIL_DISMISS_UNTIL.
    unfold active at 1. tauto.
  - intros now x Hx. apply (suppressed_other _ _ _ _ a x Hx).
    intros b Hb. simpl. by apply delete_mute_other.
  - intros row Hrow Hm. unfold App.onUnmuteAlert_listed.
    by rewrite Hrow, Hm.
  - intros row Hrow Hm. unfold App.onUnmuteAlert_listed.
    by rewrite Hrow, Hm.
  - intros Hnone. unfold App.onUnmuteAlert_listed. by rewrite Hnone.
Qed.

(** ** More on the event loop *)

Section LoopMore.

Variable Number : string → Js.number.

Ltac settle E :=
  simpl in E; first [discriminate E | injection E as <-; by split_and!].

(** Only a change of [user] touches the closures of the poll effect. *)
Lemma step_closures e st st' :
  App.step Number e st = Js.Val st' →
  (∀ u, e ≠ App.AuthChanged u) →
  App.user st' = App.user st ∧ App.cancelled st' = App.cancelled st
  ∧ App.timers st' = App.timers st ∧ App.pollCleanup st' = App.pollCleanup st.
Proof.
  intros E Hne.
  destruct e as [u | inst | k r now | k ok | k r | k ok | a now | d
                | a c now | a | key v]; simpl in E.
  - by destruct (Hne u).
  - case_bool_decide; settle E.
  - destruct (App.pending st !! k) as [[inst | | | | |] |]; try settle E.
    unfold App.run_resume in E. destruct r as [notes |]; [| settle E].
    case_bool_decide; [settle E |].
    destruct (App.filterNotes Number now notes _) as [[| y f] w]; [settle E |].
    destruct (App.appendNew _ _) as [[q s] |]; settle E.
  - destruct (App.pending st !! k) as [[| d | | | |] |]; try settle E.
    unfold App.onGotIt_finally in E.
    destruct (App.dropDelivery _ _); settle E.
  - destruct (App.pending st !! k) as [[| | a | | a |] |]; try settle E.
    + unfold App.onMuteAlert_listed in E.
      destruct r as [all |]; [destruct (App.findAlert a all) |]; settle E.
    + unfold App.onUnmuteAlert_listed in E.
      destruct r as [all |];
        [destruct (App.findAlert a all) as [row |];
         [destruct (negb (dto_muted row)) |] |]; settle E.
  - destruct (App.pending st !! k) as [[| | | a | | a] |]; try settle E.
    unfold App.onMuteAlert_updated in E. destruct ok; [| settle E].
    destruct (App.dropAlert _ _); settle E.
  - unfold App.onCloseTemp in E. destruct (App.dropAlert _ _); settle E.
  - settle E.
  - unfold App.onMuteAlert in E. destruct c; [| settle E].
    destruct (App.dropAlert _ _); settle E.
  - settle E.
  - settle E.
Qed.

Lemma setUser_onePoller u st : Invariant st → onePoller (App.setUser u st).
Proof.
  intros Hinv. pose proof Hinv as [Hwf Hlive Htim Hcl Htask Hout].
  unfold App.setUser.
  assert (App.user st = None → onePoller st) as Hidle.
  { intros Hu. unfold onePoller. rewrite Hu.
    assert (App.pollCleanup st = None) as Hnone.
    { destruct (App.pollCleanup st) as [i |] eqn:Ei; [| done].
      destruct (Hcl i eq_refl) as [_ [? ?]]. congruence. }
    split_and!; [| done |].
    - apply set_eq. intros j. split; [| set_solver]. intros Hj.
      apply Htim in Hj. congruence.
    - intros j Hj. apply Hlive in Hj. congruence. }
  destruct (App.user st) as [v |] eqn:Ev, u as [u |]; [| | | by apply Hidle].
  all: match goal with
       | |- context [App.pollEffect_cleanup ?s] =>
           destruct (pollEffect_cleanup_spec s)
             as (Hc1 & Hc2 & Hc3 & Hc4 & Hc5 & Hc6 & Hc7 & Hc8);
             [ done | done | intros i Hi; by apply Hcl in Hi as [? _] |];
           destruct (App.pollEffect_cleanup s)
             as [us qs ws cs ts ps ks] eqn:Es
       end; simpl in *; subst.
  all: unfold onePoller;
    cbn [App.userEffect App.pollEffect App.user App.toastQueue App.world
         App.cancelled App.timers App.pollCleanup App.pending App.run
         App.suspend App.setWorld App.setToastQueue].
  2:{ split_and!; [done | done |]. intros j Hj.
      assert (cs !! j = Some true) as Ht
        by (apply Hc4; rewrite <- Hc3; by eapply lookup_lt_Some).
      congruence. }
  all: exists (length cs); split_and!; [by rewrite union_empty_r_L | done |].
  all: intros j; split.
  all: try (intros ->; by rewrite lookup_app_r, Nat.sub_diag by lia).
  all: intros Hj; destruct (decide (j < length cs)%nat) as [Hlt | Hge].
  all: try (rewrite lookup_app_l in Hj by done;
            rewrite Hc4 in Hj by (by rewrite <- Hc3); congruence).
  all: rewrite lookup_app_r in Hj by lia;
    destruct (j - length cs)%nat as [| n] eqn:En; [lia | done].
Qed.

Lemma exec_onePoller es st st' :
  Invariant st → onePoller st → App.exec Number es st = Js.Val st' →
  onePoller st'.
Proof.
  revert st. induction es as [| e es IH]; intros st Hinv Hone E; simpl in E.
  { by injection E as <-. }
  destruct (step_spec Number e st Hinv) as (st1 & E1 & Hinv1 & _).
  rewrite E1 in E. simpl in E. apply (IH st1 Hinv1); [| done].
  destruct e as [u | | | | | | | | | |];
    [ simpl in E1; injection E1 as <-; by apply setUser_onePoller | ..].
  all: destruct (step_closures _ st st1 E1) as (Eu & Ec & Et & Ep); [done |].
  all: unfold onePoller in *; by rewrite Eu, Ec, Et, Ep.
Qed.

End LoopMore.

(** X7. In every state the event loop reaches from the mounted component
    there is exactly one poll loop while somebody is signed in and none
    otherwise: one armed interval, owned by the one instance whose
    [cancelled] flag is unset. A timer event calls [pollAlerts] once when
    it is that instance's and does nothing otherwise. *)
Theorem X7_one_poll_loop (Number : string → Js.number)
    (storage : gmap string string) (es : list App.Event) (st : App.State) :
  App.exec Number es (App.init storage) = Js.Val st →
  onePoller st
  ∧ (size (App.timers st) ≤ 1)%nat
  ∧ (is_Some (App.user st) ↔ is_Some (App.pollCleanup st))
  ∧ ∀ i, ∃ st',
      App.step Number (App.IntervalFired i) st = Js.Val st'
      ∧ requests (trace (App.world st'))
        = requests (trace (App.world st))
          ++ (if bool_decide (App.pollCleanup st = Some i)
              then [PollAlerts] else []).
Proof.
  intros E.
  assert (onePoller (App.init storage)) as Hinit.
  { unfold onePoller. simpl. by split_and!. }
  pose proof (exec_onePoller Number es _ st (init_Invariant storage) Hinit E)
    as Hone.
  split; [done |]. unfold onePoller in Hone.
  destruct (App.user st) as [u |] eqn:Eu.
  - destruct Hone as (i & Ht & Hp & Hf). split_and!.
    + rewrite Ht, size_singleton. lia.
    + rewrite Hp. split; eauto.
    + intros j. simpl. rewrite Ht, Hp.
      destruct (decide (j = i)) as [-> | Hne].
      * rewrite !bool_decide_eq_true_2 by (done || by apply elem_of_singleton).
        eexists. split; [reflexivity |]. simpl. unfold requests.
        by rewrite omap_app.
      * rewrite !bool_decide_eq_false_2
          by (congruence || by rewrite elem_of_singleton).
        eexists. split; [reflexivity |]. by rewrite app_nil_r.
  - destruct Hone as (Ht & Hp & Hf). split_and!.
    + rewrite Ht, size_empty. lia.
    + rewrite Hp. split; intros [? ?]; done.
    + intros j. simpl. rewrite Ht, Hp.
      rewrite !bool_decide_eq_false_2 by (done || apply not_elem_of_empty).
      eexists. split; [reflexivity |]. by rewrite app_nil_r.
Qed.

(** X7, after a sign-in, a sign-out and a second sign-in. *)
Lemma X7_one_poll_loop_witness :
  App.exec Js.NumberDecimal
    [App.AuthChanged (Some "u1"); App.AuthChanged None;
     App.AuthChanged (Some "u2")] (App.init ∅)
  = Js.Val Sample.secondSession
  ∧ onePoller Sample.secondSession
  ∧ App.timers Sample.secondSession = {[1%nat]}.
Proof.
  assert (App.exec Js.NumberDecimal
            [App.AuthChanged (Some "u1"); App.AuthChanged None;
             App.AuthChanged (Some "u2")] (App.init ∅)
          = Js.Val Sample.secondSession) as E by (vm_compute; reflexivity).
  split; [exact E |].
  destruct (X7_one_poll_loop Js.NumberDecimal ∅ _ _ E) as (Hone & _).
  split; [exact Hone |]. vm_compute. reflexivity.
Defined.

(** X8. The queue stays well formed. In every state the event loop
    reaches from the mounted component, whatever the events and the
    responses, malformed ones included, every queued notification carries
    an alert identity and a delivery identity, and the queue is empty
    while nobody is signed in. So the filters that the toast's handlers
    run over the queue, which read [x.alert.id] and [x.delivery.id] of
    every entry, raise no TypeError there, and neither does the turn of
    any further event. (A request that fails still rejects the promise
    of [onGotIt] and of [onMuteAlert]; the statement is about the states
    reached, not about how those promises settle.) *)
Theorem X8_queue_stays_well_formed (Number : string → Js.number)
    (storage : gmap string string) (es : list App.Event) :
  ∃ st, App.exec Number es (App.init storage) = Js.Val st
    ∧ Forall wellFormed (App.toastQueue st)
    ∧ (App.user st = None → App.toastQueue st = [])
    ∧ (∀ a, App.dropAlert a (App.toastQueue st)
            = Js.Val (withoutAlert a (App.toastQueue st)))
    ∧ (∀ d, App.dropDelivery d (App.toastQueue st)
            = Js.Val (withoutDelivery d (App.toastQueue st)))
    ∧ (∀ e, App.step Number e st ≠ Js.TypeError).
Proof.
  destruct (exec_spec Number es _ (init_Invariant storage))
    as (st & E & Hinv & _).
  pose proof Hinv as [Hwf _ _ _ _ Hout].
  exists st. split_and!; try done.
  - intros a. by apply dropAlert_val, wellFormed_hasAlert.
  - intros d. by apply dropDelivery_val, wellFormed_hasDelivery.
  - intros e. destruct (step_spec Number e st Hinv) as (st' & -> & _). done.
Qed.

(** X9. Only a settled poll adds to the queue: after any other event the
    queue is a sublist of what it was. *)
Theorem X9_only_polls_add (Number : string → Js.number)
    (storage : gmap string string) (es : list App.Event) (e : App.Event)
    (st st' : App.State) :
  App.exec Number es (App.init storage) = Js.Val st →
  App.step Number e st = Js.Val st' →
  (∀ k notes now, e ≠ App.PollSettled k (Some notes) now) →
  App.toastQueue st' `sublist_of` App.toastQueue st.
Proof.
  intros E E1 Hne.
  destruct (exec_spec Number es _ (init_Invariant storage))
    as (st0 & E0 & Hinv & _).
  rewrite E in E0. injection E0 as <-.
  destruct (step_spec Number e st Hinv) as (st1 & E1' & _ & Hq & _).
  rewrite E1 in E1'. injection E1' as <-.
  destruct Hq as [P dec Hq | k inst notes now He _ _ _].
  - rewrite Hq. apply sublist_filter.
  - by destruct (Hne k notes now).
Qed.

(** X9, on an acknowledgement that settles. *)
Lemma X9_only_polls_add_witness :
  ∃ st st',
    App.exec Js.NumberDecimal
      [App.AuthChanged (Some "u1");
       App.PollSettled 0 (Some [Sample.note "A" "d1"; Sample.note "B" "d2"])
         1000;
       App.ClickGotIt "d1"] (App.init ∅) = Js.Val st
    ∧ App.step Js.NumberDecimal (App.AckSettled 0 true) st = Js.Val st'
    ∧ App.toastQueue st' `sublist_of` App.toastQueue st
    ∧ App.toastQueue st' = [Sample.note "B" "d2"].
Proof.
  destruct (exec_spec Js.NumberDecimal
              [App.AuthChanged (Some "u1");
               App.PollSettled 0
                 (Some [Sample.note "A" "d1"; Sample.note "B" "d2"]) 1000;
               App.ClickGotIt "d1"] _ (init_Invariant ∅))
    as (st & E & Hinv & _).
  destruct (step_spec Js.NumberDecimal (App.AckSettled 0 true) st Hinv)
    as (st' & E' & _).
  exists st, st'. split; [exact E |]. split; [exact E' |].
  split; [by apply (X9_only_polls_add Js.NumberDecimal ∅ _ _ st st' E E') |].
  vm_compute in E. injection E as <-.
  vm_compute in E'. by injection E' as <-.
Defined.

(** ** The alerts modal *)

Section Modal.

Lemma applyMute_always_storage now a updated reloaded st w :
  localStorage (AlertsModal.applyMute now a Always updated reloaded st w).2
  = delete (AlertsModal.LS_UNTIL (dto_id a)) (localStorage w).
Proof.
  unfold AlertsModal.applyMute.
  by destruct updated as [[] | m]; simpl; [destruct reloaded |].
Qed.

End Modal.

(** X10. In the modal, the permanent mute deletes the alert's local
    mute-until record first and then asks the directory to store the row
    with [muted] set, whatever the row said before; the list is reloaded
    only when that update resolves, and the mute panel is closed only
    when the reload resolves too. Afterwards no local mute-until record
    of the alert is read, at any instant. *)
Theorem X10_modal_mute_always (now : Z) (a : AlertDTO)
    (updated : Js.settled unit) (reloaded : Js.settled (list AlertDTO))
    (st : AlertsModal.State) (w : World) :
  trace (AlertsModal.applyMute now a Always updated reloaded st w).2
  = trace w
    ++ [RemoveItem (AlertsModal.LS_UNTIL (dto_id a));
        Call (UpdateAlert (dto_id a) (withMuted a true))]
    ++ match updated with
       | Js.Resolved _ => [Call ListAlerts]
       | Js.Rejected _ => []
       end
  ∧ p_muted (withMuted a true) = true
  ∧ localStorage (AlertsModal.applyMute now a Always updated reloaded st w).2
    = delete (AlertsModal.LS_UNTIL (dto_id a)) (localStorage w)
  ∧ (∀ Number t,
       (AlertsModal.getMuteUntil Number t (dto_id a)
          (AlertsModal.applyMute now a Always updated reloaded st w).2).1 = None)
  ∧ (AlertsModal.muteOpenFor
       (AlertsModal.applyMute now a Always updated reloaded st w).1 = None
     ↔ AlertsModal.muteOpenFor st = None
       ∨ (∃ l, updated = Js.Resolved () ∧ reloaded = Js.Resolved l)).
Proof.
  split_and!.
  - unfold AlertsModal.applyMute. destruct updated as [[] | m]; simpl.
    + destruct reloaded; simpl; by rewrite <- !app_assoc.
    + by rewrite <- !app_assoc.
  - done.
  - apply applyMute_always_storage.
  - intros Number t. rewrite modal_getMuteUntil_readUntil.
    unfold readUntil, getItem.
    by rewrite applyMute_always_storage, lookup_delete_eq.
  - unfold AlertsModal.applyMute.
    destruct updated as [[] | m]; simpl; [destruct reloaded as [l | m] |];
      simpl; split; try tauto; eauto.
    + intros [H | (l & _ & [=])]; done.
    + intros [H | (l & [=] & _)]; done.
Qed.

(** X11. Whatever the directory answers, [applyMute] and [unmute] end
    with [busy] unset. In either handler a rejected update, or a
    rejected reload after an update that resolved or was not needed,
    leaves the list of alerts and the mute panel as they were and shows
    the rejection's message, or the handler's fallback text when it has
    none; when everything resolves the error is cleared and the list is
    the reloaded one. *)
Theorem X11_modal_failure_handling (now : Z) (a : AlertDTO)
    (choice : MuteChoice) (updated : Js.settled unit)
    (reloaded : Js.settled (list AlertDTO)) (st : AlertsModal.State)
    (w : World) :
  AlertsModal.busy (AlertsModal.applyMute now a choice updated reloaded st w).1
  = false
  ∧ AlertsModal.busy (AlertsModal.unmute a updated reloaded st w).1 = false
  ∧ (∀ m, (choice = Always ∨ dto_muted a = true) → updated = Js.Rejected m →
       (AlertsModal.applyMute now a choice updated reloaded st w).1
       = AlertsModal.mkState (AlertsModal.alerts st)
           (Some (default "Failed to mute alert." m)) false
           (AlertsModal.muteOpenFor st))
  ∧ (∀ m, (updated = Js.Resolved ()
           ∨ (choice ≠ Always ∧ dto_muted a = false)) →
       reloaded = Js.Rejected m →
       (AlertsModal.applyMute now a choice updated reloaded st w).1
       = AlertsModal.mkState (AlertsModal.alerts st)
           (Some (default "Failed to mute alert." m)) false
           (AlertsModal.muteOpenFor st))
  ∧ (∀ l, (updated = Js.Resolved ()
           ∨ (choice ≠ Always ∧ dto_muted a = false)) →
       reloaded = Js.Resolved l →
       (AlertsModal.applyMute now a choice updated reloaded st w).1
       = AlertsModal.mkState l None false None)
  ∧ (∀ m, updated = Js.Rejected m →
       (AlertsModal.unmute a updated reloaded st w).1
       = AlertsModal.mkState (AlertsModal.alerts st)
           (Some (default "Failed to unmute alert." m)) false
           (AlertsModal.muteOpenFor st))
  ∧ (∀ m, updated = Js.Resolved () → reloaded = Js.Rejected m →
       (AlertsModal.unmute a updated reloaded st w).1
       = AlertsModal.mkState (AlertsModal.alerts st)
           (Some (default "Failed to unmute alert." m)) false
           (AlertsModal.muteOpenFor st))
  ∧ (∀ l, updated = Js.Resolved () → reloaded = Js.Resolved l →
       (AlertsModal.unmute a updated reloaded st w).1
       = AlertsModal.mkState l None false (AlertsModal.muteOpenFor st)).
Proof.
  unfold AlertsModal.applyMute, AlertsModal.unmute. split_and!.
  - destruct choice as [c |]; [destruct (dto_muted a) |];
      destruct updated as [[] | m]; simpl; try done; by destruct reloaded.
  - destruct updated as [[] | m]; simpl; [by destruct reloaded | done].
  - intros m [-> | Hm] ->; [done |]. destruct choice; [by rewrite Hm | done].
  - intros m [-> | [Hc Hm]] ->.
    + by destruct choice as [c |]; [destruct (dto_muted a) |].
    + destruct choice as [c |]; [by rewrite Hm | done].
  - intros l [-> | [Hc Hm]] ->.
    + by destruct choice as [c |]; [destruct (dto_muted a) |].
    + destruct choice as [c |]; [by rewrite Hm | done].
  - by intros m ->.
  - by intros m -> ->.
  - by intros l -> ->.
Qed.

(** X12. The modal's [unmute] deletes the local mute-until record and
    then asks the directory to store the row with [muted] unset, whether
    or not the row said [muted]; the toast's unmute, given a row that
    does not say [muted], asks for nothing. *)
Theorem X12_modal_unmute_always_updates (a : AlertDTO)
    (updated : Js.settled unit) (reloaded : Js.settled (list AlertDTO))
    (st : AlertsModal.State) (w : World) (all : list AlertDTO)
    (app : App.State) :
  trace (AlertsModal.unmute a updated reloaded st w).2
  = trace w
    ++ [RemoveItem (AlertsModal.LS_UNTIL (dto_id a));
        Call (UpdateAlert (dto_id a) (withMuted a false))]
    ++ match updated with
       | Js.Resolved _ => [Call ListAlerts]
       | Js.Rejected _ => []
       end
  ∧ localStorage (AlertsModal.unmute a updated reloaded st w).2
    = delete (AlertsModal.LS_UNTIL (dto_id a)) (localStorage w)
  ∧ AlertsModal.muteOpenFor (AlertsModal.unmute a updated reloaded st w).1
    = AlertsModal.muteOpenFor st
  ∧ (App.findAlert (dto_id a) all = Some a → dto_muted a = false →
     requests (trace (App.world
                 (App.onUnmuteAlert_listed (dto_id a) (Some all) app)))
     = requests (trace (App.world app))).
Proof.
  unfold AlertsModal.unmute. split_and!.
  - destruct updated as [[] | m]; simpl.
    + destruct reloaded; simpl; by rewrite <- !app_assoc.
    + by rewrite <- !app_assoc.
  - by destruct updated as [[] | m]; simpl; [destruct reloaded |].
  - by destruct updated as [[] | m]; simpl; [destruct reloaded |].
  - intros Hrow Hm. unfold App.onUnmuteAlert_listed. by rewrite Hrow, Hm.
Qed.

(** X12, on a row that is not muted on the server. *)
Lemma X12_modal_unmute_always_updates_witness :
  (App.findAlert "A" [Sample.row "A" false] = Some (Sample.row "A" false)
   ∧ dto_muted (Sample.row "A" false) = false)
  ∧ requests
      (trace (AlertsModal.unmute (Sample.row "A" false) (Js.Resolved ())
                (Js.Resolved []) Sample.modal Sample.emptyWorld).2)
    = [UpdateAlert "A" (withMuted (Sample.row "A" false) false); ListAlerts]
  ∧ requests
      (trace (App.world
                (App.onUnmuteAlert_listed "A" (Some [Sample.row "A" false])
                   Sample.oneQueued))) = [].
Proof.
  assert (App.findAlert "A" [Sample.row "A" false]
          = Some (Sample.row "A" false)) as H1 by reflexivity.
  assert (dto_muted (Sample.row "A" false) = false) as H2 by reflexivity.
  split; [by split |].
  destruct (X12_modal_unmute_always_updates (Sample.row "A" false)
              (Js.Resolved ()) (Js.Resolved []) Sample.modal Sample.emptyWorld
              [Sample.row "A" false] Sample.oneQueued) as (Ht & _ & _ & Hr).
  split; [by rewrite Ht | exact (Hr H1 H2)].
Defined.

(** ** Toggles, the alert builder and the tabs *)

Section Lists.

Lemma filter_ne_id (k : string) (l : list string) :
  k ∉ l → filter (λ x, x ≠ k) l = l.
Proof.
  induction l as [| y l IH]; [done |].
  rewrite not_elem_of_cons. intros [Hy Hl].
  rewrite filter_cons, decide_True by done. by rewrite IH.
Qed.

Lemma NoDup_fmap_filter {A B} (f : A → B) (P : A → Prop)
    `{!∀ x, Decision (P x)} (l : list A) :
  NoDup (f <$> l) → NoDup (f <$> filter P l).
Proof.
  induction l as [| x l IH]; simpl; [done |].
  rewrite NoDup_cons. intros [Hx Hl]. rewrite filter_cons.
  destruct (decide (P x)); [| by apply IH].
  rewrite fmap_cons. apply NoDup_cons. split; [| by apply IH].
  intros Hin. apply Hx. apply list_elem_of_fmap in Hin as (y & -> & Hy).
  apply list_elem_of_filter in Hy as [_ Hy]. apply list_elem_of_fmap. eauto.
Qed.

Lemma filter_ne_not_elem (k : string) (l : list string) :
  k ∉ filter (λ x, x ≠ k) l.
Proof. intros H. by apply list_elem_of_filter in H as [H _]. Qed.

End Lists.

(** X13. Toggling a feed type in the alert builder, or a source in the
    preferences, flips the membership of that one entry and of no other,
    and keeps a selection free of duplicates so. Toggling an entry that
    was not selected twice gives the selection back; toggling a selected
    entry twice moves it to the end. *)
Theorem X13_toggle_flips_one (k : string) (prev : list string) :
  (k ∈ AlertBuilder.toggleStatus k prev ↔ k ∉ prev)
  ∧ (∀ x, x ≠ k → (x ∈ AlertBuilder.toggleStatus k prev ↔ x ∈ prev))
  ∧ (NoDup prev → NoDup (AlertBuilder.toggleStatus k prev))
  ∧ (k ∉ prev →
     AlertBuilder.toggleStatus k (AlertBuilder.toggleStatus k prev) = prev)
  ∧ (k ∈ prev →
     AlertBuilder.toggleStatus k (AlertBuilder.toggleStatus k prev)
     = filter (λ x, x ≠ k) prev ++ [k])
  ∧ PreferencesModal.toggle k prev = AlertBuilder.toggleStatus k prev.
Proof.
  unfold AlertBuilder.toggleStatus, PreferencesModal.toggle.
  destruct (decide (k ∈ prev)) as [Hin | Hout].
  - rewrite (bool_decide_eq_true_2 _ Hin).
    pose proof (filter_ne_not_elem k prev) as Hno.
    rewrite (bool_decide_eq_false_2 _ Hno). split_and!; try done.
    + intros x Hx. rewrite list_elem_of_filter. tauto.
    + apply NoDup_filter.
  - rewrite (bool_decide_eq_false_2 _ Hout).
    assert (k ∈ prev ++ [k]) as Hin'
      by (apply elem_of_app; right; by apply list_elem_of_singleton).
    rewrite (bool_decide_eq_true_2 _ Hin'). split_and!; try done.
    + intros x Hx. rewrite elem_of_app, list_elem_of_singleton. tauto.
    + intros Hnd. apply NoDup_app. split_and!; [done | | apply NoDup_singleton].
      intros x Hx Hk. apply list_elem_of_singleton in Hk. by subst.
    + intros _. rewrite filter_app, filter_ne_id by done.
      rewrite filter_cons, decide_False by (intros H; by apply H).
      by rewrite filter_nil, app_nil_r.
Qed.

(** X14. [addAlert] makes one [createAlert] call for each picked feed
    type, each for that one type, or a single call for all types when
    none is picked, and never none; every alert it asks for is enabled,
    unmuted, without categories and for the chosen source. The list is
    reloaded only when the creation resolves, and the picks are cleared
    only when the reload resolves too; otherwise they stay for another
    try. [busy] is unset at the end. *)
Theorem X14_addAlert_one_per_status (created : Js.settled unit)
    (reloaded : Js.settled (list AlertDTO)) (st : AlertBuilder.State) :
  ∃ creates rest,
    (AlertBuilder.addAlert created reloaded st).2
    = (AlertBuilder.CreateAlert <$> creates) ++ rest
    ∧ length creates = Nat.max 1 (length (AlertBuilder.pickedStatuses st))
    ∧ p_statuses <$> creates
      = match AlertBuilder.pickedStatuses st with
        | [] => [[]]
        | picked => (λ s, [s]) <$> picked
        end
    ∧ Forall (λ p, p_source_key p = AlertBuilder.sourceKey st
                   ∧ p_categories p = [] ∧ p_enabled p = true
                   ∧ p_muted p = false) creates
    ∧ rest = match created with
             | Js.Resolved _ => [AlertBuilder.ReloadAlerts]
             | Js.Rejected _ => []
             end
    ∧ AlertsModal.busy
        (AlertBuilder.modal (AlertBuilder.addAlert created reloaded st).1)
      = false
    ∧ AlertBuilder.pickedStatuses (AlertBuilder.addAlert created reloaded st).1
      = match created, reloaded with
        | Js.Resolved _, Js.Resolved _ => []
        | _, _ => AlertBuilder.pickedStatuses st
        end
    ∧ AlertsModal.alerts
        (AlertBuilder.modal (AlertBuilder.addAlert created reloaded st).1)
      = match created, reloaded with
        | Js.Resolved _, Js.Resolved l => l
        | _, _ => AlertsModal.alerts (AlertBuilder.modal st)
        end.
Proof.
  exists (match AlertBuilder.pickedStatuses st with
          | [] => [AlertBuilder.newAlert (AlertBuilder.sourceKey st) []]
          | picked =>
              (λ s, AlertBuilder.newAlert (AlertBuilder.sourceKey st) [s])
                <$> picked
          end),
         (match created with
          | Js.Resolved _ => [AlertBuilder.ReloadAlerts]
          | Js.Rejected _ => []
          end).
  unfold AlertBuilder.addAlert.
  destruct (AlertBuilder.pickedStatuses st) as [| s picked] eqn:Ep.
  - destruct created as [[] | m], reloaded as [l | m']; simpl;
      split_and!; try done; repeat constructor.
  - destruct created as [[] | m], reloaded as [l | m']; simpl;
      rewrite ?app_nil_r, ?length_fmap, <- ?list_fmap_compose;
      split_and!; try done.
    all: constructor; [done |]; apply Forall_fmap, Forall_true; done.
Qed.

(** X15. The tab bar shows the known sources in their fixed order, never
    twice: restricted to the allowed keys when there are some, and all of
    them when the list is missing or empty, which is the case for anybody
    not signed in whatever preferences are stored. A key that is allowed
    but unknown gets no tab. After non-empty preferences are saved the
    active source is one of them. *)
Theorem X15_tabs_follow_preferences (allowed : option (list string))
    (prefs : option (list string)) (sources : list string) (active : string) :
  SourceTabs.list allowed `sublist_of` SourceTabs.LABELS
  ∧ NoDup (SourceTabs.list allowed).*1
  ∧ (∀ x, x ∈ SourceTabs.list allowed
          ↔ x ∈ SourceTabs.LABELS
            ∧ match allowed with
              | None | Some [] => True
              | Some ks => x.1 ∈ ks
              end)
  ∧ SourceTabs.list (Preferences.allowedKeys None prefs) = SourceTabs.LABELS
  ∧ (sources ≠ [] → Preferences.handleSavePrefs sources active ∈ sources)
  ∧ (active ∈ sources ∨ sources = [] →
     Preferences.handleSavePrefs sources active = active).
Proof.
  assert (NoDup SourceTabs.LABELS.*1) as Hnd by compute_done.
  split_and!.
  - destruct allowed as [[| k ks] |]; simpl; try done. apply sublist_filter.
  - destruct allowed as [[| k ks] |]; simpl; try done.
    by apply NoDup_fmap_filter.
  - intros x. destruct allowed as [[| k ks] |]; simpl; try tauto.
    rewrite list_elem_of_filter. tauto.
  - done.
  - intros Hne. unfold Preferences.handleSavePrefs.
    destruct sources as [| s0 rest]; [done |].
    case_bool_decide; [done | by left].
  - intros [Hin | ->]; [| done]. unfold Preferences.handleSavePrefs.
    destruct sources as [| s0 rest]; [done |]. by rewrite bool_decide_eq_true_2.
Qed.

(** X15, with two preferred sources given out of the tab order, one
    unknown key among them, and an active source that is not preferred. *)
Lemma X15_tabs_follow_preferences_witness :
  ["texas"; "florida"; "mars"] ≠ []
  ∧ (SourceTabs.list (Some ["texas"; "florida"; "mars"])).*1
    = ["florida"; "texas"]
  ∧ Preferences.handleSavePrefs ["texas"; "florida"; "mars"] "ohio"
    ∈ ["texas"; "florida"; "mars"].
Proof.
  assert (["texas"; "florida"; "mars"] ≠ ([] : list string)) as H by done.
  split; [exact H |]. split; [by vm_compute |].
  by destruct (X15_tabs_follow_preferences None None
                 ["texas"; "florida"; "mars"] "ohio") as (_ & _ & _ & _ & Hs & _);
    apply Hs.
Defined.

(** ** Pages and slides *)

Section Pages.

Lemma ceilDiv_bounds a b :
  0 < b → b * (Pager.ceilDiv a b - 1) < a ∧ a <= b * Pager.ceilDiv a b.
Proof.
  intros Hb. unfold Pager.ceilDiv.
  pose proof (Z.div_mod (- a) b) as Hdm.
  pose proof (Z.mod_pos_bound (- a) b Hb) as Hm. nia.
Qed.

Lemma totalPages_ge_1 total pageSize : 1 <= Pager.totalPages total pageSize.
Proof. unfold Pager.totalPages. lia. Qed.

Lemma advance_mod len i :
  0 < len → 0 <= i → Carousel.advance len i = (i + 1) mod len.
Proof. intros Hl Hi. unfold Carousel.advance. apply Z.rem_mod_nonneg; lia. Qed.

End Pages.

(** X16. The number of pages is at least one, and with a positive page
    size and at least one item it is the least number of pages that holds
    all the items: the last page is not empty and no item is beyond it.
    Without items, or without a positive page size, there is one page. *)
Theorem X16_totalPages_covers_items (total pageSize : Z) :
  1 <= Pager.totalPages total pageSize
  ∧ (0 < pageSize → 0 < total →
     (Pager.totalPages total pageSize - 1) * pageSize < total
     ∧ total <= Pager.totalPages total pageSize * pageSize)
  ∧ (pageSize <= 0 ∨ total <= 0 → Pager.totalPages total pageSize = 1).
Proof.
  split_and!.
  - apply totalPages_ge_1.
  - intros Hp Ht. unfold Pager.totalPages.
    destruct (Z.ltb_spec 0 pageSize) as [_ | ?]; [| lia].
    pose proof (ceilDiv_bounds total pageSize Hp). nia.
  - intros H. unfold Pager.totalPages.
    destruct (Z.ltb_spec 0 pageSize) as [Hp | ?]; [| lia].
    pose proof (ceilDiv_bounds total pageSize Hp). nia.
Qed.

(** X16, for 81 items in pages of 40. *)
Lemma X16_totalPages_covers_items_witness :
  (0 < 40 ∧ 0 < 81)
  ∧ Pager.totalPages 81 40 = 3
  ∧ (Pager.totalPages 81 40 - 1) * 40 < 81.
Proof.
  assert (0 < 40) as H1 by lia. assert (0 < 81) as H2 by lia.
  split; [by split |]. split; [reflexivity |].
  by destruct (X16_totalPages_covers_items 81 40) as (_ & H & _);
    destruct (H H1 H2).
Defined.

(** X17. Whatever page number is asked for, [goToPage] lands on a page
    between 1 and the last, and on the page asked for when there is such
    a page; the previous and next buttons keep the page in that range,
    and stay put on the first and on the last page. *)
Theorem X17_page_stays_in_range (total pageSize p page : Z) :
  1 <= Pager.goToPage (Pager.totalPages total pageSize) p
       <= Pager.totalPages total pageSize
  ∧ (1 <= p <= Pager.totalPages total pageSize →
     Pager.goToPage (Pager.totalPages total pageSize) p = p)
  ∧ (1 <= page <= Pager.totalPages total pageSize →
     1 <= Pager.handlePrevPage page <= Pager.totalPages total pageSize
     ∧ 1 <= Pager.handleNextPage (Pager.totalPages total pageSize) page
          <= Pager.totalPages total pageSize
     ∧ (page = 1 → Pager.handlePrevPage page = page)
     ∧ (1 < page → Pager.handlePrevPage page = page - 1)
     ∧ (page = Pager.totalPages total pageSize →
        Pager.handleNextPage (Pager.totalPages total pageSize) page = page)
     ∧ (page < Pager.totalPages total pageSize →
        Pager.handleNextPage (Pager.totalPages total pageSize) page = page + 1)).
Proof.
  pose proof (totalPages_ge_1 total pageSize) as Htp.
  unfold Pager.goToPage, Pager.handlePrevPage, Pager.handleNextPage.
  split_and!; [lia | lia | lia |].
  intros Hpage.
  destruct (Z.ltb_spec 1 page), (Z.ltb_spec page (Pager.totalPages total pageSize));
    lia.
Qed.

(** X17, for page 9 asked of a feed of three pages. *)
Lemma X17_page_stays_in_range_witness :
  1 <= 3 <= Pager.totalPages 81 40
  ∧ Pager.goToPage (Pager.totalPages 81 40) 9 = 3
  ∧ Pager.handleNextPage (Pager.totalPages 81 40) 3 = 3.
Proof.
  assert (1 <= 3 <= Pager.totalPages 81 40) as H by (by vm_compute).
  split; [exact H |]. split; [reflexivity |].
  destruct (X17_page_stays_in_range 81 40 9 3) as (_ & _ & Hn).
  destruct (Hn H) as (_ & _ & _ & _ & Hlast & _). by apply Hlast.
Defined.

(** X18. Once the chunk has followed the page, the page buttons shown
    are the consecutive pages of the current group of ten, cut off at the
    last page: at most ten of them, all between 1 and the last page, the
    current page among them. A chunk brought back under the maximum
    always shows at least one page, and so do the next and the previous
    chunk whenever their buttons are enabled. *)
Theorem X18_visible_pages (total pageSize page c : Z) :
  (1 <= page <= Pager.totalPages total pageSize →
   page ∈ Pager.visiblePages (Pager.totalPages total pageSize)
            (Pager.chunkOfPage page)
   ∧ 0 <= Pager.chunkOfPage page
          <= Pager.maxChunk (Pager.totalPages total pageSize))
  ∧ Pager.visiblePages (Pager.totalPages total pageSize) c
    = seqZ (Pager.chunkStart c)
        (Pager.chunkEnd (Pager.totalPages total pageSize) c
         - Pager.chunkStart c + 1)
  ∧ (length (Pager.visiblePages (Pager.totalPages total pageSize) c) ≤ 10)%nat
  ∧ (0 <= c →
     Forall (λ p, 1 <= p <= Pager.totalPages total pageSize)
       (Pager.visiblePages (Pager.totalPages total pageSize) c))
  ∧ (0 <= c →
     Pager.visiblePages (Pager.totalPages total pageSize)
       (Pager.clampChunk (Pager.totalPages total pageSize) c) ≠ [])
  ∧ (0 <= c →
     Pager.canChunkNext (Pager.totalPages total pageSize) c = true →
     Pager.visiblePages (Pager.totalPages total pageSize)
       (Pager.handleNextChunk c) ≠ [])
  ∧ (0 <= c → Pager.chunkStart c <= Pager.totalPages total pageSize →
     Pager.canChunkPrev c = true →
     Pager.handlePrevChunk c = c - 1
     ∧ Pager.visiblePages (Pager.totalPages total pageSize)
         (Pager.handlePrevChunk c) ≠ []).
Proof.
  pose proof (totalPages_ge_1 total pageSize) as Htp.
  set (tp := Pager.totalPages total pageSize) in *.
  assert (∀ k, Pager.visiblePages tp k
               = seqZ (Pager.chunkStart k)
                   (Pager.chunkEnd tp k - Pager.chunkStart k + 1)) as Hvis.
  { intros k. unfold Pager.visiblePages.
    change (λ i, Pager.chunkStart k + i) with (Z.add (Pager.chunkStart k)).
    rewrite fmap_add_seqZ, Z.add_0_r.
    destruct (Z.max_spec 0 (Pager.chunkEnd tp k - Pager.chunkStart k + 1))
      as [[_ ->] | [Hneg ->]]; [done |].
    by rewrite !seqZ_nil by lia. }
  assert (∀ k, Pager.chunkStart k <= tp → Pager.visiblePages tp k ≠ [])
    as Hne.
  { intros k Hk. rewrite Hvis. intros Hnil.
    apply (f_equal length) in Hnil. rewrite length_seqZ in Hnil. simpl in Hnil.
    unfold Pager.chunkEnd, Pager.chunkStart, Pager.CHUNK_SIZE in *. lia. }
  split_and!.
  - intros Hpage. rewrite Hvis, elem_of_seqZ.
    unfold Pager.chunkOfPage, Pager.maxChunk, Pager.chunkEnd, Pager.chunkStart,
      Pager.CHUNK_SIZE.
    Z.div_mod_to_equations. lia.
  - apply Hvis.
  - rewrite Hvis, length_seqZ.
    unfold Pager.chunkEnd, Pager.chunkStart, Pager.CHUNK_SIZE. lia.
  - intros Hc. rewrite Hvis. apply Forall_seqZ. intros p Hp.
    unfold Pager.chunkEnd, Pager.chunkStart, Pager.CHUNK_SIZE in *. lia.
  - intros Hc. apply Hne.
    unfold Pager.clampChunk, Pager.maxChunk, Pager.chunkStart, Pager.CHUNK_SIZE.
    Z.div_mod_to_equations. lia.
  - intros Hc Hnext. apply Hne. unfold Pager.canChunkNext in Hnext.
    apply Z.ltb_lt in Hnext.
    unfold Pager.handleNextChunk, Pager.chunkEnd, Pager.chunkStart,
      Pager.CHUNK_SIZE in *. lia.
  - intros Hc Hstart Hprev. unfold Pager.canChunkPrev in Hprev.
    apply Z.ltb_lt in Hprev.
    assert (Pager.handlePrevChunk c = c - 1) as Hp
      by (unfold Pager.handlePrevChunk; lia).
    split; [done |]. apply Hne. rewrite Hp.
    unfold Pager.chunkStart, Pager.CHUNK_SIZE in *. lia.
Qed.

(** X18, for page 23 of 25. *)
Lemma X18_visible_pages_witness :
  1 <= 23 <= Pager.totalPages 1000 40
  ∧ Pager.visiblePages (Pager.totalPages 1000 40) (Pager.chunkOfPage 23)
    = [21; 22; 23; 24; 25]
  ∧ 23 ∈ Pager.visiblePages (Pager.totalPages 1000 40) (Pager.chunkOfPage 23).
Proof.
  assert (1 <= 23 <= Pager.totalPages 1000 40) as H by (by vm_compute).
  split; [exact H |]. split; [by vm_compute |].
  destruct (X18_visible_pages 1000 40 23 0) as (Hp & _).
  by destruct (Hp H).
Defined.

(** X19. With at least one slide, the interval's update keeps the slide
    index within the slides and moves it one slide on, wrapping from the
    last to the first: [k] ticks from slide [i] show slide [(i + k) mod
    len], so a full round of [len] ticks comes back to where it started.
    The reset effect brings an index left beyond a shortened list back to
    the first slide. *)
Theorem X19_carousel_cycles (len i : Z) (k : nat) :
  0 < len → 0 <= i < len →
  0 <= Carousel.advance len i < len
  ∧ Nat.iter k (Carousel.advance len) i = (i + Z.of_nat k) mod len
  ∧ Nat.iter (Z.to_nat len) (Carousel.advance len) i = i
  ∧ (∀ j, 0 <= j → 0 <= Carousel.resetIndex len j < len
                   ∧ (j < len → Carousel.resetIndex len j = j)
                   ∧ (len <= j → Carousel.resetIndex len j = 0)).
Proof.
  intros Hlen Hi.
  assert (∀ n, Nat.iter n (Carousel.advance len) i = (i + Z.of_nat n) mod len)
    as Hiter.
  { induction n as [| n IH]; simpl.
    - rewrite Z.add_0_r. symmetry. by apply Z.mod_small.
    - rewrite IH, advance_mod; [| done | by apply Z.mod_pos_bound].
      rewrite Zplus_mod_idemp_l. f_equal. lia. }
  split; [rewrite advance_mod by lia; by apply Z.mod_pos_bound |].
  split; [apply Hiter |]. split.
  - rewrite Hiter, Z2Nat.id by lia.
    rewrite <- (Z.mul_1_l len) at 1. rewrite Z.mod_add by lia.
    by apply Z.mod_small.
  - intros j Hj. unfold Carousel.resetIndex.
    destruct (Z.leb_spec len j); lia.
Qed.

(** X19, for three slides, and for index 5 left over from a longer
    list. *)
Lemma X19_carousel_cycles_witness :
  (0 < 3 ∧ 0 <= 2 < 3)
  ∧ Carousel.advance 3 2 = 0
  ∧ Nat.iter 4 (Carousel.advance 3) 2 = 0
  ∧ Carousel.resetIndex 3 5 = 0.
Proof.
  assert (0 < 3) as H1 by lia. assert (0 <= 2 < 3) as H2 by lia.
  split; [by split |]. split; [reflexivity |].
  destruct (X19_carousel_cycles 3 2 4 H1 H2) as (_ & Hk & _ & Hr).
  split; [by rewrite Hk |].
  destruct (Hr 5) as (_ & _ & H0); [lia |]. apply H0. lia.
Defined.

(** X20. [remove] calls [deleteAlert] for the alert once and reloads the
    list only when the deletion resolves; the list shown changes only
    when the reload resolves too, and the picked feed types and the
    source of the builder are never touched. A rejection shows its
    message, or "Failed to delete alert." when it has none. *)
Theorem X20_remove_then_reload (id : string) (deleted : Js.settled unit)
    (reloaded : Js.settled (list AlertDTO)) (st : AlertBuilder.State) :
  (AlertBuilder.remove id deleted reloaded st).2
  = AlertBuilder.DeleteAlert id
    :: match deleted with
       | Js.Resolved _ => [AlertBuilder.ReloadAlerts]
       | Js.Rejected _ => []
       end
  ∧ AlertBuilder.pickedStatuses (AlertBuilder.remove id deleted reloaded st).1
    = AlertBuilder.pickedStatuses st
  ∧ AlertBuilder.sourceKey (AlertBuilder.remove id deleted reloaded st).1
    = AlertBuilder.sourceKey st
  ∧ AlertsModal.busy
      (AlertBuilder.modal (AlertBuilder.remove id deleted reloaded st).1)
    = false
  ∧ AlertsModal.alerts
      (AlertBuilder.modal (AlertBuilder.remove id deleted reloaded st).1)
    = match deleted, reloaded with
      | Js.Resolved _, Js.Resolved l => l
      | _, _ => AlertsModal.alerts (AlertBuilder.modal st)
      end
  ∧ AlertsModal.err
      (AlertBuilder.modal (AlertBuilder.remove id deleted reloaded st).1)
    = match deleted, reloaded with
      | Js.Rejected m, _ | Js.Resolved _, Js.Rejected m =>
          Some (default "Failed to delete alert." m)
      | Js.Resolved _, Js.Resolved _ => None
      end.
Proof.
  unfold AlertBuilder.remove.
  by destruct deleted as [[] | m], reloaded as [l | m'].
Qed.

(** X21. An acknowledgement removes every queued notification of the
    delivery, resolved or not, and leaves no mark of its own: when a
    later response of a live poll carries the delivery again, and its
    alert is not suppressed, the notification is queued again. *)
Theorem X21_ack_then_repoll (Number : string → Js.number) (d : string)
    (ok : bool) (inst : nat) (notes : list Notification) (now : Z)
    (st : App.State) (x : Notification) :
  Forall wellFormed (App.toastQueue st) →
  App.cancelled st !! inst ≠ Some true →
  x ∈ notes → wellFormed x → deliveryId x = Some d →
  ¬ suppressed Number now (localStorage (App.world st)) x →
  ∃ st1 st2,
    App.onGotIt_finally d ok st = Js.Val st1
    ∧ (∀ y, y ∈ App.toastQueue st1 → deliveryId y ≠ Some d)
    ∧ App.world st1 = App.world st
    ∧ App.run_resume Number inst (Some notes) now st1 = Js.Val st2
    ∧ x ∈ App.toastQueue st2.
Proof.
  intros Hwf Hlive Hx Hxwf Hxd Hns. unfold App.onGotIt_finally.
  rewrite (dropDelivery_val d _ (wellFormed_hasDelivery _ Hwf)). simpl.
  destruct (run_resume_spec Number inst notes now
              (App.setToastQueue (withoutDelivery d (App.toastQueue st)) st))
    as (st2 & E & Hq2 & _);
    [done | by apply wellFormed_hasDelivery, withoutDelivery_wellFormed |].
  eexists _, st2. split; [reflexivity |]. simpl. split_and!; try done.
  - intros y Hy. by apply list_elem_of_filter in Hy as [Hy _].
  - rewrite Hq2. simpl. apply elem_of_app. right.
    apply list_elem_of_filter. split; [| done]. split_and!; try done.
    intros Hin. apply list_elem_of_fmap in Hin as (y & Hyd & Hy).
    apply list_elem_of_filter in Hy as [Hy _]. congruence.
Qed.

(** X21, for a rejected acknowledgement of d1 and a poll that brings d1
    back. *)
Lemma X21_ack_then_repoll_witness :
  (Forall wellFormed (App.toastQueue Sample.twoQueued)
   ∧ App.cancelled Sample.twoQueued !! 0%nat ≠ Some true
   ∧ Sample.note "A" "d1" ∈ [Sample.note "A" "d1"]
   ∧ wellFormed (Sample.note "A" "d1")
   ∧ deliveryId (Sample.note "A" "d1") = Some "d1"
   ∧ ¬ suppressed Js.NumberDecimal 1000
         (localStorage (App.world Sample.twoQueued)) (Sample.note "A" "d1"))
  ∧ ∃ st1 st2,
      App.onGotIt_finally "d1" false Sample.twoQueued = Js.Val st1
      ∧ App.toastQueue st1 = [Sample.note "B" "d2"]
      ∧ App.run_resume Js.NumberDecimal 0 (Some [Sample.note "A" "d1"]) 1000 st1
        = Js.Val st2
      ∧ Sample.note "A" "d1" ∈ App.toastQueue st2.
Proof.
  assert (Forall wellFormed (App.toastQueue Sample.twoQueued)) as H1
    by (repeat constructor).
  assert (App.cancelled Sample.twoQueued !! 0%nat ≠ Some true) as H2 by done.
  assert (Sample.note "A" "d1" ∈ [Sample.note "A" "d1"]) as H3 by (by left).
  assert (wellFormed (Sample.note "A" "d1")) as H4 by (by split).
  assert (deliveryId (Sample.note "A" "d1") = Some "d1") as H5 by reflexivity.
  assert (¬ suppressed Js.NumberDecimal 1000
            (localStorage (App.world Sample.twoQueued)) (Sample.note "A" "d1"))
    as H6 by compute_done.
  split; [by split_and! |].
  destruct (X21_ack_then_repoll Js.NumberDecimal "d1" false 0
              [Sample.note "A" "d1"] 1000 Sample.twoQueued
              (Sample.note "A" "d1") H1 H2 H3 H4 H5 H6)
    as (st1 & st2 & E1 & _ & _ & E2 & Hin).
  exists st1, st2. split; [exact E1 |]. split; [| by split].
  vm_compute in E1. by injection E1 as <-.
Defined.
